(** * Resilience and deduplication control layer of the manga scraper

    A shallow embedding of

    - [src/processors/duplicate_detector.py] (class [DuplicateDetector]),
    - [src/utils/retry_handler.py] (classes [RetryHandler], [CircuitBreaker]),
    - [src/utils/rate_limiter.py] (classes [RateLimiter], [AdaptiveRateLimiter]),
    - [src/scrapers/base_scraper.py] (class [BaseScraper], the methods that
      combine the rate limiter and the retry handler),

    together with the properties that the specification states about them
    and further properties of the same code.

    Conventions of the embedding.  A Python [int] is a [Z]; a Python [float]
    is an exact rational [Q], so that rounding error is not part of the
    model; of the ends of the float range it has the overflow of the power
    in the back-off delay and the underflow of the product in the rate
    decrease, on which the behaviour of the code depends; a [str] is a
    [string]; a [set] of
    strings is a [gset string] and a [dict] keyed by strings a
    [gmap string _].  Every method takes the object it mutates and returns
    the mutated object next to its result; a method that can raise returns a
    [Py.result].  The wall clock, [time.sleep], [random.uniform] and the
    caller-supplied operation live in an explicit [Py.world] that the
    methods thread through; the clock moves when the operation runs and when
    [time.sleep] is called, and at no other time during a method. *)

From Stdlib Require Import ZArith QArith Qround Qabs Qpower Lqa Lia Bool Ascii String List.
From stdpp Require Import gmap strings list fin_maps.

Local Open Scope Z_scope.

(** ** Python values shared by the three modules *)

Module Py.

(** Truthiness of an [Optional[str]]: [None] and the empty string are falsy. *)
Definition truthy_str (o : option string) : bool :=
  match o with
  | Some s => negb (String.eqb s EmptyString)
  | None => false
  end.

(** *** The builtin [int(s, 16)]

    The detector decodes perceptual hashes with [int(hash, 16)].  The
    builtin accepts more than bare hexadecimal digits: surrounding
    whitespace, a sign, a [0x] prefix and single underscores between
    digits; everything else raises [ValueError], rendered here as [None].
    Strings are read as sequences of Latin-1 code points. *)

Definition is_space (c : ascii) : bool :=
  let n := N_of_ascii c in
  (((9 <=? n) && (n <=? 13)) || (n =? 32) || (n =? 133) || (n =? 160))%N.

Definition hex_digit (c : ascii) : option Z :=
  let n := Z.of_N (N_of_ascii c) in
  if (48 <=? n) && (n <=? 57) then Some (n - 48)
  else if (97 <=? n) && (n <=? 102) then Some (n - 87)
  else if (65 <=? n) && (n <=? 70) then Some (n - 55)
  else None.

Fixpoint skip_spaces (s : string) : string :=
  match s with
  | String c s' => if is_space c then skip_spaces s' else s
  | EmptyString => s
  end.

(** The digit loop: digits and underscores are consumed, two underscores in
    a row or a trailing underscore are rejected; the unread rest is
    returned with the value. *)
Fixpoint scan_digits (s : string) (acc : Z) (prev_underscore : bool)
  : option (Z * string) :=
  match s with
  | EmptyString => if prev_underscore then None else Some (acc, s)
  | String c s' =>
      if Ascii.eqb c "_" then
        (if prev_underscore then None else scan_digits s' acc true)
      else
        match hex_digit c with
        | Some d => scan_digits s' (16 * acc + d) false
        | None => if prev_underscore then None else Some (acc, s)
        end
  end.

Definition strip_sign (s : string) : Z * string :=
  match s with
  | String "+" s' => (1, s')
  | String "-" s' => (-1, s')
  | _ => (1, s)
  end.

Definition strip_prefix (s : string) : string :=
  match s with
  | String "0" (String x s') =>
      if Ascii.eqb x "x" || Ascii.eqb x "X" then
        match s' with
        | String "_" s'' => s''
        | _ => s'
        end
      else s
  | _ => s
  end.

Definition int16 (s : string) : option Z :=
  let '(sign, s1) := strip_sign (skip_spaces s) in
  let s2 := strip_prefix s1 in
  match s2 with
  | EmptyString => None
  | String c _ =>
      match hex_digit c with
      | None => None
      | Some _ =>
          match scan_digits s2 0 false with
          | Some (v, rest) =>
              match skip_spaces rest with
              | EmptyString => Some (sign * v)
              | String _ _ => None
              end
          | None => None
          end
      end
  end.

(** [bin(n).count('1')]: the number of ones in the binary numeral of [n];
    for a negative [n] the numeral is that of [-n] behind a minus sign. *)
Fixpoint ones (p : positive) : Z :=
  match p with
  | xH => 1
  | xO p' => ones p'
  | xI p' => 1 + ones p'
  end.

Definition bin_count_ones (n : Z) : Z :=
  match n with
  | Z0 => 0
  | Zpos p => ones p
  | Zneg p => ones p
  end.

(** [round(x, 2)]: a nearest multiple of 1/100.  On the exact value a tie
    goes to the even neighbour; a float that is not exactly on the tie goes
    to the side its rounding error put it on, which is still a nearest
    multiple of the exact value.  So the model gives the hundredth that the
    code gives except at such a tie, and what is proved of [round2] below is
    that it is a nearest hundredth and stays within bounds, which holds of
    either neighbour. *)
Definition round_half_even (q : Q) : Z :=
  let f := Qfloor q in
  match Qcompare (q - inject_Z f) (1 # 2) with
  | Lt => f
  | Gt => f + 1
  | Eq => if Z.even f then f else f + 1
  end.

Definition round2 (q : Q) : Q := Qmake (round_half_even (q * 100)) 100.

(** *** Comparisons of floats *)

Definition Qleb (x y : Q) : bool := Qle_bool x y.
Definition Qltb (x y : Q) : bool := negb (Qle_bool y x).

(** [min(x, y)] and [max(x, y)]: the first argument unless the second is
    strictly smaller, respectively strictly larger. *)
Definition min (x y : Q) : Q := if Qltb y x then y else x.
Definition max (x y : Q) : Q := if Qltb x y then y else x.

(** *** Exceptions

    An exception value carries the method resolution order of its class,
    most specific class first, and its message.  A message is kept as the
    pieces of the f-string that built it, so that a formatted float stays
    a number. *)

Inductive fragment := Text (s : string) | Float (x : Q).

Record exn := mk_exn {
  exn_mro : list string;
  exn_message : list fragment
}.

(** [isinstance(e, cls)] and [isinstance(e, (cls1, ..., clsn))] *)
Definition isinstance (e : exn) (cls : string) : bool :=
  existsb (String.eqb cls) (exn_mro e).

Definition isinstance_any (e : exn) (classes : list string) : bool :=
  existsb (isinstance e) classes.

Definition Exception (message : list fragment) : exn :=
  mk_exn ["Exception"; "BaseException"; "object"]%string message.

Definition TypeError (message : string) : exn :=
  mk_exn ["TypeError"; "Exception"; "BaseException"; "object"]%string [Text message].

Definition ValueError (message : string) : exn :=
  mk_exn ["ValueError"; "Exception"; "BaseException"; "object"]%string [Text message].

Definition ZeroDivisionError (message : string) : exn :=
  mk_exn ["ZeroDivisionError"; "ArithmeticError"; "Exception"; "BaseException"; "object"]%string
         [Text message].

Definition OverflowError (message : string) : exn :=
  mk_exn ["OverflowError"; "ArithmeticError"; "Exception"; "BaseException"; "object"]%string
         [Text message].

(** How a call ends: with a value or with a raised exception. *)
Inductive result (A : Type) := Return (a : A) | Raise (e : exn).
Arguments Return {A} a.
Arguments Raise {A} e.

(** *** Floats out of range

    A float is an exact rational here, but for the two events at the ends
    of the range that change what the code does: a power too large for a
    float raises [OverflowError], and a product too small for a float is
    [0.0].  A result rounds to infinity from [float_overflow] on, half an
    ulp above the largest float, and to [0.0] up to half of [float_tiny],
    the smallest positive float; [float_min_normal] is the smallest
    positive float at full precision, [sys.float_info.min]. *)

Definition float_overflow : Q := (2 ^ 1024 - 2 ^ 970)%Q.
Definition float_tiny : Q := (2 ^ (-1074))%Q.
Definition float_min_normal : Q := (2 ^ (-1022))%Q.

(** [x ** n] for a float [x] and an [int] [n].  [x ** 0] is [1.0] and
    [x ** 1] is [x], both floats; zero has no negative power; any other
    power raises when it is out of range. *)
Definition float_pow (x : Q) (n : Z) : result Q :=
  if (n =? 0) || (n =? 1) then Return (x ^ n)%Q
  else if (n <? 0) && Qeq_bool x 0 then
    Raise (ZeroDivisionError "0.0 cannot be raised to a negative power")
  else if Qleb float_overflow (Qabs (x ^ n)) then
    Raise (OverflowError "(34, 'Numerical result out of range')")
  else Return (x ^ n)%Q.

(** [x * y] where the product may be too small for a float. *)
Definition mul_underflow (x y : Q) : Q :=
  if Qleb (Qabs (x * y)) (float_tiny / 2) then 0%Q else (x * y)%Q.

(** *** The world outside the objects

    [clock] is what [time.time()] reads; [sleeps] lists the arguments of the
    [time.sleep] calls made so far, latest first; [rng] is the supply of
    [random.random()] draws and [draws] counts those consumed.  [op_state]
    is whatever the caller-supplied operation keeps between its invocations
    and [op_log] lists the outcomes of its invocations, latest first. *)

Record world (S A : Type) := mk_world {
  clock : Q;
  sleeps : list Q;
  rng : nat -> Q;
  draws : nat;
  op_state : S;
  op_log : list (result A)
}.
Arguments mk_world {S A}.
Arguments clock {S A}.
Arguments sleeps {S A}.
Arguments rng {S A}.
Arguments draws {S A}.
Arguments op_state {S A}.
Arguments op_log {S A}.

(** A caller-supplied operation: from its state and the time at which it
    starts to its outcome, its next state and the time it took. *)
Definition operation (S A : Type) : Type := S -> Q -> result A * S * Q.

(** One invocation of the operation. *)
Definition invoke {S A} (func : operation S A) (w : world S A) : result A * world S A :=
  let '(r, s', elapsed) := func (op_state w) (clock w) in
  (r, mk_world (clock w + elapsed)%Q (sleeps w) (rng w) (draws w) s' (r :: op_log w)).

(** [time.sleep(seconds)]: a negative argument raises [ValueError];
    otherwise the clock advances by the argument. *)
Definition sleep {S A} (seconds : Q) (w : world S A) : result unit * world S A :=
  if Qltb seconds 0 then
    (Raise (ValueError "sleep length must be non-negative"), w)
  else
    (Return tt,
     mk_world (clock w + seconds)%Q (seconds :: sleeps w) (rng w) (draws w)
              (op_state w) (op_log w)).

(** [random.uniform(a, b)], that is [a + (b - a) * random.random()]. *)
Definition uniform {S A} (a b : Q) (w : world S A) : Q * world S A :=
  ((a + (b - a) * rng w (draws w))%Q,
   mk_world (clock w) (sleeps w) (rng w) (Datatypes.S (draws w)) (op_state w) (op_log w)).

(** [deque(maxlen=n).append(x)]: the oldest entry is dropped when full. *)
Definition deque_append {X} (maxlen : nat) (q : list X) (x : X) : list X :=
  let q' := q ++ [x] in
  skipn (length q' - maxlen) q'.

(** [l.remove(x)] on a list that holds [x]: the first occurrence goes. *)
Fixpoint list_remove (x : string) (l : list string) : list string :=
  match l with
  | [] => []
  | y :: l' => if String.eqb x y then l' else y :: list_remove x l'
  end.

End Py.

(** ** [duplicate_detector.py]: class [DuplicateDetector] *)

Module DuplicateDetector.

Record t := mk {
  exact_hashes : gset string;
  perceptual_hashes : gmap string (list string);
  enable_perceptual_hashing : bool;
  duplicate_count : Z;
  total_checked : Z
}.

(** [__init__] *)
Definition init (enable_perceptual_hashing : bool) : t :=
  {| exact_hashes := ∅;
     perceptual_hashes := ∅;
     enable_perceptual_hashing := enable_perceptual_hashing;
     duplicate_count := 0;
     total_checked := 0 |}.

Definition set_exact_hashes (v : gset string) (self : t) : t :=
  mk v (perceptual_hashes self) (enable_perceptual_hashing self)
     (duplicate_count self) (total_checked self).

Definition set_perceptual_hashes (v : gmap string (list string)) (self : t) : t :=
  mk (exact_hashes self) v (enable_perceptual_hashing self)
     (duplicate_count self) (total_checked self).

Definition set_duplicate_count (v : Z) (self : t) : t :=
  mk (exact_hashes self) (perceptual_hashes self) (enable_perceptual_hashing self)
     v (total_checked self).

Definition set_total_checked (v : Z) (self : t) : t :=
  mk (exact_hashes self) (perceptual_hashes self) (enable_perceptual_hashing self)
     (duplicate_count self) v.

(** The value of [_hamming_distance]: an [int], or [float('inf')]. *)
Inductive distance := Finite (n : Z) | Infinite.

(** [distance <= similarity_threshold], the threshold being an [int]. *)
Definition distance_le (d : distance) (similarity_threshold : Z) : bool :=
  match d with
  | Finite n => n <=? similarity_threshold
  | Infinite => false
  end.

(** [_hamming_distance] *)
Definition _hamming_distance (hash1 hash2 : string) : distance :=
  if negb (Nat.eqb (String.length hash1) (String.length hash2)) then Infinite
  else
    match Py.int16 hash1 with
    | None => Infinite
    | Some int1 =>
        match Py.int16 hash2 with
        | None => Infinite
        | Some int2 =>
            let xor := Z.lxor int1 int2 in
            Finite (Py.bin_count_ones xor)
        end
    end.

(** [add_hash]; [self.perceptual_hashes] is a [defaultdict(list)], so a
    missing bucket is created empty before the [append]. *)
Definition add_hash (self : t) (exact_hash : string) (perceptual_hash : option string) : t :=
  let self := set_exact_hashes ({[exact_hash]} ∪ exact_hashes self) self in
  if enable_perceptual_hashing self && Py.truthy_str perceptual_hash then
    match perceptual_hash with
    | Some ph =>
        let bucket := default [] (perceptual_hashes self !! ph) in
        set_perceptual_hashes (<[ph := bucket ++ [exact_hash]]> (perceptual_hashes self)) self
    | None => self
    end
  else self.

(** The loop of [is_duplicate] over [self.perceptual_hashes.items()]:
    [true] as soon as one key is within the threshold. *)
Fixpoint scan_buckets (perceptual_hash : string) (similarity_threshold : Z)
    (items : list (string * list string)) : bool :=
  match items with
  | [] => false
  | (existing_phash, _) :: rest =>
      let distance := _hamming_distance perceptual_hash existing_phash in
      if distance_le distance similarity_threshold then true
      else scan_buckets perceptual_hash similarity_threshold rest
  end.

(** [is_duplicate] *)
Definition is_duplicate (self : t) (exact_hash : string)
    (perceptual_hash : option string) (similarity_threshold : Z) : bool * t :=
  let self := set_total_checked (total_checked self + 1) self in
  if bool_decide (exact_hash ∈ exact_hashes self) then
    (true, set_duplicate_count (duplicate_count self + 1) self)
  else if enable_perceptual_hashing self && Py.truthy_str perceptual_hash
          && negb (bool_decide (perceptual_hashes self = ∅)) then
    match perceptual_hash with
    | Some ph =>
        if scan_buckets ph similarity_threshold (map_to_list (perceptual_hashes self))
        then (true, set_duplicate_count (duplicate_count self + 1) self)
        else (false, self)
    | None => (false, self)
    end
  else (false, self).

(** [check_and_add] *)
Definition check_and_add (self : t) (exact_hash : string)
    (perceptual_hash : option string) (similarity_threshold : Z) : bool * t :=
  let '(dup, self) := is_duplicate self exact_hash perceptual_hash similarity_threshold in
  if dup then (true, self)
  else (false, add_hash self exact_hash perceptual_hash).

(** [clear] *)
Definition clear (self : t) : t :=
  set_perceptual_hashes ∅ (set_exact_hashes ∅ self).

(** The dictionary returned by [get_statistics]. *)
Record statistics := mk_statistics {
  total_unique_hashes : Z;
  total_perceptual_hashes : Z;
  stat_duplicate_count : Z;
  stat_total_checked : Z;
  duplicate_rate : Q
}.

(** [get_statistics] *)
Definition get_statistics (self : t) : statistics :=
  {| total_unique_hashes := Z.of_nat (size (exact_hashes self));
     total_perceptual_hashes := Z.of_nat (size (perceptual_hashes self));
     stat_duplicate_count := duplicate_count self;
     stat_total_checked := total_checked self;
     duplicate_rate :=
       if 0 <? total_checked self then
         Py.round2 (inject_Z (duplicate_count self) / inject_Z (total_checked self) * 100)
       else 0%Q |}.

(** The plain structure exchanged by [export_hashes] and [import_hashes];
    [import_hashes] reads each key with [data.get(key, default)], so a key
    may be missing. *)
Record exported := mk_exported {
  data_exact_hashes : option (list string);
  data_perceptual_hashes : option (gmap string (list string));
  data_statistics : option statistics
}.

(** [export_hashes] *)
Definition export_hashes (self : t) : exported :=
  {| data_exact_hashes := Some (elements (exact_hashes self));
     data_perceptual_hashes := Some (perceptual_hashes self);
     data_statistics := Some (get_statistics self) |}.

(** [import_hashes] *)
Definition import_hashes (self : t) (data : exported) : t :=
  let self := set_exact_hashes (list_to_set (default [] (data_exact_hashes data))) self in
  set_perceptual_hashes (default ∅ (data_perceptual_hashes data)) self.

(** A sequence of [check_and_add] calls, results dropped. *)
Definition run_checks (self : t) (calls : list (string * option string * Z)) : t :=
  fold_left (fun d '(h, ph, thr) => snd (check_and_add d h ph thr)) calls self.

(** One round of the loop of [remove_hash] over a snapshot of the buckets:
    the bucket loses the first occurrence of the hash, and an emptied bucket
    is deleted ([None]). *)
Definition remove_from_bucket (exact_hash : string) (hashes : list string)
  : option (list string) :=
  if bool_decide (exact_hash ∈ hashes) then
    match Py.list_remove exact_hash hashes with
    | [] => None
    | hashes' => Some hashes'
    end
  else Some hashes.

(** [remove_hash] *)
Definition remove_hash (self : t) (exact_hash : string) : bool * t :=
  if bool_decide (exact_hash ∈ exact_hashes self) then
    let self := set_exact_hashes (exact_hashes self ∖ {[exact_hash]}) self in
    let self :=
      if enable_perceptual_hashing self then
        set_perceptual_hashes
          (omap (remove_from_bucket exact_hash) (perceptual_hashes self)) self
      else self in
    (true, self)
  else (false, self).

(** The body of the loop of [find_duplicates_in_batch], on the pair of
    [duplicates] and [seen]. *)
Definition batch_step (acc : gmap string (list string) * gmap string string)
    (hash_val : string) : gmap string (list string) * gmap string string :=
  let '(duplicates, seen) := acc in
  match seen !! hash_val with
  | Some first =>
      (<[first := default [] (duplicates !! first) ++ [hash_val]]> duplicates, seen)
  | None => (duplicates, <[hash_val := hash_val]> seen)
  end.

(** [find_duplicates_in_batch] *)
Definition find_duplicates_in_batch (hashes : list string) : gmap string (list string) :=
  fst (fold_left batch_step hashes (∅, ∅)).

End DuplicateDetector.

(** ** [retry_handler.py]: class [RetryHandler] *)

Module RetryHandler.

Record t := mk {
  max_retries : Z;
  base_delay : Q;
  max_delay : Q;
  exponential_base : Q;
  jitter : bool;
  retryable_exceptions : option (list string);
  total_attempts : Z;
  total_retries : Z;
  total_failures : Z
}.

(** [__init__] *)
Definition init (max_retries : Z) (base_delay max_delay exponential_base : Q)
    (jitter : bool) (retryable_exceptions : option (list string)) : t :=
  {| max_retries := max_retries;
     base_delay := base_delay;
     max_delay := max_delay;
     exponential_base := exponential_base;
     jitter := jitter;
     retryable_exceptions := retryable_exceptions;
     total_attempts := 0;
     total_retries := 0;
     total_failures := 0 |}.

Definition set_total_attempts (v : Z) (self : t) : t :=
  mk (max_retries self) (base_delay self) (max_delay self) (exponential_base self)
     (jitter self) (retryable_exceptions self) v (total_retries self) (total_failures self).

Definition set_total_retries (v : Z) (self : t) : t :=
  mk (max_retries self) (base_delay self) (max_delay self) (exponential_base self)
     (jitter self) (retryable_exceptions self) (total_attempts self) v (total_failures self).

Definition set_total_failures (v : Z) (self : t) : t :=
  mk (max_retries self) (base_delay self) (max_delay self) (exponential_base self)
     (jitter self) (retryable_exceptions self) (total_attempts self) (total_retries self) v.

(** [_is_retryable] *)
Definition _is_retryable (self : t) (exception : Py.exn) : bool :=
  match retryable_exceptions self with
  | None => true
  | Some classes => Py.isinstance_any exception classes
  end.

(** [_calculate_delay]; the power is computed before [min] caps the delay,
    so it can raise whatever [max_delay] is. *)
Definition _calculate_delay {S A} (self : t) (attempt : Z) (w : Py.world S A)
  : Py.result Q * Py.world S A :=
  match Py.float_pow (exponential_base self) attempt with
  | Py.Raise err => (Py.Raise err, w)
  | Py.Return power =>
      let delay := Py.min (base_delay self * power)%Q (max_delay self) in
      let '(delay, w) :=
        if jitter self then
          let jitter_range := (delay * (1 # 4))%Q in
          let '(u, w) := Py.uniform (- jitter_range)%Q jitter_range w in
          ((delay + u)%Q, w)
        else (delay, w) in
      (Py.Return (Py.max 0%Q delay), w)
  end.

(** [raise last_exception]: raising [None] is a [TypeError]. *)
Definition raise_last {A} (last_exception : option Py.exn) : Py.result A :=
  match last_exception with
  | Some e => Py.Raise e
  | None => Py.Raise (Py.TypeError "exceptions must derive from BaseException")
  end.

(** The [for attempt in range(self.max_retries)] loop of
    [execute_with_retry], entered with [remaining] iterations left, followed
    by the final [raise last_exception]. *)
Fixpoint retry_loop {S A} (remaining : nat) (attempt : Z) (self : t)
    (func : Py.operation S A) (w : Py.world S A) (last_exception : option Py.exn)
  : Py.result A * t * Py.world S A :=
  match remaining with
  | O => (raise_last last_exception, self, w)
  | Datatypes.S remaining' =>
      let self := set_total_attempts (total_attempts self + 1) self in
      let '(outcome, w) := Py.invoke func w in
      match outcome with
      | Py.Return result => (Py.Return result, self, w)
      | Py.Raise e =>
          if negb (Py.isinstance e "Exception") then
            (* not caught by [except Exception] *)
            (Py.Raise e, self, w)
          else
            let last_exception := Some e in
            if negb (_is_retryable self e) then (Py.Raise e, self, w)
            else if attempt >=? max_retries self - 1 then
              let self := set_total_failures (total_failures self + 1) self in
              (raise_last last_exception, self, w)
            else
              let self := set_total_retries (total_retries self + 1) self in
              match _calculate_delay self attempt w with
              | (Py.Raise err, w) =>
                  (* raised inside the [except] block: it leaves the loop *)
                  (Py.Raise err, self, w)
              | (Py.Return delay, w) =>
                  match Py.sleep delay w with
                  | (Py.Raise err, w) => (Py.Raise err, self, w)
                  | (Py.Return _, w) =>
                      retry_loop remaining' (attempt + 1) self func w last_exception
                  end
              end
      end
  end.

(** [execute_with_retry] *)
Definition execute_with_retry {S A} (self : t) (func : Py.operation S A)
    (w : Py.world S A) : Py.result A * t * Py.world S A :=
  retry_loop (Z.to_nat (max_retries self)) 0 self func w None.

(** The dictionary returned by [get_statistics]. *)
Record statistics := mk_statistics {
  stat_total_attempts : Z;
  stat_total_retries : Z;
  stat_total_failures : Z;
  success_rate : Q;
  average_retries_per_call : Q
}.

(** [get_statistics] *)
Definition get_statistics (self : t) : statistics :=
  let success_rate :=
    if 0 <? total_attempts self then
      (inject_Z (total_attempts self - total_failures self)
       / inject_Z (total_attempts self) * 100)%Q
    else 0%Q in
  {| stat_total_attempts := total_attempts self;
     stat_total_retries := total_retries self;
     stat_total_failures := total_failures self;
     success_rate := Py.round2 success_rate;
     average_retries_per_call :=
       if 0 <? total_attempts self - total_retries self then
         Py.round2 (inject_Z (total_retries self)
                    / inject_Z (total_attempts self - total_retries self))%Q
       else 0%Q |}.

(** [reset_statistics] *)
Definition reset_statistics (self : t) : t :=
  set_total_failures 0 (set_total_retries 0 (set_total_attempts 0 self)).

(** The wrapper that the decorator [retry_with_backoff] puts around a
    function: every call builds a handler of its own and drops it. *)
Definition retry_with_backoff {S A} (max_retries : Z)
    (base_delay max_delay exponential_base : Q) (jitter : bool)
    (retryable_exceptions : option (list string))
    (func : Py.operation S A) (w : Py.world S A) : Py.result A * Py.world S A :=
  let handler :=
    init max_retries base_delay max_delay exponential_base jitter retryable_exceptions in
  let '(outcome, _, w) := execute_with_retry handler func w in
  (outcome, w).

End RetryHandler.

(** ** [retry_handler.py]: class [CircuitBreaker] *)

Module CircuitBreaker.

(** The three values that [self.state] takes. *)
Inductive state_name := CLOSED | OPEN | HALF_OPEN.

Record t := mk {
  failure_threshold : Z;
  recovery_timeout : Q;
  expected_exception : string;
  failure_count : Z;
  last_failure_time : option Q;
  state : state_name
}.

(** [__init__] *)
Definition init (failure_threshold : Z) (recovery_timeout : Q)
    (expected_exception : string) : t :=
  {| failure_threshold := failure_threshold;
     recovery_timeout := recovery_timeout;
     expected_exception := expected_exception;
     failure_count := 0;
     last_failure_time := None;
     state := CLOSED |}.

Definition set_state (v : state_name) (self : t) : t :=
  mk (failure_threshold self) (recovery_timeout self) (expected_exception self)
     (failure_count self) (last_failure_time self) v.

Definition set_failure_count (v : Z) (self : t) : t :=
  mk (failure_threshold self) (recovery_timeout self) (expected_exception self)
     v (last_failure_time self) (state self).

Definition set_last_failure_time (v : option Q) (self : t) : t :=
  mk (failure_threshold self) (recovery_timeout self) (expected_exception self)
     (failure_count self) v (state self).

(** [_record_failure] *)
Definition _record_failure {S A} (self : t) (w : Py.world S A) : t :=
  let self := set_failure_count (failure_count self + 1) self in
  let self := set_last_failure_time (Some (Py.clock w)) self in
  if failure_count self >=? failure_threshold self then set_state OPEN self
  else self.

(** [_should_attempt_reset] *)
Definition _should_attempt_reset {S A} (self : t) (w : Py.world S A) : bool :=
  match last_failure_time self with
  | None => false
  | Some last => Py.Qleb (recovery_timeout self) (Py.clock w - last)%Q
  end.

(** [_reset] *)
Definition _reset (self : t) : t :=
  set_last_failure_time None (set_state CLOSED (set_failure_count 0 self)).

(** The exception raised while the circuit is open. *)
Definition circuit_open (self : t) : Py.exn :=
  Py.Exception [Py.Text "Circuit breaker is OPEN. Service unavailable. Retry after ";
                Py.Float (recovery_timeout self); Py.Text "s"].

(** The first statement of [call]: an open circuit either lets the call
    through as [HALF_OPEN] or rejects it. *)
Definition admission {S A} (self : t) (w : Py.world S A) : Py.exn + t :=
  match state self with
  | OPEN =>
      if _should_attempt_reset self w then inr (set_state HALF_OPEN self)
      else inl (circuit_open self)
  | _ => inr self
  end.

(** [call] *)
Definition call {S A} (self : t) (func : Py.operation S A) (w : Py.world S A)
  : Py.result A * t * Py.world S A :=
  match admission self w with
  | inl e => (Py.Raise e, self, w)
  | inr self =>
      let '(outcome, w) := Py.invoke func w in
      match outcome with
      | Py.Return result =>
          let self :=
            match state self with
            | HALF_OPEN => _reset self
            | _ => self
            end in
          (Py.Return result, self, w)
      | Py.Raise e =>
          if Py.isinstance e (expected_exception self) then
            (Py.Raise e, _record_failure self w, w)
          else (Py.Raise e, self, w)
      end
  end.

End CircuitBreaker.

(** ** [rate_limiter.py]: class [RateLimiter] *)

Module RateLimiter.

(** [tokens] and [last_refill_time] do not exist until the first call of
    [wait_with_token_bucket] creates them together: [bucket] is [None] until
    then and holds the pair afterwards. *)
Record t := mk {
  requests_per_second : Q;
  min_interval : Q;
  base_delay : Q;
  burst_size : Z;
  last_request_time : Q;
  request_times : list Q;
  total_requests : Z;
  total_wait_time : Q;
  bucket : option (Q * Q)
}.

(** [__init__]; [1.0 / requests_per_second] raises on a zero rate, and
    [burst_size or 1] replaces [None] and [0] by [1]. *)
Definition init (requests_per_second base_delay : Q) (burst_size : option Z)
  : Py.result t :=
  if Qeq_bool requests_per_second 0 then
    Py.Raise (Py.ZeroDivisionError "float division by zero")
  else
    Py.Return
      {| requests_per_second := requests_per_second;
         min_interval := (1 / requests_per_second)%Q;
         base_delay := base_delay;
         burst_size :=
           match burst_size with
           | Some b => if b =? 0 then 1 else b
           | None => 1
           end;
         last_request_time := 0%Q;
         request_times := [];
         total_requests := 0;
         total_wait_time := 0%Q;
         bucket := None |}.

Definition set_rate (rate : Q) (self : t) : t :=
  mk rate (min_interval self) (base_delay self) (burst_size self)
     (last_request_time self) (request_times self) (total_requests self)
     (total_wait_time self) (bucket self).

Definition set_min_interval (v : Q) (self : t) : t :=
  mk (requests_per_second self) v (base_delay self) (burst_size self)
     (last_request_time self) (request_times self) (total_requests self)
     (total_wait_time self) (bucket self).

Definition set_bucket (tokens last_refill_time : Q) (self : t) : t :=
  mk (requests_per_second self) (min_interval self) (base_delay self) (burst_size self)
     (last_request_time self) (request_times self) (total_requests self)
     (total_wait_time self) (Some (tokens, last_refill_time)).

(** The tracking update that ends [wait_with_token_bucket]. *)
Definition track {S A} (waited : Q) (self : t) (w : Py.world S A) : t :=
  mk (requests_per_second self) (min_interval self) (base_delay self) (burst_size self)
     (last_request_time self)
     (Py.deque_append 100 (request_times self) (Py.clock w))
     (total_requests self + 1)
     (total_wait_time self + waited)%Q
     (bucket self).

(** [wait_with_token_bucket].  The refill is exact here and rounded in the
    code, which differs only where the exact refill ends on the very edge
    of a whole token; between calls with no time in between both add
    nothing. *)
Definition wait_with_token_bucket {S A} (self : t) (w : Py.world S A)
  : Py.result Q * t * Py.world S A :=
  let current_time := Py.clock w in
  (* initialise the bucket on the first call *)
  let '(tokens, last_refill_time) :=
    match bucket self with
    | Some b => b
    | None => (inject_Z (burst_size self), current_time)
    end in
  (* refill *)
  let time_passed := (current_time - last_refill_time)%Q in
  let tokens_to_add := (time_passed * requests_per_second self)%Q in
  let tokens := Py.min (inject_Z (burst_size self)) (tokens + tokens_to_add)%Q in
  let last_refill_time := current_time in
  if Py.Qleb 1 tokens then
    let tokens := (tokens - 1)%Q in
    let self := set_bucket tokens last_refill_time self in
    if Py.Qltb 0 (base_delay self) then
      match Py.sleep (base_delay self) w with
      | (Py.Raise err, w) => (Py.Raise err, self, w)
      | (Py.Return _, w) => (Py.Return (base_delay self), track (base_delay self) self w, w)
      end
    else (Py.Return 0%Q, track 0%Q self w, w)
  else
    let self := set_bucket tokens last_refill_time self in
    if Qeq_bool (requests_per_second self) 0 then
      (Py.Raise (Py.ZeroDivisionError "float division by zero"), self, w)
    else
      let wait_time := ((1 - tokens) / requests_per_second self)%Q in
      let wait_time := (wait_time + base_delay self)%Q in
      match Py.sleep wait_time w with
      | (Py.Raise err, w) => (Py.Raise err, self, w)
      | (Py.Return _, w) =>
          let self := set_bucket 0%Q (Py.clock w) self in
          (Py.Return wait_time, track wait_time self w, w)
      end.

(** [n] calls of [wait_with_token_bucket], one straight after the other. *)
Fixpoint burst {S A} (n : nat) (self : t) (w : Py.world S A)
  : list (Py.result Q) * t * Py.world S A :=
  match n with
  | O => ([], self, w)
  | Datatypes.S n' =>
      let '(r, self, w) := wait_with_token_bucket self w in
      let '(rs, self, w) := burst n' self w in
      (r :: rs, self, w)
  end.

(** [wait] *)
Definition wait {S A} (self : t) (w : Py.world S A)
  : Py.result Q * t * Py.world S A :=
  let current_time := Py.clock w in
  let time_since_last := (current_time - last_request_time self)%Q in
  let wait_time :=
    (Py.max 0 (min_interval self - time_since_last) + base_delay self)%Q in
  let finish (waited : Q) (w : Py.world S A) :=
    (Py.Return waited,
     mk (requests_per_second self) (min_interval self) (base_delay self)
        (burst_size self)
        (Py.clock w)
        (Py.deque_append 100 (request_times self) (Py.clock w))
        (total_requests self + 1)
        (total_wait_time self + waited)%Q
        (bucket self),
     w) in
  if Py.Qltb 0 wait_time then
    match Py.sleep wait_time w with
    | (Py.Raise err, w) => (Py.Raise err, self, w)
    | (Py.Return _, w) => finish wait_time w
    end
  else finish 0%Q w.



End RateLimiter.

(** ** [rate_limiter.py]: class [AdaptiveRateLimiter] *)

Module AdaptiveRateLimiter.

(** The subclass adds its fields to those of [RateLimiter]. *)
Record t := mk {
  base : RateLimiter.t;
  initial_rate : Q;
  min_rate : Q;
  max_rate : Q;
  success_count : Z;
  error_count : Z;
  last_response_times : list Q
}.

Definition requests_per_second (self : t) : Q :=
  RateLimiter.requests_per_second (base self).

(** [__init__] *)
Definition init (initial_rate min_rate max_rate base_delay : Q)
    (burst_size : option Z) : Py.result t :=
  match RateLimiter.init initial_rate base_delay burst_size with
  | Py.Raise e => Py.Raise e
  | Py.Return b =>
      Py.Return
        {| base := b;
           initial_rate := initial_rate;
           min_rate := min_rate;
           max_rate := max_rate;
           success_count := 0;
           error_count := 0;
           last_response_times := [] |}
  end.

Definition set_base (v : RateLimiter.t) (self : t) : t :=
  mk v (initial_rate self) (min_rate self) (max_rate self)
     (success_count self) (error_count self) (last_response_times self).

Definition set_success_count (v : Z) (self : t) : t :=
  mk (base self) (initial_rate self) (min_rate self) (max_rate self)
     v (error_count self) (last_response_times self).

Definition set_error_count (v : Z) (self : t) : t :=
  mk (base self) (initial_rate self) (min_rate self) (max_rate self)
     (success_count self) v (last_response_times self).

Definition set_last_response_times (v : list Q) (self : t) : t :=
  mk (base self) (initial_rate self) (min_rate self) (max_rate self)
     (success_count self) (error_count self) v.

(** The two assignments shared by [_increase_rate] and [_decrease_rate]:
    the new rate is stored first, then [1.0 / rate] raises if it is zero. *)
Definition store_rate (rate : Q) (self : t) : Py.result unit * t :=
  let self := set_base (RateLimiter.set_rate rate (base self)) self in
  if Qeq_bool rate 0 then
    (Py.Raise (Py.ZeroDivisionError "float division by zero"), self)
  else
    (Py.Return tt,
     set_base (RateLimiter.set_min_interval (1 / rate)%Q (base self)) self).

(** [_increase_rate], with its default factor 1.2; the product is larger
    than the rate and cannot underflow. *)
Definition _increase_rate (self : t) : Py.result unit * t :=
  let old_rate := requests_per_second self in
  store_rate (Py.min (max_rate self) (old_rate * (6 # 5))%Q) self.

(** [_decrease_rate]; the product can underflow to [0.0], and then only a
    positive [min_rate] keeps the new rate from being zero. *)
Definition _decrease_rate (self : t) (factor : Q) : Py.result unit * t :=
  let old_rate := requests_per_second self in
  store_rate (Py.max (min_rate self) (Py.mul_underflow old_rate factor)) self.

Definition sum (l : list Q) : Q := fold_left Qplus l 0%Q.

(** [_is_fast] *)
Definition _is_fast (self : t) : bool :=
  if (length (last_response_times self) <? 5)%nat then false
  else
    let avg_time :=
      (sum (last_response_times self)
       / inject_Z (Z.of_nat (length (last_response_times self))))%Q in
    Py.Qltb avg_time 1.

(** [on_success]; a [response_time] of [None] or [0.0] is not recorded. *)
Definition on_success (self : t) (response_time : option Q) : Py.result unit * t :=
  let self := set_success_count (success_count self + 1) self in
  let self := set_error_count (Z.max 0 (error_count self - 1)) self in
  let self :=
    match response_time with
    | Some x =>
        if Qeq_bool x 0 then self
        else set_last_response_times
               (Py.deque_append 10 (last_response_times self) x) self
    | None => self
    end in
  if (success_count self >=? 10) && _is_fast self then
    match _increase_rate self with
    | (Py.Raise e, self) => (Py.Raise e, self)
    | (Py.Return _, self) => (Py.Return tt, set_success_count 0 self)
    end
  else (Py.Return tt, self).

(** [on_error] *)
Definition on_error (self : t) (is_rate_limit : bool) : Py.result unit * t :=
  let self := set_error_count (error_count self + 1) self in
  let self := set_success_count 0 self in
  if is_rate_limit then _decrease_rate self (1 # 2)
  else if error_count self >=? 3 then
    match _decrease_rate self (4 # 5) with
    | (Py.Raise e, self) => (Py.Raise e, self)
    | (Py.Return _, self) => (Py.Return tt, set_error_count 0 self)
    end
  else (Py.Return tt, self).

End AdaptiveRateLimiter.

(** ** [base_scraper.py]: class [BaseScraper]

    The part of the scraper that combines the rate limiter and the retry
    handler: [__init__], [fetch_page] and [download_image].  What the two
    closures do after the wait, from [_make_absolute_url] through
    [session.get] and [raise_for_status] to the parsed page or the image
    bytes, is the caller-supplied [request], an operation on the state of
    the session. *)

Module BaseScraper.

(** [class ScraperError(Exception)] *)
Definition ScraperError (message : list Py.fragment) : Py.exn :=
  Py.mk_exn ["ScraperError"; "Exception"; "BaseException"; "object"]%string message.

Record t := mk {
  rate_limiter : RateLimiter.t;
  retry_handler : RetryHandler.t
}.

(** [__init__]: [RateLimiter(requests_per_second=requests_per_second)] and
    [RetryHandler(max_retries=max_retries)], the other arguments at their
    defaults. *)
Definition init (requests_per_second : Q) (max_retries : Z) : Py.result t :=
  match RateLimiter.init requests_per_second 0 None with
  | Py.Raise e => Py.Raise e
  | Py.Return limiter =>
      Py.Return
        {| rate_limiter := limiter;
           retry_handler := RetryHandler.init max_retries 1 60 2 true None |}
  end.

(** The closure [_fetch]: [self.rate_limiter.wait()], then the request.
    The closure shares the limiter with the scraper, so the limiter is part
    of the state of the operation; the time spent in [wait] is part of the
    time the operation takes, and its sleep is not listed among the sleeps
    of the retry handler. *)
Definition _fetch {N A} (request : Py.operation N A)
    : Py.operation (RateLimiter.t * N) A :=
  λ state start,
    let '(limiter, session) := state in
    let '(waited, limiter, w) :=
      RateLimiter.wait limiter
        (Py.mk_world start [] (λ _, 0%Q) 0%nat session ([] : list (Py.result A))) in
    match waited with
    | Py.Raise e => (Py.Raise e, (limiter, session), (Py.clock w - start)%Q)
    | Py.Return _ =>
        let '(outcome, session, elapsed) := request session (Py.clock w) in
        (outcome, (limiter, session), (Py.clock w - start + elapsed)%Q)
    end.

(** The closure [_download] differs from [_fetch] in the request only. *)
Definition _download {N A} (request : Py.operation N A)
    : Py.operation (RateLimiter.t * N) A :=
  _fetch request.

(** [try: return self.retry_handler.execute_with_retry(closure)] with its
    [except Exception as e: raise ScraperError(f"...{e}") from e]; the
    message of the new exception is the prefix followed by [str(e)], and
    the cause it carries is left out. *)
Definition guarded_run {N A} (prefix : string) (self : t)
    (closure : Py.operation (RateLimiter.t * N) A) (w : Py.world N A)
    : Py.result A * t * Py.world N A :=
  let w :=
    Py.mk_world (Py.clock w) (Py.sleeps w) (Py.rng w) (Py.draws w)
                (rate_limiter self, Py.op_state w) (Py.op_log w) in
  let '(outcome, handler, w) :=
    RetryHandler.execute_with_retry (retry_handler self) closure w in
  let self := mk (fst (Py.op_state w)) handler in
  let w :=
    Py.mk_world (Py.clock w) (Py.sleeps w) (Py.rng w) (Py.draws w)
                (snd (Py.op_state w)) (Py.op_log w) in
  match outcome with
  | Py.Return page => (Py.Return page, self, w)
  | Py.Raise e =>
      if Py.isinstance e "Exception" then
        (Py.Raise (ScraperError (Py.Text prefix :: Py.exn_message e)), self, w)
      else (Py.Raise e, self, w)
  end.

(** [fetch_page] *)
Definition fetch_page {N A} (self : t) (request : Py.operation N A)
    (w : Py.world N A) : Py.result A * t * Py.world N A :=
  guarded_run "Failed to fetch page: " self (_fetch request) w.

(** [download_image] *)
Definition download_image {N A} (self : t) (request : Py.operation N A)
    (w : Py.world N A) : Py.result A * t * Py.world N A :=
  guarded_run "Failed to download image: " self (_download request) w.

End BaseScraper.

(** * Vocabulary of the properties *)

(** ** Duplicate detector *)

(** The near-duplicate verdict in the words of the specification:
    perceptual hashing is enabled, a perceptual hash is supplied, and some
    stored bucket key lies within the threshold of it. *)
Definition near_duplicate (d : DuplicateDetector.t) (ph : option string) (thr : Z) : Prop :=
  DuplicateDetector.enable_perceptual_hashing d = true ∧
  ∃ p key, ph = Some p ∧ p ≠ ""%string ∧
           is_Some (DuplicateDetector.perceptual_hashes d !! key) ∧
           DuplicateDetector.distance_le
             (DuplicateDetector._hamming_distance p key) thr = true.

(** The number of positions below [w] at which the bit of [n] is set. *)
Fixpoint set_bits (n : Z) (w : nat) : Z :=
  match w with
  | O => 0
  | Datatypes.S w' => (if Z.testbit n (Z.of_nat w') then 1 else 0) + set_bits n w'
  end.

(** The Hamming distance of two [w]-bit numerals: the number of positions
    below [w] at which [a] and [b] differ. *)
Fixpoint differing_bits (a b : Z) (w : nat) : Z :=
  match w with
  | O => 0
  | Datatypes.S w' =>
      (if xorb (Z.testbit a (Z.of_nat w')) (Z.testbit b (Z.of_nat w')) then 1 else 0)
      + differing_bits a b w'
  end.

(** The detector after the same hash went through [check_and_add] three
    times, starting from a new detector. *)
Definition one_unique_two_repeats (enable : bool) (h : string)
    (ph1 ph2 ph3 : option string) (thr1 thr2 thr3 : Z) : DuplicateDetector.t :=
  DuplicateDetector.run_checks (DuplicateDetector.init enable)
    [(h, ph1, thr1); (h, ph2, thr2); (h, ph3, thr3)].

(** A detector with one stored entry. *)
Definition one_entry : DuplicateDetector.t :=
  DuplicateDetector.add_hash (DuplicateDetector.init true) "c4ca4238" (Some "ff00").

(** ** Operations handed to the retry handler and the circuit breaker *)



(** A failure that [execute_with_retry] retries: caught by
    [except Exception] and accepted by [_is_retryable]. *)
Definition retryable_failure (self : RetryHandler.t) (e : Py.exn) : Prop :=
  Py.isinstance e "Exception" = true ∧ RetryHandler._is_retryable self e = true.

(** The operation fails with a retryable failure on every invocation, in
    whatever state and at whatever time it is started. *)
Definition always_fails {S A} (self : RetryHandler.t) (func : Py.operation S A) : Prop :=
  ∀ s start, ∃ e s' elapsed,
    func s start = (Py.Raise e, s', elapsed) ∧ retryable_failure self e.

(** Every back-off delay that a run of the handler can ask for is in
    range: [exponential_base ** attempt] is a float for every attempt but
    the last, after which there is no delay. *)
Definition backoff_in_range (self : RetryHandler.t) : Prop :=
  ∀ attempt, 0 ≤ attempt < RetryHandler.max_retries self - 1 →
    Py.float_pow (RetryHandler.exponential_base self) attempt
      = Py.Return (RetryHandler.exponential_base self ^ attempt)%Q.

Definition is_raise {A} (r : Py.result A) : Prop :=
  match r with Py.Raise _ => True | Py.Return _ => False end.

(** An operation that fails [failures] times and returns 42 from then on;
    its state counts its invocations, each of which takes one second. *)
Definition flaky (failures : nat) : Py.operation nat Z :=
  λ invoked _,
    (if (invoked <? failures)%nat then Py.Raise (Py.ValueError "boom")
     else Py.Return 42,
     Datatypes.S invoked, 1%Q).

(** An operation that always fails. *)
Definition broken : Py.operation nat Z :=
  λ invoked _, (Py.Raise (Py.ValueError "boom"), Datatypes.S invoked, 1%Q).

(** A world at time [now] in which the operation has run [invoked] times. *)
Definition world_at (now : Q) (invoked : nat) : Py.world nat Z :=
  Py.mk_world now [] (λ _, 1 # 2)%Q 0 invoked [].

(** ** Rate limiters *)

(** The rate is positive and within the configured bounds. *)
Definition rate_in_bounds (self : AdaptiveRateLimiter.t) : Prop :=
  (0 < AdaptiveRateLimiter.requests_per_second self)%Q ∧
  (AdaptiveRateLimiter.min_rate self <= AdaptiveRateLimiter.requests_per_second self)%Q ∧
  (AdaptiveRateLimiter.requests_per_second self <= AdaptiveRateLimiter.max_rate self)%Q.

(** [min_rate] is a positive float at full precision.  The rate never
    falls below it, so the rate cannot underflow to [0.0] and its inverse is
    in range. *)
Definition positive_floor (self : AdaptiveRateLimiter.t) : Prop :=
  (Py.float_min_normal <= AdaptiveRateLimiter.min_rate self)%Q.

(** The bucket holds [c] tokens as of the current time: either it was
    refilled to [c] at this time, or it does not exist yet and [c] is the
    burst size it will be created with. *)
Definition holds_tokens {S A} (self : RateLimiter.t) (w : Py.world S A) (c : Q) : Prop :=
  match RateLimiter.bucket self with
  | Some (tokens, last_refill_time) =>
      (tokens == c)%Q ∧ (last_refill_time == Py.clock w)%Q
  | None => (inject_Z (RateLimiter.burst_size self) == c)%Q
  end.

(** What a call of [wait_with_token_bucket] never changes. *)
Definition same_config (self self' : RateLimiter.t) : Prop :=
  RateLimiter.requests_per_second self' = RateLimiter.requests_per_second self ∧
  RateLimiter.base_delay self' = RateLimiter.base_delay self ∧
  RateLimiter.burst_size self' = RateLimiter.burst_size self.

(** ** Runs of the duplicate detector *)

(** The calls that change a detector. *)
Inductive detector_op :=
  | CheckAndAdd (h : string) (ph : option string) (thr : Z)
  | RemoveHash (h : string)
  | Clear.

Definition apply_op (d : DuplicateDetector.t) (op : detector_op) : DuplicateDetector.t :=
  match op with
  | CheckAndAdd h ph thr => snd (DuplicateDetector.check_and_add d h ph thr)
  | RemoveHash h => snd (DuplicateDetector.remove_hash d h)
  | Clear => DuplicateDetector.clear d
  end.

Definition run_ops (d : DuplicateDetector.t) (ops : list detector_op) : DuplicateDetector.t :=
  fold_left apply_op ops d.

(** The buckets are in step with the exact hashes: there are none while
    perceptual hashing is off, and each one is non-empty, free of
    repetitions and made of stored exact hashes. *)
Definition well_formed (d : DuplicateDetector.t) : Prop :=
  (DuplicateDetector.enable_perceptual_hashing d = false →
   DuplicateDetector.perceptual_hashes d = ∅) ∧
  ∀ key bucket,
    DuplicateDetector.perceptual_hashes d !! key = Some bucket →
    bucket ≠ [] ∧ NoDup bucket ∧
    ∀ x, x ∈ bucket → x ∈ DuplicateDetector.exact_hashes d.

(** Two detectors hold the same hashes and have the same perceptual switch;
    their counters may differ. *)
Definition same_collections (d1 d2 : DuplicateDetector.t) : Prop :=
  DuplicateDetector.exact_hashes d1 = DuplicateDetector.exact_hashes d2 ∧
  DuplicateDetector.perceptual_hashes d1 = DuplicateDetector.perceptual_hashes d2 ∧
  DuplicateDetector.enable_perceptual_hashing d1
    = DuplicateDetector.enable_perceptual_hashing d2.

(** How often [k] occurs in [l]. *)
Definition occurrences (k : string) (l : list string) : nat :=
  length (filter (λ x, x = k) l).

(** ** Runs of the retry handler *)

(** The policy of a handler, as opposed to its counters. *)
Definition same_policy (self self' : RetryHandler.t) : Prop :=
  RetryHandler.max_retries self' = RetryHandler.max_retries self ∧
  RetryHandler.base_delay self' = RetryHandler.base_delay self ∧
  RetryHandler.max_delay self' = RetryHandler.max_delay self ∧
  RetryHandler.exponential_base self' = RetryHandler.exponential_base self ∧
  RetryHandler.jitter self' = RetryHandler.jitter self ∧
  RetryHandler.retryable_exceptions self' = RetryHandler.retryable_exceptions self.



(** The exception of a power that is out of range. *)
Definition out_of_range : Py.exn :=
  Py.OverflowError "(34, 'Numerical result out of range')".

(** The back-off delay of an attempt before the jitter, when its power is
    in range. *)
Definition raw_delay (self : RetryHandler.t) (attempt : Z) : Q :=
  Py.min (RetryHandler.base_delay self * RetryHandler.exponential_base self ^ attempt)%Q
         (RetryHandler.max_delay self).

(** ** Runs of the circuit breaker *)

(** Several calls on one breaker, each with its own operation and started in
    its own world; the results are dropped. *)
Definition calls {S A} (cb : CircuitBreaker.t)
    (steps : list (Py.operation S A * Py.world S A)) : CircuitBreaker.t :=
  fold_left (λ cb '(func, w), snd (fst (CircuitBreaker.call cb func w))) steps cb.

(** The fields of a breaker fit its state: a closed breaker has counted
    fewer failures than its threshold; an open or half-open one has reached
    the threshold and remembers when it last failed. *)
Definition breaker_consistent (cb : CircuitBreaker.t) : Prop :=
  0 ≤ CircuitBreaker.failure_count cb ∧
  match CircuitBreaker.state cb with
  | CircuitBreaker.CLOSED =>
      CircuitBreaker.failure_count cb < CircuitBreaker.failure_threshold cb
  | _ =>
      CircuitBreaker.failure_threshold cb ≤ CircuitBreaker.failure_count cb ∧
      is_Some (CircuitBreaker.last_failure_time cb)
  end.

(** The operation, invoked in this world, fails with the class [expected]. *)
Definition fails_as {S A} (expected : string)
    (step : Py.operation S A * Py.world S A) : bool :=
  match fst (Py.invoke (fst step) (snd step)) with
  | Py.Raise e => Py.isinstance e expected
  | Py.Return _ => false
  end.

(** How many of the steps fail with the class [expected]. *)
Definition expected_failures {S A} (expected : string)
    (steps : list (Py.operation S A * Py.world S A)) : nat :=
  length (filter (λ step, fails_as expected step = true) steps).

(** ** Runs of the rate limiter *)





(** ** Runs of the adaptive limiter *)

(** What a caller reports after a request: [on_success(response_time)] or
    [on_error(is_rate_limit)]. *)
Inductive feedback :=
  | Succeeded (response_time : option Q)
  | Failed (is_rate_limit : bool).

Definition report (self : AdaptiveRateLimiter.t) (f : feedback)
    : Py.result unit * AdaptiveRateLimiter.t :=
  match f with
  | Succeeded response_time => AdaptiveRateLimiter.on_success self response_time
  | Failed is_rate_limit => AdaptiveRateLimiter.on_error self is_rate_limit
  end.

(** Several reports in a row on one limiter, with the outcome of each. *)
Fixpoint reports (self : AdaptiveRateLimiter.t) (fs : list feedback)
    : list (Py.result unit) * AdaptiveRateLimiter.t :=
  match fs with
  | [] => ([], self)
  | f :: fs' =>
      let '(r, self) := report self f in
      let '(rs, self) := reports self fs' in
      (r :: rs, self)
  end.

(** The fields of an adaptive limiter fit together: the rate is positive and
    within the bounds [lo] and [hi] it was built with, the interval is the
    inverse of the rate, the counters are not negative and at most ten
    response times are kept. *)
Definition adaptive_sound (lo hi : Q) (self : AdaptiveRateLimiter.t) : Prop :=
  rate_in_bounds self ∧
  AdaptiveRateLimiter.min_rate self = lo ∧ AdaptiveRateLimiter.max_rate self = hi ∧
  RateLimiter.min_interval (AdaptiveRateLimiter.base self)
    = (1 / AdaptiveRateLimiter.requests_per_second self)%Q ∧
  0 ≤ AdaptiveRateLimiter.success_count self ∧
  0 ≤ AdaptiveRateLimiter.error_count self ∧
  (length (AdaptiveRateLimiter.last_response_times self) ≤ 10)%nat.

(** A success reported without a usable response time: [None], or [0.0],
    which the truth test of [on_success] treats alike. *)
Definition unmeasured (response_time : option Q) : Prop :=
  match response_time with
  | None => True
  | Some x => (x == 0)%Q
  end.

(** ** Runs of the scraper *)

(** What a scraper is asked for: a page or an image, by a request. *)
Inductive scraper_call (N A : Type) :=
  | FetchPage (request : Py.operation N A)
  | DownloadImage (request : Py.operation N A).
Arguments FetchPage {N A} request.
Arguments DownloadImage {N A} request.

Definition scraper_step {N A} (self : BaseScraper.t)
    (step : scraper_call N A * Py.world N A) : Py.result A * BaseScraper.t * Py.world N A :=
  match fst step with
  | FetchPage request => BaseScraper.fetch_page self request (snd step)
  | DownloadImage request => BaseScraper.download_image self request (snd step)
  end.



(** ** Objects of the concrete runs *)

(** An operation interrupted from the keyboard on every invocation:
    [KeyboardInterrupt] derives from [BaseException], not from
    [Exception]. *)
Definition interrupted : Py.operation nat Z :=
  λ invoked _,
    (Py.Raise (Py.mk_exn ["KeyboardInterrupt"; "BaseException"; "object"]%string []),
     Datatypes.S invoked, 1%Q).

(** A rate limiter at 2 requests per second with burst size 3 whose bucket
    was found empty at time 0. *)
Definition drained : RateLimiter.t :=
  RateLimiter.mk 2 (1 # 2) 0 3 0 [] 7 0 (Some (0%Q, 0%Q)).

(** A new adaptive limiter at 1 request per second, bounded by 0.1 and 5. *)
Definition adaptive : AdaptiveRateLimiter.t :=
  AdaptiveRateLimiter.mk (RateLimiter.mk 1 1 0 1 0 [] 0 0 None) 1 (1 # 10) 5 0 0 [].

(** A circuit breaker that opened at time 2 after three failures. *)
Definition tripped : CircuitBreaker.t :=
  CircuitBreaker.mk 3 60 "Exception" 3 (Some 2%Q) CircuitBreaker.OPEN.

(** * Properties *)

Section FloatComparisons.

Lemma Qleb_false_iff (x y : Q) : Py.Qleb x y = false ↔ (y < x)%Q.
Proof.
  unfold Py.Qleb. split.
  - intros Hb. apply Qnot_le_lt. intros Hle. apply Qle_bool_iff in Hle. congruence.
  - intros Hlt. destruct (Qle_bool x y) eqn:E; [|done].
    apply Qle_bool_iff in E. by apply Qlt_not_le in Hlt.
Qed.

Lemma Qleb_true_iff (x y : Q) : Py.Qleb x y = true ↔ (x <= y)%Q.
Proof. apply Qle_bool_iff. Qed.

Lemma Qltb_true_iff (x y : Q) : Py.Qltb x y = true ↔ (x < y)%Q.
Proof.
  unfold Py.Qltb. rewrite negb_true_iff. apply (Qleb_false_iff y x).
Qed.

Lemma Qltb_false_iff (x y : Q) : Py.Qltb x y = false ↔ (y <= x)%Q.
Proof. unfold Py.Qltb. rewrite negb_false_iff. apply Qle_bool_iff. Qed.

Lemma min_l (x y : Q) : (x <= y)%Q → Py.min x y = x.
Proof. intros H. unfold Py.min. apply Qltb_false_iff in H. by rewrite H. Qed.

Lemma min_r (x y : Q) : (y < x)%Q → Py.min x y = y.
Proof. intros H. unfold Py.min. apply Qltb_true_iff in H. by rewrite H. Qed.

Lemma max_l (x y : Q) : (y <= x)%Q → Py.max x y = x.
Proof. intros H. unfold Py.max. apply Qltb_false_iff in H. by rewrite H. Qed.

Lemma max_r (x y : Q) : (x < y)%Q → Py.max x y = y.
Proof. intros H. unfold Py.max. apply Qltb_true_iff in H. by rewrite H. Qed.

Lemma min_bounds (x y lo : Q) :
  (lo <= x)%Q → (lo <= y)%Q → (lo <= Py.min x y)%Q ∧ (Py.min x y <= x)%Q ∧ (Py.min x y <= y)%Q.
Proof.
  intros Hx Hy. destruct (Qlt_le_dec y x) as [H|H].
  - rewrite (min_r _ _ H). repeat split; lra.
  - rewrite (min_l _ _ H). repeat split; lra.
Qed.

Lemma max_bounds (x y hi : Q) :
  (x <= hi)%Q → (y <= hi)%Q → (Py.max x y <= hi)%Q ∧ (x <= Py.max x y)%Q ∧ (y <= Py.max x y)%Q.
Proof.
  intros Hx Hy. destruct (Qlt_le_dec x y) as [H|H].
  - rewrite (max_r _ _ H). repeat split; lra.
  - rewrite (max_l _ _ H). repeat split; lra.
Qed.

Lemma Qeq_bool_false_pos (x : Q) : (0 < x)%Q → Qeq_bool x 0 = false.
Proof.
  intros H. destruct (Qeq_bool x 0) eqn:E; [|done].
  apply Qeq_bool_iff in E. lra.
Qed.

End FloatComparisons.

Section DetectorProperties.

Import DuplicateDetector.

Implicit Types (d : t) (h p key : string) (ph : option string) (thr : Z).

Lemma truthy_str_Some p : Py.truthy_str (Some p) = true ↔ p ≠ ""%string.
Proof.
  unfold Py.truthy_str. destruct (String.eqb_spec p ""); simpl; split; try done.
Qed.

Lemma scan_buckets_true p thr (items : list (string * list string)) :
  scan_buckets p thr items = true ↔
  ∃ key v, (key, v) ∈ items ∧ distance_le (_hamming_distance p key) thr = true.
Proof.
  induction items as [|[k v] rest IH]; simpl.
  - split; [done|]. intros (? & ? & Hin & _). by apply elem_of_nil in Hin.
  - destruct (distance_le (_hamming_distance p k) thr) eqn:E.
    + split; [|done]. intros _. exists k, v. split; [left|done].
    + rewrite IH. split.
      * intros (k' & v' & Hin & Hd). exists k', v'. split; [by right|done].
      * intros (k' & v' & Hin & Hd). apply elem_of_cons in Hin as [Heq|Hin].
        -- inversion Heq; subst. congruence.
        -- eauto.
Qed.

Lemma scan_buckets_map p thr (m : gmap string (list string)) :
  scan_buckets p thr (map_to_list m) = true ↔
  ∃ key, is_Some (m !! key) ∧ distance_le (_hamming_distance p key) thr = true.
Proof.
  rewrite scan_buckets_true. split.
  - intros (k & v & Hin & Hd). apply elem_of_map_to_list in Hin. eauto.
  - intros (k & [v Hv] & Hd). exists k, v. by rewrite elem_of_map_to_list.
Qed.

(** The verdict of [is_duplicate], whatever the state. *)
Lemma is_duplicate_verdict d h ph thr :
  fst (is_duplicate d h ph thr) = true ↔
  h ∈ exact_hashes d ∨ near_duplicate d ph thr.
Proof.
  unfold is_duplicate, near_duplicate. simpl.
  case_bool_decide as Hin; simpl; [by intuition|].
  destruct (enable_perceptual_hashing d) eqn:Hen; simpl;
    [|split; [done|intros [?|[? _]]; done]].
  destruct ph as [p|]; simpl;
    [|split; [done|intros [?|[_ (? & ? & ? & _)]]; done]].
  destruct (String.eqb_spec p "") as [->|Hne]; simpl.
  { split; [done|]. intros [?|[_ (p' & k & Hp & Hne & _)]]; [done|]. congruence. }
  case_bool_decide as Hempty; simpl.
  { split; [done|]. intros [?|[_ (p' & k & _ & _ & [v Hv] & _)]]; [done|].
    rewrite Hempty in Hv. by rewrite lookup_empty in Hv. }
  destruct (scan_buckets p thr _) eqn:Hscan; simpl.
  - split; [|done]. intros _. right. split; [done|].
    apply scan_buckets_map in Hscan as (k & Hk & Hd). by exists p, k.
  - split; [done|]. intros [?|[_ (p' & k & Hp & _ & Hk & Hd)]]; [done|].
    inversion Hp; subst p'.
    assert (scan_buckets p thr (map_to_list (perceptual_hashes d)) = true) as Ht
      by (apply scan_buckets_map; eauto).
    congruence.
Qed.

(** [is_duplicate] only touches the two counters. *)
Lemma is_duplicate_collections d h ph thr :
  exact_hashes (snd (is_duplicate d h ph thr)) = exact_hashes d ∧
  perceptual_hashes (snd (is_duplicate d h ph thr)) = perceptual_hashes d ∧
  enable_perceptual_hashing (snd (is_duplicate d h ph thr)) = enable_perceptual_hashing d.
Proof.
  unfold is_duplicate. simpl.
  repeat (case_bool_decide || case_match || simpl); done.
Qed.

Lemma check_and_add_fst d h ph thr :
  fst (check_and_add d h ph thr) = fst (is_duplicate d h ph thr).
Proof.
  unfold check_and_add. destruct (is_duplicate d h ph thr) as [[] d']; done.
Qed.

Lemma check_and_add_snd d h ph thr :
  snd (check_and_add d h ph thr) =
  if fst (is_duplicate d h ph thr) then snd (is_duplicate d h ph thr)
  else add_hash (snd (is_duplicate d h ph thr)) h ph.
Proof.
  unfold check_and_add. destruct (is_duplicate d h ph thr) as [[] d']; done.
Qed.

Lemma check_and_add_exact_mono d h ph thr h' :
  h' ∈ exact_hashes d → h' ∈ exact_hashes (snd (check_and_add d h ph thr)).
Proof.
  intros Hin. rewrite check_and_add_snd.
  destruct (is_duplicate_collections d h ph thr) as (Hex & _ & _).
  destruct (fst (is_duplicate d h ph thr)); [by rewrite Hex|].
  unfold add_hash.
  destruct (_ && _); [destruct ph|]; simpl; rewrite Hex; by apply elem_of_union_r.
Qed.

Lemma run_checks_exact_mono calls : ∀ d h',
  h' ∈ exact_hashes d → h' ∈ exact_hashes (run_checks d calls).
Proof.
  induction calls as [|[[h ph] thr] calls IH]; intros d h' Hin; [done|].
  apply IH. by apply check_and_add_exact_mono.
Qed.

(** A new detector answers [False] to the first [check_and_add] of a hash and
    [True] to every later one for that hash. *)
Lemma first_false_then_true enable h ph0 thr0 :
  let d1 := check_and_add (init enable) h ph0 thr0 in
  fst d1 = false ∧
  ∀ calls ph1 thr1,
    fst (check_and_add (run_checks (snd d1) calls) h ph1 thr1) = true.
Proof.
  cbv zeta.
  assert (fst (check_and_add (init enable) h ph0 thr0) = false) as Hfirst.
  { rewrite check_and_add_fst.
    destruct (fst (is_duplicate (init enable) h ph0 thr0)) eqn:E; [|done].
    apply is_duplicate_verdict in E as [Hin|[_ (p & k & _ & _ & [v Hv] & _)]].
    - simpl in Hin. set_solver.
    - simpl in Hv. by rewrite lookup_empty in Hv. }
  split; [done|]. intros calls ph1 thr1.
  rewrite check_and_add_fst. apply is_duplicate_verdict. left.
  apply run_checks_exact_mono.
  rewrite check_and_add_snd. rewrite check_and_add_fst in Hfirst. rewrite Hfirst.
  unfold add_hash.
  destruct (_ && _); [destruct ph0|]; simpl; set_solver.
Qed.

(** C1.  [check_and_add] answers with the verdict of [is_duplicate] on the
    current state, that is: the exact hash is already stored, or a stored
    perceptual bucket key is within the threshold.  On [True] both hash
    collections are left as they were.  On [False] the exact hash is added
    and, when perceptual hashing is on and a non-empty perceptual hash came
    with it, the bucket of that perceptual hash gains the exact hash at its
    end (otherwise the buckets are untouched).  Hence on a detector that was
    just constructed the first call for [h] answers [False], and after it,
    with any further [check_and_add] calls in between, a call for [h]
    answers [True]. *)
Theorem check_and_add_contract d h ph thr :
  let r := fst (check_and_add d h ph thr) in
  let d' := snd (check_and_add d h ph thr) in
  r = fst (is_duplicate d h ph thr) ∧
  (r = true ↔ h ∈ exact_hashes d ∨ near_duplicate d ph thr) ∧
  (r = true →
     exact_hashes d' = exact_hashes d ∧ perceptual_hashes d' = perceptual_hashes d) ∧
  (r = false →
     exact_hashes d' = {[h]} ∪ exact_hashes d ∧
     perceptual_hashes d' =
       match ph with
       | Some p =>
           if enable_perceptual_hashing d && negb (String.eqb p "")
           then <[p := default [] (perceptual_hashes d !! p) ++ [h]]> (perceptual_hashes d)
           else perceptual_hashes d
       | None => perceptual_hashes d
       end) ∧
  (∀ enable ph0 thr0,
     let d1 := check_and_add (init enable) h ph0 thr0 in
     fst d1 = false ∧
     ∀ calls ph1 thr1,
       fst (check_and_add (run_checks (snd d1) calls) h ph1 thr1) = true).
Proof.
  cbv zeta. split; [apply check_and_add_fst|]. split.
  { rewrite check_and_add_fst. apply is_duplicate_verdict. }
  destruct (is_duplicate_collections d h ph thr) as (Hex & Hp & Hen).
  rewrite check_and_add_fst, check_and_add_snd. split; [|split].
  - intros ->. done.
  - intros ->. unfold add_hash. simpl. rewrite Hen.
    destruct ph as [p|]; simpl.
    + destruct (enable_perceptual_hashing d && negb (p =? "")%string); simpl;
        rewrite ?Hex, ?Hp; done.
    + rewrite andb_false_r. simpl. by rewrite Hex, Hp.
  - intros enable ph0 thr0. apply first_false_then_true.
Qed.

(** What [_hamming_distance] returns, case by case. *)
Lemma hamming_distance_finite p key n :
  _hamming_distance p key = Finite n ↔
  String.length p = String.length key ∧
  ∃ a b, Py.int16 p = Some a ∧ Py.int16 key = Some b ∧
         n = Py.bin_count_ones (Z.lxor a b).
Proof.
  unfold _hamming_distance.
  destruct (Nat.eqb_spec (String.length p) (String.length key)) as [Hl|Hl]; simpl.
  - destruct (Py.int16 p) as [a|], (Py.int16 key) as [b|]; split;
      try (intros [_ (? & ? & ? & ? & _)]; congruence); try done.
    + intros [= <-]. split; [done|]. by exists a, b.
    + intros [_ (a' & b' & [= <-] & [= <-] & ->)]. done.
  - split; [done|]. intros [? _]. done.
Qed.

Lemma distance_le_true p key thr :
  distance_le (_hamming_distance p key) thr = true ↔
  String.length p = String.length key ∧
  ∃ a b, Py.int16 p = Some a ∧ Py.int16 key = Some b ∧
         Py.bin_count_ones (Z.lxor a b) ≤ thr.
Proof.
  destruct (_hamming_distance p key) as [n|] eqn:E; simpl.
  - apply hamming_distance_finite in E as (Hl & a & b & Ha & Hb & ->).
    rewrite Z.leb_le. split.
    + intros Hle. split; [done|]. by exists a, b.
    + intros (_ & a' & b' & Ha' & Hb' & Hle). congruence.
  - split; [done|]. intros (Hl & a & b & Ha & Hb & Hle).
    assert (_hamming_distance p key = Finite (Py.bin_count_ones (Z.lxor a b))) as E'
      by (apply hamming_distance_finite; eauto 10).
    congruence.
Qed.

Lemma distance_le_length p key thr :
  String.length p ≠ String.length key →
  distance_le (_hamming_distance p key) thr = false.
Proof.
  intros Hl. destruct (distance_le _ thr) eqn:E; [|done].
  apply distance_le_true in E as [? _]. done.
Qed.

Lemma set_bits_lxor a b w : set_bits (Z.lxor a b) w = differing_bits a b w.
Proof. induction w as [|w IH]; simpl; [done|]. by rewrite Z.lxor_spec, IH. Qed.

Lemma set_bits_double n (bit : bool) w :
  set_bits (2 * n + Z.b2z bit) (S w) = Z.b2z bit + set_bits n w.
Proof.
  induction w as [|w IH].
  - cbn [set_bits Z.of_nat]. rewrite Z.testbit_0_r. destruct bit; done.
  - change (set_bits (2 * n + Z.b2z bit) (S (S w))) with
      ((if Z.testbit (2 * n + Z.b2z bit) (Z.of_nat (S w)) then 1 else 0)
       + set_bits (2 * n + Z.b2z bit) (S w)).
    rewrite IH. cbn [set_bits].
    replace (Z.of_nat (S w)) with (Z.succ (Z.of_nat w)) by lia.
    rewrite Z.testbit_succ_r by lia. lia.
Qed.

Lemma set_bits_0 w : set_bits 0 w = 0.
Proof. induction w as [|w IH]; cbn [set_bits]; [done|]. by rewrite Z.testbit_0_l, IH. Qed.

Lemma ones_set_bits (q : positive) : ∀ w,
  Z.pos q < 2 ^ Z.of_nat w → Py.ones q = set_bits (Z.pos q) w.
Proof.
  induction q as [q IH|q IH|]; intros w Hw;
    (destruct w as [|w]; [simpl in Hw; lia|]);
    rewrite Nat2Z.inj_succ, Z.pow_succ_r in Hw by lia.
  - change (Z.pos q~1) with (2 * Z.pos q + Z.b2z true).
    rewrite set_bits_double. cbn [Py.ones Z.b2z]. rewrite (IH w); [done|lia].
  - change (Z.pos q~0) with (2 * Z.pos q + Z.b2z false).
    rewrite set_bits_double. cbn [Py.ones Z.b2z]. rewrite (IH w); [done|lia].
  - change (Z.pos 1) with (2 * 0 + Z.b2z true).
    rewrite set_bits_double, set_bits_0. done.
Qed.

(** On two naturals below [2^w] the count of [_hamming_distance] is the
    Hamming distance of their [w]-bit numerals. *)
Lemma bin_count_ones_lxor a b w :
  0 ≤ a < 2 ^ Z.of_nat w → 0 ≤ b < 2 ^ Z.of_nat w →
  Py.bin_count_ones (Z.lxor a b) = differing_bits a b w.
Proof.
  intros Ha Hb. rewrite <- set_bits_lxor.
  assert (0 ≤ Z.lxor a b) as Hnn by (apply Z.lxor_nonneg; lia).
  destruct (Z.lxor a b) as [|q|q] eqn:E; [| |lia].
  - by rewrite set_bits_0.
  - simpl. apply ones_set_bits. rewrite <- E.
    destruct (Z.eq_dec (Z.of_nat w) 0) as [Hw0|Hw0].
    + rewrite Hw0 in *. simpl in *. assert (a = 0) by lia. assert (b = 0) by lia.
      subst. simpl in E. done.
    + apply Z.log2_lt_pow2; [lia|].
      eapply Z.le_lt_trans; [apply Z.log2_lxor; lia|].
      apply Z.max_lub_lt.
      * destruct (Z.eq_dec a 0) as [->|]; [simpl; lia|]. apply Z.log2_lt_pow2; lia.
      * destruct (Z.eq_dec b 0) as [->|]; [simpl; lia|]. apply Z.log2_lt_pow2; lia.
Qed.

Lemma add_hash_enabled d h p :
  enable_perceptual_hashing d = true → p ≠ ""%string →
  add_hash d h (Some p) =
  mk ({[h]} ∪ exact_hashes d)
     (<[p := default [] (perceptual_hashes d !! p) ++ [h]]> (perceptual_hashes d))
     true (duplicate_count d) (total_checked d).
Proof.
  intros Hen Hp. apply truthy_str_Some in Hp.
  unfold add_hash. cbn [enable_perceptual_hashing set_exact_hashes].
  rewrite Hen, Hp. unfold set_perceptual_hashes, set_exact_hashes. simpl.
  by rewrite Hen.
Qed.

(** C6.  With perceptual hashing enabled, at least one bucket stored and an
    exact hash that is not stored, [is_duplicate] reports a duplicate
    exactly when some stored bucket key has the length of the candidate
    perceptual hash, both decode as base-16 integers, and the count of ones
    in the exclusive or of the two integers is at most the threshold.  In
    particular: a candidate within the threshold of the perceptual hash of a
    stored entry is reported whatever its exact hash; a candidate whose
    distance to the only stored perceptual hash exceeds the threshold is not
    reported; a key of another length never matches; and for two natural
    numbers below [2^w] the count is the number of the [w] bit positions at
    which they differ. *)
Theorem perceptual_duplicate_iff d h ph thr
    (Henabled : enable_perceptual_hashing d = true)
    (Hstored : perceptual_hashes d ≠ ∅)
    (Hfresh : h ∉ exact_hashes d) :
  (fst (is_duplicate d h ph thr) = true ↔
   ∃ p key, ph = Some p ∧ is_Some (perceptual_hashes d !! key) ∧
            String.length key = String.length p ∧
            ∃ a b, Py.int16 p = Some a ∧ Py.int16 key = Some b ∧
                   Py.bin_count_ones (Z.lxor a b) ≤ thr) ∧
  (∀ h1 p1 h2 p2 n,
     p1 ≠ ""%string →
     _hamming_distance p2 p1 = Finite n → n ≤ thr →
     fst (is_duplicate (add_hash d h1 (Some p1)) h2 (Some p2) thr) = true) ∧
  (∀ h1 p1 h2 p2 n,
     h2 ≠ h1 →
     _hamming_distance p2 p1 = Finite n → thr < n →
     fst (is_duplicate (add_hash (init true) h1 (Some p1)) h2 (Some p2) thr) = false) ∧
  (∀ p key,
     String.length p ≠ String.length key →
     distance_le (_hamming_distance p key) thr = false) ∧
  (∀ a b w,
     0 ≤ a < 2 ^ Z.of_nat w → 0 ≤ b < 2 ^ Z.of_nat w →
     Py.bin_count_ones (Z.lxor a b) = differing_bits a b w).
Proof.
  split; [|split; [|split; [|split]]].
  - rewrite is_duplicate_verdict. split.
    + intros [?|[_ (p & key & -> & Hp & Hk & Hd)]]; [done|].
      apply distance_le_true in Hd as (Hl & a & b & Ha & Hb & Hle).
      exists p, key. eauto 10.
    + intros (p & key & -> & Hk & Hl & a & b & Ha & Hb & Hle). right.
      split; [done|]. exists p, key. split; [done|]. split.
      { intros ->. vm_compute in Ha. done. }
      split; [done|]. apply distance_le_true. eauto 10.
  - intros h1 p1 h2 p2 n Hp1 Hd Hle. apply is_duplicate_verdict. right.
    rewrite add_hash_enabled by done. unfold near_duplicate. simpl.
    split; [done|]. exists p2, p1. split; [done|]. split.
    { intros ->. apply hamming_distance_finite in Hd as (_ & a & b & Ha & _).
      vm_compute in Ha. done. }
    split; [rewrite lookup_insert_eq; eauto|].
    rewrite Hd. simpl. by apply Z.leb_le.
  - intros h1 p1 h2 p2 n Hne Hd Hlt.
    destruct (fst (is_duplicate _ h2 (Some p2) thr)) eqn:E; [|done].
    apply is_duplicate_verdict in E as [Hin|[_ (p & key & [= <-] & _ & [v Hv] & Hle)]].
    + unfold add_hash in Hin. simpl in Hin.
      destruct (negb (p1 =? "")%string); simpl in Hin;
        apply elem_of_union in Hin as [Hin|Hin];
        (by apply elem_of_singleton in Hin) || (by apply not_elem_of_empty in Hin).
    + unfold add_hash in Hv. simpl in Hv.
      destruct (negb (p1 =? "")%string); simpl in Hv;
        [|by rewrite lookup_empty in Hv].
      rewrite lookup_empty in Hv. simpl in Hv.
      destruct (decide (p1 = key)) as [<-|Hk];
        [|by rewrite lookup_insert_ne, lookup_empty in Hv].
      rewrite Hd in Hle. simpl in Hle. apply Z.leb_le in Hle. lia.
  - intros p key. apply distance_le_length.
  - apply bin_count_ones_lxor.
Qed.

(** The counters after one [is_duplicate]. *)
Lemma is_duplicate_counters d h ph thr :
  total_checked (snd (is_duplicate d h ph thr)) = total_checked d + 1 ∧
  duplicate_count (snd (is_duplicate d h ph thr)) =
    duplicate_count d + (if fst (is_duplicate d h ph thr) then 1 else 0).
Proof.
  unfold is_duplicate. simpl.
  case_bool_decide; simpl; [lia|].
  destruct (_ && _); simpl; [|lia].
  destruct ph as [p|]; simpl; [|lia].
  destruct (scan_buckets _ _ _); simpl; lia.
Qed.

Lemma add_hash_counters d h ph :
  total_checked (add_hash d h ph) = total_checked d ∧
  duplicate_count (add_hash d h ph) = duplicate_count d.
Proof. unfold add_hash. destruct (_ && _); [destruct ph|]; done. Qed.

Lemma check_and_add_counters d h ph thr :
  total_checked (snd (check_and_add d h ph thr)) = total_checked d + 1 ∧
  duplicate_count (snd (check_and_add d h ph thr)) =
    duplicate_count d + (if fst (check_and_add d h ph thr) then 1 else 0).
Proof.
  rewrite check_and_add_fst, check_and_add_snd.
  destruct (is_duplicate_counters d h ph thr) as [Ht Hd].
  destruct (fst (is_duplicate d h ph thr)); [done|].
  destruct (add_hash_counters (snd (is_duplicate d h ph thr)) h ph) as [-> ->].
  done.
Qed.

(** Rounding to the nearest integer moves a rational by at most one half. *)
Lemma round_half_even_bound (q : Q) :
  (Qabs (q - inject_Z (Py.round_half_even q)) <= 1 # 2)%Q.
Proof.
  unfold Py.round_half_even.
  pose proof (Qfloor_le q) as Hlo. pose proof (Qlt_floor q) as Hhi.
  rewrite inject_Z_plus in Hhi. change (inject_Z 1) with 1%Q in Hhi.
  assert (∀ b : bool, (Qabs (q - inject_Z (Qfloor q)) <= 1 # 2)%Q →
                      (Qabs (q - inject_Z (Qfloor q + 1)) <= 1 # 2)%Q →
                      (Qabs (q - inject_Z (if b then Qfloor q else Qfloor q + 1))
                       <= 1 # 2)%Q) as Hif by (intros []; done).
  destruct (Qcompare_spec (q - inject_Z (Qfloor q)) (1 # 2)) as [Heq|Hlt|Hgt].
  - apply Hif.
    + apply Qabs_Qle_condition. split; lra.
    + rewrite inject_Z_plus. change (inject_Z 1) with 1%Q.
      apply Qabs_Qle_condition. split; lra.
  - apply Qabs_Qle_condition. split; lra.
  - rewrite inject_Z_plus. change (inject_Z 1) with 1%Q.
    apply Qabs_Qle_condition. split; lra.
Qed.

Lemma one_unique_two_repeats_counters enable h ph1 ph2 ph3 thr1 thr2 thr3 :
  let d := one_unique_two_repeats enable h ph1 ph2 ph3 thr1 thr2 thr3 in
  duplicate_count d = 2 ∧ total_checked d = 3.
Proof.
  cbv zeta. unfold one_unique_two_repeats, run_checks. cbn [fold_left].
  destruct (first_false_then_true enable h ph1 thr1) as [Hfirst Hnext].
  pose proof (Hnext [] ph2 thr2) as H2. pose proof (Hnext [(h, ph2, thr2)] ph3 thr3) as H3.
  unfold run_checks in H2, H3. cbn [fold_left] in H2, H3.
  set (d1 := snd (check_and_add (init enable) h ph1 thr1)) in *.
  set (d2 := snd (check_and_add d1 h ph2 thr2)) in *.
  destruct (check_and_add_counters (init enable) h ph1 thr1) as [Ht1 Hd1].
  destruct (check_and_add_counters d1 h ph2 thr2) as [Ht2 Hd2].
  destruct (check_and_add_counters d2 h ph3 thr3) as [Ht3 Hd3].
  rewrite Hfirst in Hd1. rewrite H2 in Hd2. rewrite H3 in Hd3.
  fold d1 in Ht1, Hd1. fold d2 in Ht2, Hd2. simpl in Ht1, Hd1. lia.
Qed.

Lemma round2_bound (q : Q) :
  ∃ k : Z, Py.round2 q = (k # 100)%Q ∧
           (q - (1 # 200) <= k # 100)%Q ∧ (k # 100 <= q + (1 # 200))%Q.
Proof.
  exists (Py.round_half_even (q * 100)). split; [done|].
  pose proof (round_half_even_bound (q * 100)) as Hb.
  apply Qabs_Qle_condition in Hb as [Hlo Hhi].
  set (k := Py.round_half_even (q * 100)) in *.
  assert (k # 100 == inject_Z k * (1 # 100))%Q as ->
    by (unfold Qeq; simpl; lia).
  split; lra.
Qed.

(** C7 as stated fails: after one new hash and two repeats the accessor
    reports 66.67, which is neither [duplicate_count / total_checked] nor
    2/3. *)
Lemma duplicate_rate_not_fraction :
  let d := one_unique_two_repeats false "d41d8cd9" None None None 5 5 5 in
  duplicate_count d = 2 ∧ total_checked d = 3 ∧
  duplicate_rate (get_statistics d) = (6667 # 100)%Q ∧
  ¬ (duplicate_rate (get_statistics d)
     == inject_Z (duplicate_count d) / inject_Z (total_checked d))%Q ∧
  ¬ (duplicate_rate (get_statistics d) == 2 # 3)%Q.
Proof. vm_compute. repeat split; try done; intros H; discriminate H. Qed.

(** C7, amended.  The reported [duplicate_rate] is a percentage with two
    decimals: 0 when nothing was checked, otherwise the multiple of 1/100
    nearest to [100 * duplicate_count / total_checked]; after one new hash and
    two repeats of it on a new detector it is 66.67. *)
Theorem duplicate_rate_percentage d :
  (total_checked d ≤ 0 → duplicate_rate (get_statistics d) = 0%Q) ∧
  (0 < total_checked d →
   ∃ k : Z,
     duplicate_rate (get_statistics d) = (k # 100)%Q ∧
     let percent :=
       (inject_Z (duplicate_count d) / inject_Z (total_checked d) * 100)%Q in
     (percent - (1 # 200) <= k # 100)%Q ∧ (k # 100 <= percent + (1 # 200))%Q) ∧
  (∀ enable h ph1 ph2 ph3 thr1 thr2 thr3,
     duplicate_rate
       (get_statistics (one_unique_two_repeats enable h ph1 ph2 ph3 thr1 thr2 thr3))
     = (6667 # 100)%Q).
Proof.
  split; [|split].
  - intros Hz. unfold get_statistics; simpl.
    destruct (Z.ltb_spec 0 (total_checked d)); [lia|done].
  - intros Hpos. unfold get_statistics; simpl.
    destruct (Z.ltb_spec 0 (total_checked d)); [|lia].
    apply round2_bound.
  - intros enable h ph1 ph2 ph3 thr1 thr2 thr3.
    destruct (one_unique_two_repeats_counters enable h ph1 ph2 ph3 thr1 thr2 thr3)
      as [Hd Ht].
    unfold get_statistics; simpl. rewrite Hd, Ht. reflexivity.
Qed.

(** What [is_duplicate] answers depends on the two hash collections and the
    perceptual switch only. *)
Lemma is_duplicate_ext d1 d2 h ph thr :
  exact_hashes d1 = exact_hashes d2 →
  perceptual_hashes d1 = perceptual_hashes d2 →
  enable_perceptual_hashing d1 = enable_perceptual_hashing d2 →
  fst (is_duplicate d1 h ph thr) = fst (is_duplicate d2 h ph thr).
Proof.
  intros He Hp Hen. unfold is_duplicate. simpl. rewrite He, Hp, Hen.
  case_bool_decide; [done|].
  destruct (_ && _); [|done]. destruct ph; [|done].
  destruct (scan_buckets _ _ _); done.
Qed.

(** C10.  Importing what [export_hashes] produced into a new detector with
    the same perceptual switch restores both collections: the exact hashes
    and the perceptual buckets are those of the exported detector, so every
    [check_and_add] answers as it would on the exported detector, and every
    exact hash the exported detector holds is reported as a duplicate. *)
Theorem export_import_roundtrip d :
  let d' := import_hashes (init (enable_perceptual_hashing d)) (export_hashes d) in
  exact_hashes d' = exact_hashes d ∧
  perceptual_hashes d' = perceptual_hashes d ∧
  (∀ h ph thr,
     fst (check_and_add d' h ph thr) = fst (check_and_add d h ph thr)) ∧
  (∀ h ph thr,
     h ∈ exact_hashes d → fst (check_and_add d' h ph thr) = true).
Proof.
  cbv zeta.
  assert (exact_hashes (import_hashes (init (enable_perceptual_hashing d))
                          (export_hashes d)) = exact_hashes d) as He.
  { simpl. apply list_to_set_elements_L. }
  split; [done|]. split; [done|]. split.
  - intros h ph thr. rewrite !check_and_add_fst. by apply is_duplicate_ext.
  - intros h ph thr Hin. rewrite check_and_add_fst.
    apply is_duplicate_verdict. left. by rewrite He.
Qed.

End DetectorProperties.

Section RetryProperties.

Import RetryHandler.

Context {S A : Type}.

Implicit Types (self : t) (func : Py.operation S A) (w : Py.world S A)
  (e : Py.exn) (s : S) (v : A).

Lemma invoke_raises func w e s' elapsed :
  func (Py.op_state w) (Py.clock w) = (Py.Raise e, s', elapsed) →
  Py.invoke func w =
  (Py.Raise e,
   Py.mk_world (Py.clock w + elapsed)%Q (Py.sleeps w) (Py.rng w) (Py.draws w) s'
               (Py.Raise e :: Py.op_log w)).
Proof. intros He. unfold Py.invoke. by rewrite He. Qed.


Lemma Qltb_max_0 (x : Q) : Py.Qltb (Py.max 0 x) 0 = false.
Proof.
  unfold Py.max, Py.Qltb.
  destruct (Qle_bool x 0) eqn:E; simpl; [done|].
  apply negb_false_iff, Qle_bool_iff.
  destruct (Qlt_le_dec 0 x) as [Hlt|Hle]; [by apply Qlt_le_weak|].
  apply Qle_bool_iff in Hle. congruence.
Qed.

(** The first two powers are always in range. *)
Lemma float_pow_first (x : Q) (n : Z) :
  0 ≤ n ≤ 1 → Py.float_pow x n = Py.Return (x ^ n)%Q.
Proof. intros Hn. assert (n = 0 ∨ n = 1) as [-> | ->] by lia; reflexivity. Qed.

(** The powers of the default base 2.0 are in range up to the 1023rd. *)
Lemma float_pow_two (n : Z) :
  0 ≤ n ≤ 1023 → Py.float_pow 2 n = Py.Return (2 ^ n)%Q.
Proof.
  intros Hn. unfold Py.float_pow.
  destruct ((n =? 0) || (n =? 1)); [done|].
  destruct (Z.ltb_spec n 0) as [Hneg|_]; [lia|]. cbn [andb].
  assert (Py.Qleb Py.float_overflow (Qabs (2 ^ n)) = false) as ->; [|done].
  apply Qleb_false_iff.
  assert (0 <= 2 ^ n)%Q as Hpos by (apply Qpower_0_le; lra).
  rewrite Qabs_pos by done.
  apply Qle_lt_trans with (2 ^ 1023)%Q.
  - apply Qpower_le_compat_l; [lia|lra].
  - unfold Py.float_overflow. vm_compute. reflexivity.
Qed.

Lemma backoff_in_range_default self :
  exponential_base self = 2%Q → max_retries self ≤ 1025 → backoff_in_range self.
Proof. intros Hbase Hmax attempt Ha. rewrite Hbase. apply float_pow_two. lia. Qed.

Lemma backoff_in_range_short self : max_retries self ≤ 3 → backoff_in_range self.
Proof. intros Hmax attempt Ha. apply float_pow_first. lia. Qed.

(** When the power is in range the back-off never asks [time.sleep] for a
    negative duration; it leaves the operation's state and log alone and
    records one sleep. *)
Lemma backoff_sleep self attempt w :
  Py.float_pow (exponential_base self) attempt
    = Py.Return (exponential_base self ^ attempt)%Q →
  ∃ delay w1 w',
    _calculate_delay self attempt w = (Py.Return delay, w1) ∧
    Py.sleep delay w1 = (Py.Return tt, w') ∧
    Py.sleeps w' = delay :: Py.sleeps w ∧
    Py.op_state w' = Py.op_state w ∧
    Py.op_log w' = Py.op_log w.
Proof.
  intros Hpow. unfold _calculate_delay. rewrite Hpow.
  set (d0 := Py.min _ _).
  destruct (jitter self); simpl;
    (eexists _, _, _; split; [reflexivity|]);
    unfold Py.sleep; rewrite Qltb_max_0; simpl; eauto.
Qed.

(** One iteration whose invocation fails with a retryable failure before
    the last attempt, the delay being in range: both counters go up, the
    back-off sleeps once, the loop goes on. *)
Lemma retry_loop_retry func n attempt self w last e s' elapsed :
  func (Py.op_state w) (Py.clock w) = (Py.Raise e, s', elapsed) →
  retryable_failure self e →
  attempt < max_retries self - 1 →
  Py.float_pow (exponential_base self) attempt
    = Py.Return (exponential_base self ^ attempt)%Q →
  ∃ delay w2,
    retry_loop (Datatypes.S n) attempt self func w last =
    retry_loop n (attempt + 1)
      (set_total_retries (total_retries self + 1)
         (set_total_attempts (total_attempts self + 1) self))
      func w2 (Some e) ∧
    Py.op_state w2 = s' ∧
    Py.op_log w2 = Py.Raise e :: Py.op_log w ∧
    Py.sleeps w2 = delay :: Py.sleeps w.
Proof.
  intros Hf [Hexc Hretry] Hlt Hpow.
  pose proof (invoke_raises func w e s' elapsed Hf) as Hinv.
  set (self1 := set_total_retries (total_retries self + 1)
                  (set_total_attempts (total_attempts self + 1) self)).
  set (w1 := Py.mk_world (Py.clock w + elapsed)%Q (Py.sleeps w) (Py.rng w)
               (Py.draws w) s' (Py.Raise e :: Py.op_log w)) in *.
  destruct (backoff_sleep self1 attempt w1 Hpow)
    as (delay & w1' & w2 & Hdelay & Hsleep & Hs2 & Hst2 & Hlog2).
  exists delay, w2. split; [|done].
  cbn [retry_loop]. rewrite Hinv, Hexc. cbn [negb].
  change (_is_retryable (set_total_attempts (total_attempts self + 1) self) e)
    with (_is_retryable self e).
  rewrite Hretry. cbn [negb].
  change (max_retries (set_total_attempts (total_attempts self + 1) self))
    with (max_retries self).
  destruct (Z.geb_spec attempt (max_retries self - 1)) as [Hge|_]; [lia|].
  change (set_total_retries
            (total_retries (set_total_attempts (total_attempts self + 1) self) + 1)
            (set_total_attempts (total_attempts self + 1) self)) with self1.
  by rewrite Hdelay, Hsleep.
Qed.


(** One iteration whose invocation fails with a retryable failure on the
    last attempt: the failure is counted and raised, without a sleep. *)
Lemma retry_loop_exhausted func n attempt self w last e s' elapsed :
  func (Py.op_state w) (Py.clock w) = (Py.Raise e, s', elapsed) →
  retryable_failure self e →
  max_retries self - 1 ≤ attempt →
  retry_loop (Datatypes.S n) attempt self func w last =
  (Py.Raise e,
   set_total_failures (total_failures self + 1)
     (set_total_attempts (total_attempts self + 1) self),
   Py.mk_world (Py.clock w + elapsed)%Q (Py.sleeps w) (Py.rng w) (Py.draws w) s'
               (Py.Raise e :: Py.op_log w)).
Proof.
  intros Hf [Hexc Hretry] Hge.
  cbn [retry_loop]. rewrite (invoke_raises func w e s' elapsed Hf), Hexc. cbn [negb].
  change (_is_retryable (set_total_attempts (total_attempts self + 1) self) e)
    with (_is_retryable self e).
  rewrite Hretry. cbn [negb].
  change (max_retries (set_total_attempts (total_attempts self + 1) self))
    with (max_retries self).
  destruct (Z.geb_spec attempt (max_retries self - 1)) as [_|Hlt]; [done|lia].
Qed.

(** The loop on an operation that always fails, entered with [n + 1]
    iterations left of which the last is the last of the run, all delays
    being in range. *)
Lemma retry_loop_always_fails func n : ∀ attempt self w last,
  0 ≤ attempt →
  max_retries self = attempt + Z.of_nat n + 1 →
  backoff_in_range self →
  always_fails self func →
  ∃ e failures self' w',
    retry_loop (Datatypes.S n) attempt self func w last = (Py.Raise e, self', w') ∧
    Py.op_log w' = Py.Raise e :: failures ++ Py.op_log w ∧
    length failures = n ∧ Forall is_raise failures ∧
    length (Py.sleeps w') = (length (Py.sleeps w) + n)%nat ∧
    total_attempts self' = total_attempts self + Z.of_nat n + 1 ∧
    total_retries self' = total_retries self + Z.of_nat n ∧
    total_failures self' = total_failures self + 1.
Proof.
  induction n as [|n IH]; intros attempt self w last Ha Hmax Hrange Hfail;
    destruct (Hfail (Py.op_state w) (Py.clock w)) as (e & s' & elapsed & Hf & Hr).
  - exists e, []. eexists _, _.
    rewrite (retry_loop_exhausted func 0 attempt self w last e s' elapsed) by (done || lia).
    simpl. repeat split; simpl; try done; lia.
  - destruct (retry_loop_retry func (Datatypes.S n) attempt self w last e s' elapsed)
      as (delay & w2 & -> & Hst2 & Hlog2 & Hs2); [done|done|lia|apply Hrange; lia|].
    set (self1 := set_total_retries _ _).
    destruct (IH (attempt + 1) self1 w2 (Some e)) as
      (e' & failures & self' & w' & -> & Hlog & Hlen & Hall & Hsl & Hta & Htr & Htf);
      [lia|subst self1; simpl; lia|exact Hrange|exact Hfail|].
    exists e', (failures ++ [Py.Raise e]), self', w'.
    split; [done|].
    rewrite Hlog, Hlog2, Hsl, Hs2, <- app_assoc, length_app. cbn [length app].
    split; [done|]. split; [lia|].
    split; [apply Forall_app; split; [done|by constructor]|].
    subst self1. simpl in Hta, Htr, Htf.
    repeat split; lia.
Qed.



(** As long as every delay is in range the attempts are exhausted: with
    [max_retries = N >= 1] and an operation whose every invocation fails
    with a retryable failure, [execute_with_retry] invokes the operation
    exactly [N] times, every time with a failure, and then raises the
    failure of the last invocation; over the run [total_failures] grows by
    one, [total_attempts] by [N], [total_retries] by [N - 1], and the
    back-off sleeps [N - 1] times.  With the default base 2.0 the delays are
    in range for every [N] up to 1025. *)
Lemma always_failing_exhausts_attempts self func w (N : Z) :
  1 ≤ N →
  max_retries self = N →
  backoff_in_range self →
  always_fails self func →
  let run := execute_with_retry self func w in
  let self' := snd (fst run) in
  let w' := snd run in
  ∃ e failures,
    fst (fst run) = Py.Raise e ∧
    Py.op_log w' = Py.Raise e :: failures ++ Py.op_log w ∧
    Forall is_raise failures ∧
    Z.of_nat (length (Py.Raise (A:=A) e :: failures)) = N ∧
    total_failures self' = total_failures self + 1 ∧
    total_attempts self' = total_attempts self + N ∧
    total_retries self' = total_retries self + (N - 1) ∧
    Z.of_nat (length (Py.sleeps w')) = Z.of_nat (length (Py.sleeps w)) + (N - 1).
Proof.
  intros HN Hmax Hrange Hfail. cbv zeta. unfold execute_with_retry. rewrite Hmax.
  destruct (Z.to_nat N) as [|n] eqn:En; [lia|].
  destruct (retry_loop_always_fails func n 0 self w None) as
    (e & failures & self' & w' & Hloop & Hlog & Hlen & Hall & Hsl & Hta & Htr & Htf);
    [lia|lia|done|done|].
  exists e, failures. rewrite Hloop. cbn [fst snd length].
  repeat split; try done; lia.
Qed.


(** C5.  With a filter of retryable classes configured, [max_retries >= 1]
    and a first invocation that fails outside the filter, the run is that
    single invocation: its failure is raised at once, the world is the one
    the invocation left (no sleep, no random draw, no second invocation),
    and of the counters only [total_attempts] moved, by one.  This holds for
    every [max_retries >= 1], the last attempt included: [total_failures] is
    not counted, the retryability test comes first. *)
Theorem non_retryable_propagates_at_once self func w classes e :
  retryable_exceptions self = Some classes →
  1 ≤ max_retries self →
  fst (Py.invoke func w) = Py.Raise e →
  Py.isinstance_any e classes = false →
  execute_with_retry self func w =
  (Py.Raise e, set_total_attempts (total_attempts self + 1) self,
   snd (Py.invoke func w)) ∧
  Py.op_log (snd (execute_with_retry self func w)) = Py.Raise e :: Py.op_log w ∧
  Py.sleeps (snd (execute_with_retry self func w)) = Py.sleeps w.
Proof.
  intros Hfilter Hmax Hinv Hout.
  assert (execute_with_retry self func w =
          (Py.Raise e, set_total_attempts (total_attempts self + 1) self,
           snd (Py.invoke func w))) as Hrun.
  { unfold execute_with_retry.
    destruct (Z.to_nat (max_retries self)) as [|n] eqn:En; [lia|].
    cbn [retry_loop]. destruct (Py.invoke func w) as [r w1]. simpl in Hinv. subst r.
    destruct (Py.isinstance e "Exception"); cbn [negb]; [|done].
    unfold _is_retryable. cbn [retryable_exceptions set_total_attempts].
    rewrite Hfilter, Hout. done. }
  rewrite Hrun. split; [done|]. cbn [snd].
  unfold Py.invoke in *. destruct (func (Py.op_state w) (Py.clock w)) as [[r s'] dt].
  simpl in *. by subst r.
Qed.

End RetryProperties.

Section CircuitBreakerProperties.

Import CircuitBreaker.

Context {S A : Type}.

Implicit Types (self : t) (func : Py.operation S A) (w : Py.world S A) (e : Py.exn).

(** A call on a circuit that is not open, whose operation fails with the
    configured class of failure. *)
Lemma call_records_failure self func w e :
  state self ≠ OPEN →
  fst (Py.invoke func w) = Py.Raise e →
  Py.isinstance e (expected_exception self) = true →
  call self func w =
  (Py.Raise e, _record_failure self (snd (Py.invoke func w)), snd (Py.invoke func w)).
Proof.
  intros Hst Hinv Hexp. unfold call, admission.
  destruct (state self) eqn:Est; [|done|];
    destruct (Py.invoke func w) as [r w1]; simpl in *; subst r; by rewrite Hexp.
Qed.

(** C2.  A breaker built with [failure_threshold = 3] starts [CLOSED].  After
    three calls in a row whose operation fails with the configured class of
    failure it is [OPEN], with three failures counted and the time of the
    third one recorded.  From there, a call made while less than
    [recovery_timeout] has passed since that time raises the circuit-open
    exception and leaves breaker and world as they were: the operation is
    not invoked.  A call made once [recovery_timeout] has passed moves the
    breaker to [HALF_OPEN] and invokes the operation exactly once; if the
    operation returns, its value is returned and the breaker is [CLOSED]
    with [failure_count = 0] and no failure time. *)
Theorem three_failures_open_then_recover func recovery expected w1 w2 w3 e1 e2 e3 :
  let cb0 := init 3 recovery expected in
  let cb1 := snd (fst (call cb0 func w1)) in
  let cb2 := snd (fst (call cb1 func w2)) in
  let cb3 := snd (fst (call cb2 func w3)) in
  let failed := Py.clock (snd (Py.invoke func w3)) in
  fst (Py.invoke func w1) = Py.Raise e1 → Py.isinstance e1 expected = true →
  fst (Py.invoke func w2) = Py.Raise e2 → Py.isinstance e2 expected = true →
  fst (Py.invoke func w3) = Py.Raise e3 → Py.isinstance e3 expected = true →
  state cb0 = CLOSED ∧ state cb1 = CLOSED ∧ state cb2 = CLOSED ∧
  state cb3 = OPEN ∧ failure_count cb3 = 3 ∧ last_failure_time cb3 = Some failed ∧
  (∀ w4, (Py.clock w4 - failed < recovery)%Q →
     call cb3 func w4 = (Py.Raise (circuit_open cb3), cb3, w4)) ∧
  (∀ w5, (recovery <= Py.clock w5 - failed)%Q →
     admission cb3 w5 = inr (set_state HALF_OPEN cb3) ∧
     snd (call cb3 func w5) = snd (Py.invoke func w5) ∧
     Py.op_log (snd (call cb3 func w5)) =
       fst (Py.invoke func w5) :: Py.op_log w5 ∧
     ∀ v, fst (Py.invoke func w5) = Py.Return v →
          let cb' := snd (fst (call cb3 func w5)) in
          fst (fst (call cb3 func w5)) = Py.Return v ∧
          state cb' = CLOSED ∧ failure_count cb' = 0 ∧ last_failure_time cb' = None).
Proof.
  cbv zeta. intros H1 He1 H2 He2 H3 He3.
  rewrite (call_records_failure (init 3 recovery expected) func w1 e1) by done.
  cbn [fst snd].
  set (cb1 := _record_failure (init 3 recovery expected) _).
  assert (cb1 = mk 3 recovery expected 1 (Some (Py.clock (snd (Py.invoke func w1)))) CLOSED)
    as Hcb1 by done.
  rewrite (call_records_failure cb1 func w2 e2) by (by rewrite ?Hcb1).
  cbn [fst snd].
  set (cb2 := _record_failure cb1 _).
  assert (cb2 = mk 3 recovery expected 2 (Some (Py.clock (snd (Py.invoke func w2)))) CLOSED)
    as Hcb2 by (subst cb2; by rewrite Hcb1).
  rewrite (call_records_failure cb2 func w3 e3) by (by rewrite ?Hcb2).
  cbn [fst snd].
  set (cb3 := _record_failure cb2 _).
  assert (cb3 = mk 3 recovery expected 3 (Some (Py.clock (snd (Py.invoke func w3)))) OPEN)
    as Hcb3 by (subst cb3; by rewrite Hcb2).
  clearbody cb1 cb2 cb3. subst cb1 cb2.
  set (failed := Py.clock (snd (Py.invoke func w3))) in *.
  split; [done|]. split; [done|]. split; [done|].
  split; [by rewrite Hcb3|]. split; [by rewrite Hcb3|]. split; [by rewrite Hcb3|].
  split.
  - intros w4 Hearly. apply Qleb_false_iff in Hearly.
    unfold call, admission, _should_attempt_reset. rewrite Hcb3. cbn.
    by rewrite Hearly.
  - intros w5 Hlate. apply Qle_bool_iff in Hlate.
    assert (admission cb3 w5 = inr (set_state HALF_OPEN cb3)) as Hadmission.
    { unfold admission, _should_attempt_reset. rewrite Hcb3. cbn.
      unfold Py.Qleb. by rewrite Hlate. }
    split; [done|]. unfold call. rewrite Hadmission.
    unfold Py.invoke. destruct (func (Py.op_state w5) (Py.clock w5)) as [[r s'] dt].
    cbn [fst snd]. rewrite Hcb3.
    destruct r as [v|e]; cbn.
    + split; [done|]. split; [done|]. intros v' [= <-]. done.
    + destruct (Py.isinstance e expected); cbn; (split; [done|]); (split; [done|]);
        intros v' Hv; discriminate Hv.
Qed.

End CircuitBreakerProperties.


Section AdaptiveProperties.

Import AdaptiveRateLimiter.

Implicit Types (self : t).

Lemma store_rate_positive self rate :
  (0 < rate)%Q →
  store_rate rate self =
  (Py.Return tt,
   set_base (RateLimiter.set_min_interval (1 / rate)%Q
               (RateLimiter.set_rate rate (base self))) self).
Proof. intros H. unfold store_rate. by rewrite Qeq_bool_false_pos. Qed.

(** Above a positive floor an underflow of the product goes unnoticed. *)
Lemma max_mul_underflow (lo r f : Q) :
  (Py.float_min_normal <= lo)%Q →
  Py.max lo (Py.mul_underflow r f) = Py.max lo (r * f)%Q.
Proof.
  intros Hlo. unfold Py.mul_underflow.
  destruct (Py.Qleb (Qabs (r * f)) (Py.float_tiny / 2)) eqn:E; [|done].
  apply Qleb_true_iff in E.
  assert (Py.float_tiny / 2 < Py.float_min_normal)%Q as Htiny by (vm_compute; reflexivity).
  assert (0 < Py.float_min_normal)%Q as Hpos by (vm_compute; reflexivity).
  pose proof (Qle_Qabs (r * f)) as Habs.
  rewrite (max_l lo 0), (max_l lo (r * f)) by lra. done.
Qed.

Lemma decrease_rate_spec self factor :
  rate_in_bounds self → positive_floor self → (0 < factor)%Q → (factor <= 1)%Q →
  ∃ self',
    _decrease_rate self factor = (Py.Return tt, self') ∧
    requests_per_second self' =
      Py.max (min_rate self) (requests_per_second self * factor)%Q ∧
    min_rate self' = min_rate self ∧ max_rate self' = max_rate self ∧
    success_count self' = success_count self ∧ error_count self' = error_count self ∧
    rate_in_bounds self'.
Proof.
  intros (Hpos & Hlo & Hhi) Hfloor Hf0 Hf1. unfold _decrease_rate.
  rewrite max_mul_underflow by exact Hfloor.
  set (r := requests_per_second self) in *.
  assert (0 < r * factor)%Q as Hprod by nra.
  assert (r * factor <= r)%Q as Hle by nra.
  destruct (max_bounds (min_rate self) (r * factor)%Q (max_rate self)) as (Hm1 & Hm2 & Hm3);
    [lra|lra|].
  rewrite store_rate_positive by lra.
  eexists. split; [done|]. unfold rate_in_bounds, requests_per_second. simpl.
  repeat split; try done; lra.
Qed.

Lemma increase_rate_spec self :
  rate_in_bounds self →
  ∃ self',
    _increase_rate self = (Py.Return tt, self') ∧
    requests_per_second self' =
      Py.min (max_rate self) (requests_per_second self * (6 # 5))%Q ∧
    min_rate self' = min_rate self ∧ max_rate self' = max_rate self ∧
    success_count self' = success_count self ∧ error_count self' = error_count self ∧
    rate_in_bounds self'.
Proof.
  intros (Hpos & Hlo & Hhi). unfold _increase_rate.
  set (r := requests_per_second self) in *.
  assert (r <= r * (6 # 5))%Q as Hle by lra.
  destruct (min_bounds (max_rate self) (r * (6 # 5))%Q r) as (Hm1 & Hm2 & Hm3);
    [lra|lra|].
  rewrite store_rate_positive by lra.
  eexists. split; [done|]. unfold rate_in_bounds, requests_per_second. simpl.
  repeat split; try done; lra.
Qed.

(** [on_error], both ways, on a limiter whose rate is in bounds. *)
Lemma on_error_spec self is_rate_limit :
  rate_in_bounds self → positive_floor self →
  ∃ self',
    on_error self is_rate_limit = (Py.Return tt, self') ∧
    success_count self' = 0 ∧
    min_rate self' = min_rate self ∧ max_rate self' = max_rate self ∧
    rate_in_bounds self' ∧
    (if is_rate_limit then
       requests_per_second self' =
         Py.max (min_rate self) (requests_per_second self * (1 # 2))%Q ∧
       error_count self' = error_count self + 1
     else if error_count self + 1 >=? 3 then
       requests_per_second self' =
         Py.max (min_rate self) (requests_per_second self * (4 # 5))%Q ∧
       error_count self' = 0
     else
       requests_per_second self' = requests_per_second self ∧
       error_count self' = error_count self + 1).
Proof.
  intros Hb Hfloor. unfold on_error.
  set (self1 := set_success_count 0 (set_error_count (error_count self + 1) self)).
  assert (rate_in_bounds self1) as Hb1 by exact Hb.
  assert (positive_floor self1) as Hfloor1 by exact Hfloor.
  destruct is_rate_limit.
  - destruct (decrease_rate_spec self1 (1 # 2) Hb1 Hfloor1) as
      (self' & -> & Hr & Hmin & Hmax & Hsc & Hec & Hb'); [lra|lra|].
    exists self'. repeat split; try done; apply Hb'.
  - change (error_count self1) with (error_count self + 1).
    destruct (error_count self + 1 >=? 3).
    + destruct (decrease_rate_spec self1 (4 # 5) Hb1 Hfloor1) as
        (self' & -> & Hr & Hmin & Hmax & Hsc & Hec & Hb'); [lra|lra|].
      exists (set_error_count 0 self'). repeat split; try done; apply Hb'.
    + exists self1. repeat split; try done; apply Hb.
Qed.

(** [on_success] on a limiter whose rate is in bounds. *)
Lemma on_success_spec self response_time :
  rate_in_bounds self →
  ∃ self',
    on_success self response_time = (Py.Return tt, self') ∧
    error_count self' = Z.max 0 (error_count self - 1) ∧
    min_rate self' = min_rate self ∧ max_rate self' = max_rate self ∧
    rate_in_bounds self' ∧
    ((requests_per_second self' = requests_per_second self ∧
      success_count self' = success_count self + 1) ∨
     (requests_per_second self' =
        Py.min (max_rate self) (requests_per_second self * (6 # 5))%Q ∧
      success_count self' = 0 ∧ 10 ≤ success_count self + 1)).
Proof.
  intros Hb. unfold on_success.
  set (self1 := set_error_count _ (set_success_count (success_count self + 1) self)).
  set (self2 := match response_time with Some _ => _ | None => _ end).
  assert (rate_in_bounds self2 ∧ min_rate self2 = min_rate self ∧
          max_rate self2 = max_rate self ∧
          requests_per_second self2 = requests_per_second self ∧
          success_count self2 = success_count self + 1 ∧
          error_count self2 = Z.max 0 (error_count self - 1)) as (Hb2 & Hmin2 & Hmax2 & Hr2 & Hsc2 & Hec2).
  { subst self2. destruct response_time as [x|]; [destruct (Qeq_bool x 0)|]; done. }
  clearbody self2.
  destruct (Z.geb_spec (success_count self2) 10) as [Hge|Hlt]; simpl.
  - destruct (_is_fast self2).
    + destruct (increase_rate_spec self2 Hb2) as
        (self' & -> & Hr & Hmin & Hmax & Hsc & Hec & Hb').
      exists (set_success_count 0 self'). simpl.
      rewrite Hec, Hec2, Hmin, Hmin2, Hmax, Hmax2.
      repeat split; try done; try apply Hb'.
      right. change (requests_per_second (set_success_count 0 self'))
        with (requests_per_second self').
      rewrite Hr, Hmax2, Hr2. repeat split; lia.
    + exists self2. repeat split; try done; try apply Hb2. by left.
  - exists self2. repeat split; try done; try apply Hb2. by left.
Qed.

(** C8 as stated fails.  A limiter built with rate 1 in [0.1, 5] takes two
    errors without the rate-limit signal, one success, then two more such
    errors.  The success lowers the error counter from 2 to 1 instead of
    resetting it, and the second error after the success already multiplies
    the rate by 0.8, although only two errors in a row precede it. *)
Lemma success_keeps_error_streak :
  let a0 := mk (RateLimiter.mk 1 1 0 1 0 [] 0 0 None) 1 (1 # 10) 5 0 0 [] in
  init 1 (1 # 10) 5 0 None = Py.Return a0 ∧
    let a1 := snd (on_error a0 false) in
    let a2 := snd (on_error a1 false) in
    let a3 := snd (on_success a2 None) in
    let a4 := snd (on_error a3 false) in
    let a5 := snd (on_error a4 false) in
    error_count a2 = 2 ∧ error_count a3 = 1 ∧ error_count a3 ≠ 0 ∧
    requests_per_second a4 = 1%Q ∧
    requests_per_second a5 = (4 # 5)%Q.
Proof. vm_compute. repeat split; done. Qed.

(** C8, amended.  On an adaptive limiter whose rate is positive and within
    [[min_rate, max_rate]], and whose [min_rate] is a positive float at full
    precision where errors are concerned: [on_error] with the rate-limit
    signal sets the rate to [max(min_rate, rate * 0.5)] at once; [on_error]
    without it sets the rate to [max(min_rate, rate * 0.8)] exactly when the
    error counter, once incremented, is at least 3, and then puts the
    counter back to 0, so that a limiter whose counter is 0 keeps its rate
    on two such errors in a row and lowers it on the third; [on_success]
    either keeps the rate or sets it to [min(max_rate, rate * 1.2)]; in
    every case the rate remains positive and within the bounds.  An error
    puts the success counter back to 0; a success lowers the error counter
    by one, not below 0. *)
Theorem adaptive_rate_transitions self :
  rate_in_bounds self →
  (positive_floor self →
   (∃ self',
      on_error self true = (Py.Return tt, self') ∧
      requests_per_second self' =
        Py.max (min_rate self) (requests_per_second self * (1 # 2))%Q ∧
      success_count self' = 0 ∧ error_count self' = error_count self + 1 ∧
      rate_in_bounds self') ∧
   (∃ self',
      on_error self false = (Py.Return tt, self') ∧
      success_count self' = 0 ∧ rate_in_bounds self' ∧
      (3 ≤ error_count self + 1 →
         requests_per_second self' =
           Py.max (min_rate self) (requests_per_second self * (4 # 5))%Q ∧
         error_count self' = 0) ∧
      (error_count self + 1 < 3 →
         requests_per_second self' = requests_per_second self ∧
         error_count self' = error_count self + 1)) ∧
   (error_count self = 0 →
      let a1 := snd (on_error self false) in
      let a2 := snd (on_error a1 false) in
      let a3 := snd (on_error a2 false) in
      requests_per_second a1 = requests_per_second self ∧
      requests_per_second a2 = requests_per_second self ∧
      requests_per_second a3 =
        Py.max (min_rate self) (requests_per_second self * (4 # 5))%Q ∧
      error_count a3 = 0)) ∧
  (∀ response_time, ∃ self',
     on_success self response_time = (Py.Return tt, self') ∧
     error_count self' = Z.max 0 (error_count self - 1) ∧
     (requests_per_second self' = requests_per_second self ∨
      requests_per_second self' =
        Py.min (max_rate self) (requests_per_second self * (6 # 5))%Q) ∧
     rate_in_bounds self').
Proof.
  intros Hb. split; [intros Hfloor; split; [|split]|].
  - destruct (on_error_spec self true Hb Hfloor)
      as (self' & Hrun & Hsc & _ & _ & Hb' & Hr & Hec).
    by exists self'.
  - destruct (on_error_spec self false Hb Hfloor)
      as (self' & Hrun & Hsc & _ & _ & Hb' & Hcase).
    exists self'. split; [done|]. split; [done|]. split; [done|]. split.
    + intros H3. destruct (Z.geb_spec (error_count self + 1) 3); [apply Hcase|lia].
    + intros H3. destruct (Z.geb_spec (error_count self + 1) 3); [lia|apply Hcase].
  - intros Hzero. cbv zeta.
    destruct (on_error_spec self false Hb Hfloor)
      as (a1 & -> & _ & Hmin1 & _ & Hb1 & Hc1).
    rewrite Hzero in Hc1. cbn in Hc1. destruct Hc1 as [Hr1 He1]. cbn [snd].
    assert (positive_floor a1) as Hfloor1 by (unfold positive_floor; by rewrite Hmin1).
    destruct (on_error_spec a1 false Hb1 Hfloor1)
      as (a2 & -> & _ & Hmin2 & _ & Hb2 & Hc2).
    rewrite He1 in Hc2. cbn in Hc2. destruct Hc2 as [Hr2 He2]. cbn [snd].
    assert (positive_floor a2) as Hfloor2 by (unfold positive_floor; by rewrite Hmin2).
    destruct (on_error_spec a2 false Hb2 Hfloor2) as (a3 & -> & _ & _ & _ & _ & Hc3).
    rewrite He2 in Hc3. cbn in Hc3. destruct Hc3 as [Hr3 He3]. cbn [snd].
    rewrite Hr3, Hr2, Hr1, Hmin2, Hmin1. done.
  - intros response_time.
    destruct (on_success_spec self response_time Hb) as
      (self' & Hrun & Hec & _ & _ & Hb' & Hcase).
    exists self'. repeat split; try done; try apply Hb'.
    destruct Hcase as [[? _]|[? _]]; [by left|by right].
Qed.

End AdaptiveProperties.

Section TokenBucketProperties.

Import RateLimiter.

Context {S A : Type}.

Implicit Types (self : t) (w : Py.world S A).

Lemma refill_now self w c :
  holds_tokens self w c → (c <= inject_Z (burst_size self))%Q →
  let '(tokens, last_refill_time) :=
    match bucket self with
    | Some b => b
    | None => (inject_Z (burst_size self), Py.clock w)
    end in
  (Py.min (inject_Z (burst_size self))
          (tokens + (Py.clock w - last_refill_time) * requests_per_second self)
   == c)%Q.
Proof.
  unfold holds_tokens. intros Hh Hc.
  destruct (bucket self) as [[tok lr]|].
  - destruct Hh as [Ht Hl].
    assert (tok + (Py.clock w - lr) * requests_per_second self == c)%Q as Hsum.
    { rewrite Hl, Ht. ring. }
    destruct (Qlt_le_dec (tok + (Py.clock w - lr) * requests_per_second self)
                (inject_Z (burst_size self))) as [H|H].
    + by rewrite min_r.
    + rewrite min_l by done. lra.
  - assert (inject_Z (burst_size self)
            + (Py.clock w - Py.clock w) * requests_per_second self == c)%Q as Hsum.
    { rewrite <- Hh. ring. }
    rewrite min_l by lra. done.
Qed.

(** A call that finds a token takes it and does not wait. *)
Lemma take_token self w c :
  (base_delay self == 0)%Q →
  holds_tokens self w c → (1 <= c)%Q → (c <= inject_Z (burst_size self))%Q →
  ∃ self',
    wait_with_token_bucket self w = (Py.Return 0%Q, self', w) ∧
    holds_tokens self' w (c - 1) ∧ same_config self self' ∧
    ∃ tokens, bucket self' = Some (tokens, Py.clock w) ∧ (tokens == c - 1)%Q.
Proof.
  intros Hbase Hh H1 Hc. pose proof (refill_now self w c Hh Hc) as Hrefill.
  unfold wait_with_token_bucket.
  destruct (match bucket self with Some b => b | None => _ end) as [tok lr].
  set (tokens := Py.min _ _) in *.
  assert (Py.Qleb 1 tokens = true) as -> by (apply Qleb_true_iff; lra).
  assert (Py.Qltb 0 (base_delay (set_bucket (tokens - 1) (Py.clock w) self)) = false)
    as -> by (apply Qltb_false_iff; simpl; lra).
  eexists. split; [done|]. unfold holds_tokens, same_config. simpl.
  repeat split; try done; try lra.
  exists (tokens - 1)%Q. split; [done|lra].
Qed.



(** [k] calls in a row on a bucket that holds at least [k] tokens: none of
    them waits, the clock does not move, [k] tokens are gone. *)
Lemma burst_takes_tokens k : ∀ self w c,
  (base_delay self == 0)%Q →
  holds_tokens self w c →
  (inject_Z (Z.of_nat k) <= c)%Q → (c <= inject_Z (burst_size self))%Q →
  ∃ self',
    burst k self w = (replicate k (Py.Return 0%Q), self', w) ∧
    holds_tokens self' w (c - inject_Z (Z.of_nat k)) ∧ same_config self self'.
Proof.
  induction k as [|k IH]; intros self w c Hbase Hh Hk Hc.
  - exists self. split; [done|]. split; [|done].
    unfold holds_tokens in *. destruct (bucket self) as [[tok lr]|].
    + split; [|apply Hh]. destruct Hh as [-> _]. simpl. ring.
    + rewrite Hh. simpl. ring.
  - rewrite Nat2Z.inj_succ in *. unfold Z.succ in *. rewrite inject_Z_plus in *.
    assert (0 <= inject_Z (Z.of_nat k))%Q as Hk0.
    { change 0%Q with (inject_Z 0). rewrite <- Zle_Qle. lia. }
    change (inject_Z 1) with 1%Q in *.
    destruct (take_token self w c Hbase Hh) as (self1 & Hcall & Hh1 & Hcfg1 & _);
      [lra|lra|].
    destruct Hcfg1 as (Hr1 & Hb1 & Hs1).
    destruct (IH self1 w (c - 1)%Q) as (self' & Hrest & Hh' & Hcfg');
      [by rewrite Hb1|done|lra|rewrite Hs1; lra|].
    exists self'. cbn [burst replicate]. rewrite Hcall, Hrest. split; [done|].
    split.
    + unfold holds_tokens in *. destruct (bucket self') as [[tok lr]|].
      * split; [|apply Hh']. destruct Hh' as [-> _]. ring.
      * rewrite Hh'. ring.
    + destruct Hcfg' as (Hr' & Hb' & Hs'). unfold same_config.
      rewrite Hr', Hb', Hs'. done.
Qed.




End TokenBucketProperties.

Section DetectorMaintenance.

Import DuplicateDetector.

Implicit Types (d : t) (h p key : string) (ph : option string) (thr : Z).

Lemma list_remove_notin h (l : list string) : h ∉ l → Py.list_remove h l = l.
Proof.
  induction l as [|y l IH]; intros Hn; [done|]. simpl.
  destruct (String.eqb_spec h y) as [->|Hne].
  - exfalso. apply Hn. left.
  - f_equal. apply IH. intros Hin. apply Hn. by right.
Qed.

Lemma list_remove_snoc h (l : list string) : h ∉ l → Py.list_remove h (l ++ [h]) = l.
Proof.
  induction l as [|y l IH]; intros Hn; simpl.
  - by rewrite String.eqb_refl.
  - destruct (String.eqb_spec h y) as [->|Hne].
    + exfalso. apply Hn. left.
    + f_equal. apply IH. intros Hin. apply Hn. by right.
Qed.

(** On a list without repetitions, [list_remove] removes every occurrence. *)
Lemma list_remove_NoDup h (l : list string) :
  NoDup l →
  (∀ x, x ∈ Py.list_remove h l ↔ x ∈ l ∧ x ≠ h) ∧ NoDup (Py.list_remove h l).
Proof.
  induction 1 as [|y l Hy Hnd IH]; simpl.
  - split; [|constructor]. intros x. split; [by intros ?%elem_of_nil|by intros [?%elem_of_nil _]].
  - destruct (String.eqb_spec h y) as [->|Hne].
    + split; [|done]. intros x. rewrite elem_of_cons. split.
      * intros Hin. split; [by right|]. by intros ->.
      * intros [[->|Hin] Hx]; done.
    + destruct IH as [IH1 IH2]. split.
      * intros x. rewrite !elem_of_cons, IH1. split.
        -- intros [->|[Hin Hx]]; [split; [by left|done]|split; [by right|done]].
        -- intros [[->|Hin] Hx]; [by left|by right].
      * constructor; [|done]. rewrite IH1. by intros [? _].
Qed.

Lemma remove_from_bucket_spec h (l : list string) :
  NoDup l →
  match remove_from_bucket h l with
  | Some l' => l' ≠ [] ∨ l = [] | None => True
  end ∧
  ∀ l', remove_from_bucket h l = Some l' →
        NoDup l' ∧ ∀ x, x ∈ l' ↔ x ∈ l ∧ x ≠ h.
Proof.
  intros Hnd. unfold remove_from_bucket.
  destruct (list_remove_NoDup h l Hnd) as [Hin Hnd'].
  case_bool_decide as Hh.
  - destruct (Py.list_remove h l) as [|y l0] eqn:E; [done|].
    split; [by left|]. intros l' [= <-]. done.
  - split; [destruct l; [by right|by left]|]. intros l' [= <-]. split; [done|].
    intros x. split; [|by intros [? _]]. intros Hx. split; [done|]. by intros ->.
Qed.

Lemma well_formed_ext d1 d2 :
  exact_hashes d1 = exact_hashes d2 →
  perceptual_hashes d1 = perceptual_hashes d2 →
  enable_perceptual_hashing d1 = enable_perceptual_hashing d2 →
  well_formed d2 → well_formed d1.
Proof. unfold well_formed. intros -> -> ->. done. Qed.

Lemma well_formed_init enable : well_formed (init enable).
Proof.
  split; [done|]. intros key bucket Hk. simpl in Hk. by rewrite lookup_empty in Hk.
Qed.

Lemma well_formed_clear d : well_formed d → well_formed (clear d).
Proof.
  intros _. split; [done|]. intros key bucket Hk. simpl in Hk.
  by rewrite lookup_empty in Hk.
Qed.

(** A hash that is not stored is in no bucket of a well-formed detector. *)
Lemma well_formed_fresh d h key bucket :
  well_formed d → h ∉ exact_hashes d →
  perceptual_hashes d !! key = Some bucket → h ∉ bucket.
Proof.
  intros [_ Hwf] Hh Hk Hin. destruct (Hwf key bucket Hk) as (_ & _ & Hsub).
  apply Hh. by apply Hsub.
Qed.

Lemma add_hash_collections d h ph :
  exact_hashes (add_hash d h ph) = {[h]} ∪ exact_hashes d ∧
  enable_perceptual_hashing (add_hash d h ph) = enable_perceptual_hashing d ∧
  perceptual_hashes (add_hash d h ph) =
    match ph with
    | Some p =>
        if enable_perceptual_hashing d && negb (p =? "")%string
        then <[p := default [] (perceptual_hashes d !! p) ++ [h]]> (perceptual_hashes d)
        else perceptual_hashes d
    | None => perceptual_hashes d
    end.
Proof.
  unfold add_hash. simpl. destruct ph as [p|]; simpl.
  - destruct (enable_perceptual_hashing d && negb (p =? "")%string); done.
  - by rewrite andb_false_r.
Qed.

Lemma well_formed_add_hash d h ph :
  well_formed d → h ∉ exact_hashes d → well_formed (add_hash d h ph).
Proof.
  intros [Hoff Hb] Hh.
  destruct (add_hash_collections d h ph) as (Hex & Hen & Hp).
  assert (∀ key bucket,
            perceptual_hashes d !! key = Some bucket →
            bucket ≠ [] ∧ NoDup bucket ∧
            ∀ x, x ∈ bucket → x ∈ exact_hashes (add_hash d h ph)) as Hold.
  { intros key bucket Hk. destruct (Hb key bucket Hk) as (Hne & Hnd & Hsub).
    split; [done|]. split; [done|]. intros x Hx. rewrite Hex.
    apply elem_of_union_r. by apply Hsub. }
  unfold well_formed. rewrite Hen, Hp.
  destruct ph as [p|]; [|done].
  destruct (enable_perceptual_hashing d) eqn:Eon; simpl; [|done].
  destruct (negb (p =? "")%string); [|done].
  split; [done|]. intros key bucket.
  destruct (decide (p = key)) as [<-|Hne]; [|rewrite lookup_insert_ne by done; apply Hold].
  rewrite lookup_insert_eq. intros [= <-]. rewrite Hex.
  destruct (perceptual_hashes d !! p) as [old|] eqn:Eold; simpl.
  - destruct (Hb p old Eold) as (Hne & Hnd & Hsub).
    split; [by destruct old|]. split.
    + apply NoDup_app. split; [done|]. split; [|apply NoDup_singleton].
      intros x Hx ->%list_elem_of_singleton. apply Hh. by apply Hsub.
    + intros x [Hx| ->%list_elem_of_singleton]%elem_of_app;
        [apply elem_of_union_r; by apply Hsub|by apply elem_of_union_l, elem_of_singleton].
  - split; [done|]. split; [apply NoDup_singleton|].
    intros x ->%list_elem_of_singleton. by apply elem_of_union_l, elem_of_singleton.
Qed.

Lemma well_formed_check_and_add d h ph thr :
  well_formed d → well_formed (snd (check_and_add d h ph thr)).
Proof.
  intros Hwf. rewrite check_and_add_snd.
  destruct (is_duplicate_collections d h ph thr) as (Hex & Hp & Hen).
  assert (well_formed (snd (is_duplicate d h ph thr))) as Hwf1
    by (by apply (well_formed_ext _ d)).
  destruct (fst (is_duplicate d h ph thr)) eqn:E; [done|].
  apply well_formed_add_hash; [done|]. rewrite Hex. intros Hin.
  assert (fst (is_duplicate d h ph thr) = true) as Ht
    by (apply is_duplicate_verdict; by left).
  congruence.
Qed.

Lemma well_formed_remove_hash d h :
  well_formed d → well_formed (snd (remove_hash d h)).
Proof.
  intros Hwf. pose proof Hwf as [Hoff Hb]. unfold remove_hash.
  case_bool_decide as Hin; [|done]. simpl.
  destruct (enable_perceptual_hashing d) eqn:Hen; simpl.
  - split; [intros Hoff'; simpl in Hoff'; congruence|]. intros key bucket Hk. simpl in Hk.
    simpl. apply lookup_omap_Some in Hk as (old & Hrm & Hold).
    destruct (Hb key old Hold) as (Hne & Hnd & Hsub).
    destruct (remove_from_bucket_spec h old Hnd) as [Hnonempty Hmem].
    rewrite Hrm in Hnonempty. destruct (Hmem bucket Hrm) as [Hnd' Hiff].
    split; [by destruct Hnonempty|]. split; [done|].
    intros x [Hx Hxh]%Hiff. apply elem_of_difference. split; [by apply Hsub|].
    by intros ?%elem_of_singleton.
  - split; [intros _; by apply Hoff|]. intros key bucket Hk. simpl in Hk.
    rewrite (Hoff eq_refl) in Hk. by rewrite lookup_empty in Hk.
Qed.

(** X1.  Whatever sequence of [check_and_add], [remove_hash] and [clear]
    calls a new detector goes through, its buckets stay in step with its
    exact hashes: no bucket while perceptual hashing is off, and every
    bucket non-empty, without repetition and made of stored exact hashes. *)
Theorem detector_runs_well_formed enable (ops : list detector_op) :
  well_formed (run_ops (init enable) ops).
Proof.
  unfold run_ops. generalize (well_formed_init enable).
  generalize (init enable). induction ops as [|op ops IH]; intros d Hwf; [done|].
  simpl. apply IH. destruct op as [h ph thr|h|]; simpl.
  - by apply well_formed_check_and_add.
  - by apply well_formed_remove_hash.
  - by apply well_formed_clear.
Qed.

(** X2.  On a detector whose buckets are in step, [remove_hash] answers
    [True] exactly when the hash is stored and changes nothing when it
    answers [False]; afterwards the hash is in neither the exact hashes nor
    any bucket, so that a check of it by exact hash alone is negative, and
    the counters are as before. *)
Theorem remove_hash_forgets d h :
  well_formed d →
  let r := remove_hash d h in
  (fst r = true ↔ h ∈ exact_hashes d) ∧
  (fst r = false → snd r = d) ∧
  exact_hashes (snd r) = exact_hashes d ∖ {[h]} ∧
  (∀ key bucket, perceptual_hashes (snd r) !! key = Some bucket → h ∉ bucket) ∧
  (∀ thr, fst (is_duplicate (snd r) h None thr) = false) ∧
  duplicate_count (snd r) = duplicate_count d ∧
  total_checked (snd r) = total_checked d.
Proof.
  intros Hwf. cbv zeta.
  assert (exact_hashes (snd (remove_hash d h)) = exact_hashes d ∖ {[h]}) as Hex.
  { unfold remove_hash. case_bool_decide as Hin; simpl.
    - by destruct (enable_perceptual_hashing d).
    - apply leibniz_equiv. intros x. rewrite elem_of_difference, elem_of_singleton.
      split; [|by intros [? _]]. intros Hx. split; [done|]. by intros ->. }
  assert (h ∉ exact_hashes (snd (remove_hash d h))) as Hgone.
  { rewrite Hex, elem_of_difference, elem_of_singleton. by intros [_ ?]. }
  split; [|split; [|split; [done|split; [|split]]]].
  - unfold remove_hash. case_bool_decide; simpl; by split.
  - unfold remove_hash. case_bool_decide; simpl; done.
  - intros key bucket Hk.
    by apply (well_formed_fresh (snd (remove_hash d h)) h key bucket
                (well_formed_remove_hash d h Hwf)).
  - intros thr. destruct (fst (is_duplicate _ h None thr)) eqn:E; [|done].
    apply is_duplicate_verdict in E as [Hin|[_ (p & k & Hp & _)]]; done.
  - unfold remove_hash. case_bool_decide; simpl; [|done].
    by destruct (enable_perceptual_hashing d).
Qed.

Lemma remove_hash_stored d h :
  h ∈ exact_hashes d →
  fst (remove_hash d h) = true ∧
  exact_hashes (snd (remove_hash d h)) = exact_hashes d ∖ {[h]} ∧
  perceptual_hashes (snd (remove_hash d h)) =
    (if enable_perceptual_hashing d
     then omap (remove_from_bucket h) (perceptual_hashes d)
     else perceptual_hashes d) ∧
  enable_perceptual_hashing (snd (remove_hash d h)) = enable_perceptual_hashing d.
Proof.
  intros Hin. unfold remove_hash. rewrite bool_decide_eq_true_2 by done. simpl.
  by destruct (enable_perceptual_hashing d) eqn:E.
Qed.

Lemma remove_hash_absent d h : h ∉ exact_hashes d → remove_hash d h = (false, d).
Proof. intros Hout. unfold remove_hash. by rewrite bool_decide_eq_false_2. Qed.

(** X3.  A hash that [check_and_add] has just added can be taken back: on a
    detector whose buckets are in step, [remove_hash] after a [check_and_add]
    that answered [False] restores the exact hashes and the buckets. *)
Theorem check_and_add_then_remove d h ph thr :
  well_formed d →
  fst (check_and_add d h ph thr) = false →
  let d1 := snd (check_and_add d h ph thr) in
  fst (remove_hash d1 h) = true ∧
  exact_hashes (snd (remove_hash d1 h)) = exact_hashes d ∧
  perceptual_hashes (snd (remove_hash d1 h)) = perceptual_hashes d.
Proof.
  intros Hwf Hnew. cbv zeta. rewrite check_and_add_fst in Hnew.
  rewrite check_and_add_snd, Hnew.
  destruct (is_duplicate_collections d h ph thr) as (Hex & Hp & Hen).
  set (d0 := snd (is_duplicate d h ph thr)) in *.
  assert (h ∉ exact_hashes d) as Hh.
  { intros Hin. assert (fst (is_duplicate d h ph thr) = true) as Ht
      by (apply is_duplicate_verdict; by left). congruence. }
  destruct (add_hash_collections d0 h ph) as (Hex1 & Hen1 & Hp1).
  rewrite Hex, Hen, Hp in *.
  destruct (remove_hash_stored (add_hash d0 h ph) h) as (Hr & Hex2 & Hp2 & _).
  { rewrite Hex1. by apply elem_of_union_l, elem_of_singleton. }
  rewrite Hr, Hex2, Hp2, Hex1, Hen1. split; [done|].
  assert (({[h]} ∪ exact_hashes d) ∖ {[h]} = exact_hashes d) as Hset.
  { apply leibniz_equiv. intros x.
    rewrite elem_of_difference, elem_of_union, elem_of_singleton. split.
    - intros [[->|Hx] Hne]; done.
    - intros Hx. split; [by right|]. by intros ->. }
  destruct Hwf as [Hoff Hb].
  split; [done|].
  destruct (enable_perceptual_hashing d) eqn:Eon; simpl.
  2:{ rewrite Hp1. destruct ph; [|done]. simpl. done. }
  rewrite Hp1. apply map_eq. intros key.
  rewrite lookup_omap.
  assert (∀ l, perceptual_hashes d !! key = Some l →
               remove_from_bucket h l = Some l) as Hkeep.
  { intros l Hl. destruct (Hb key l Hl) as (_ & _ & Hsub).
    unfold remove_from_bucket. rewrite bool_decide_eq_false_2; [done|].
    intros Hin. apply Hh. by apply Hsub. }
  destruct ph as [p|]; simpl.
  2:{ destruct (perceptual_hashes d !! key) as [l|] eqn:El; simpl; [by apply Hkeep|done]. }
  destruct (negb (p =? "")%string); simpl.
  2:{ destruct (perceptual_hashes d !! key) as [l|] eqn:El; simpl; [by apply Hkeep|done]. }
  destruct (decide (p = key)) as [<-|Hne].
  - rewrite lookup_insert_eq. simpl. unfold remove_from_bucket.
    destruct (perceptual_hashes d !! p) as [old|] eqn:Eold; simpl.
    + destruct (Hb p old Eold) as (Hne & _ & Hsub).
      rewrite bool_decide_eq_true_2 by (apply elem_of_app; right; by left).
      rewrite list_remove_snoc by (intros Hin; apply Hh; by apply Hsub).
      by destruct old.
    + rewrite bool_decide_eq_true_2 by by left. simpl. by rewrite String.eqb_refl.
  - rewrite lookup_insert_ne by done.
    destruct (perceptual_hashes d !! key) as [l|] eqn:El; simpl; [by apply Hkeep|done].
Qed.

(** An integer range that holds a rational holds its rounding. *)
Lemma round_half_even_between (lo hi : Z) (q : Q) :
  (inject_Z lo <= q)%Q → (q <= inject_Z hi)%Q →
  lo ≤ Py.round_half_even q ≤ hi.
Proof.
  intros Hlo Hhi. unfold Py.round_half_even.
  pose proof (Qfloor_le q) as Hf. pose proof (Qlt_floor q) as Hc.
  assert (lo ≤ Qfloor q) as Hlo'.
  { rewrite <- (Qfloor_Z lo). by apply Qfloor_resp_le. }
  assert (Qfloor q ≤ hi) as Hhi'.
  { rewrite <- (Qfloor_Z hi). by apply Qfloor_resp_le. }
  assert ((inject_Z (Qfloor q) < q)%Q → Qfloor q + 1 ≤ hi) as Hup.
  { intros Hlt. assert (inject_Z (Qfloor q) < inject_Z hi)%Q as H by lra.
    rewrite <- Zlt_Qlt in H. lia. }
  destruct (Qcompare_spec (q - inject_Z (Qfloor q)) (1 # 2)) as [Heq|Hlt|Hgt].
  - destruct (Z.even (Qfloor q)); [lia|]. split; [lia|]. apply Hup. lra.
  - lia.
  - split; [lia|]. apply Hup. lra.
Qed.

Lemma round2_between (q : Q) :
  (0 <= q)%Q → (q <= 100)%Q → (0 <= Py.round2 q)%Q ∧ (Py.round2 q <= 100)%Q.
Proof.
  intros H0 H100. unfold Py.round2.
  destruct (round_half_even_between 0 10000 (q * 100)) as [Hlo Hhi].
  - change (inject_Z 0) with 0%Q. nra.
  - change (inject_Z 10000) with 10000%Q. nra.
  - unfold Qle. simpl. lia.
Qed.

Lemma check_and_add_size d h ph thr :
  size (exact_hashes (snd (check_and_add d h ph thr))) =
  (size (exact_hashes d) + if fst (check_and_add d h ph thr) then 0 else 1)%nat.
Proof.
  rewrite check_and_add_fst, check_and_add_snd.
  destruct (is_duplicate_collections d h ph thr) as (Hex & _ & _).
  destruct (fst (is_duplicate d h ph thr)) eqn:E; [rewrite Hex; lia|].
  destruct (add_hash_collections (snd (is_duplicate d h ph thr)) h ph) as (-> & _ & _).
  rewrite Hex. rewrite size_union, size_singleton; [lia|].
  intros x ->%elem_of_singleton Hin.
  assert (fst (is_duplicate d h ph thr) = true) as Ht
    by (apply is_duplicate_verdict; by left).
  congruence.
Qed.

Lemma run_checks_accounts calls : ∀ d,
  Z.of_nat (size (exact_hashes d)) + duplicate_count d = total_checked d →
  0 ≤ duplicate_count d →
  let d' := run_checks d calls in
  Z.of_nat (size (exact_hashes d')) + duplicate_count d' = total_checked d' ∧
  0 ≤ duplicate_count d' ∧
  total_checked d' = total_checked d + Z.of_nat (length calls).
Proof.
  induction calls as [|[[h ph] thr] calls IH]; intros d Hacc Hnn; cbv zeta.
  - simpl. lia.
  - unfold run_checks. cbn [fold_left]. fold (run_checks (snd (check_and_add d h ph thr)) calls).
    destruct (check_and_add_counters d h ph thr) as [Ht Hd].
    pose proof (check_and_add_size d h ph thr) as Hs.
    destruct (IH (snd (check_and_add d h ph thr))) as (H1 & H2 & H3).
    + rewrite Ht, Hd, Hs. destruct (fst (check_and_add d h ph thr)); lia.
    + rewrite Hd. destruct (fst (check_and_add d h ph thr)); lia.
    + rewrite Ht in H3. cbn [length]. split; [done|]. split; [done|]. lia.
Qed.

(** X4.  On a detector that went through [check_and_add] calls only, every
    call is accounted for: the number of stored hashes plus the number of
    duplicates found is the number of checks, which is the number of calls;
    and the reported [duplicate_rate] lies between 0 and 100. *)
Theorem checks_are_accounted enable (calls : list (string * option string * Z)) :
  let d := run_checks (init enable) calls in
  Z.of_nat (size (exact_hashes d)) + duplicate_count d = total_checked d ∧
  total_checked d = Z.of_nat (length calls) ∧
  0 ≤ duplicate_count d ≤ total_checked d ∧
  (0 <= duplicate_rate (get_statistics d))%Q ∧
  (duplicate_rate (get_statistics d) <= 100)%Q.
Proof.
  cbv zeta. destruct (run_checks_accounts calls (init enable)) as (Hacc & Hnn & Htc);
    [done|done|].
  set (d := run_checks (init enable) calls) in *. simpl in Htc.
  assert (duplicate_count d ≤ total_checked d) as Hle by lia.
  split; [done|]. split; [done|]. split; [done|].
  unfold get_statistics. simpl.
  destruct (Z.ltb_spec 0 (total_checked d)) as [Hpos|Hz]; [|done].
  apply round2_between.
  - apply Qmult_le_0_compat; [|done]. apply Qle_shift_div_l.
    + change 0%Q with (inject_Z 0). by rewrite <- Zlt_Qlt.
    + rewrite Qmult_0_l. change 0%Q with (inject_Z 0). by rewrite <- Zle_Qle.
  - assert (inject_Z (duplicate_count d) / inject_Z (total_checked d) <= 1)%Q as H1.
    { apply Qle_shift_div_r.
      - change 0%Q with (inject_Z 0). by rewrite <- Zlt_Qlt.
      - rewrite Qmult_1_l. by rewrite <- Zle_Qle. }
    lra.
Qed.

Lemma check_and_add_same d1 d2 h ph thr :
  same_collections d1 d2 →
  fst (check_and_add d1 h ph thr) = fst (check_and_add d2 h ph thr) ∧
  same_collections (snd (check_and_add d1 h ph thr)) (snd (check_and_add d2 h ph thr)).
Proof.
  intros (Hex & Hp & Hen). rewrite !check_and_add_fst, !check_and_add_snd.
  rewrite (is_duplicate_ext d1 d2 h ph thr Hex Hp Hen). split; [done|].
  destruct (is_duplicate_collections d1 h ph thr) as (Hex1 & Hp1 & Hen1).
  destruct (is_duplicate_collections d2 h ph thr) as (Hex2 & Hp2 & Hen2).
  destruct (fst (is_duplicate d2 h ph thr)).
  - unfold same_collections. by rewrite Hex1, Hp1, Hen1, Hex2, Hp2, Hen2.
  - destruct (add_hash_collections (snd (is_duplicate d1 h ph thr)) h ph) as (Ha1 & Ha2 & Ha3).
    destruct (add_hash_collections (snd (is_duplicate d2 h ph thr)) h ph) as (Hb1 & Hb2 & Hb3).
    unfold same_collections.
    by rewrite Ha1, Ha2, Ha3, Hb1, Hb2, Hb3, Hex1, Hp1, Hen1, Hex2, Hp2, Hen2, Hex, Hp, Hen.
Qed.

Lemma remove_hash_same d1 d2 h :
  same_collections d1 d2 →
  fst (remove_hash d1 h) = fst (remove_hash d2 h) ∧
  same_collections (snd (remove_hash d1 h)) (snd (remove_hash d2 h)).
Proof.
  intros (Hex & Hp & Hen). destruct (decide (h ∈ exact_hashes d2)) as [Hin|Hout].
  - destruct (remove_hash_stored d1 h) as (Hr1 & He1 & Hp1 & Hn1); [by rewrite Hex|].
    destruct (remove_hash_stored d2 h Hin) as (Hr2 & He2 & Hp2 & Hn2).
    split; [congruence|]. unfold same_collections.
    by rewrite He1, He2, Hp1, Hp2, Hn1, Hn2, Hex, Hp, Hen.
  - rewrite (remove_hash_absent d1 h) by (by rewrite Hex).
    by rewrite (remove_hash_absent d2 h).
Qed.

Lemma run_ops_same ops : ∀ d1 d2,
  same_collections d1 d2 → same_collections (run_ops d1 ops) (run_ops d2 ops).
Proof.
  induction ops as [|op ops IH]; intros d1 d2 Hs; [done|].
  unfold run_ops. cbn [fold_left]. apply IH.
  destruct op as [h ph thr|h|]; simpl.
  - by apply check_and_add_same.
  - by apply remove_hash_same.
  - destruct Hs as (_ & _ & Hen). unfold same_collections. simpl. by rewrite Hen.
Qed.

(** X5.  [clear] starts the detector over as far as its hashes go, and only
    that far: whatever calls follow, it holds the hashes and gives the
    answers of a new detector put through the same calls, while its two
    counters carry on from where they were. *)
Theorem clear_starts_over d (ops : list detector_op) :
  let cleared := run_ops (clear d) ops in
  let new := run_ops (init (enable_perceptual_hashing d)) ops in
  exact_hashes cleared = exact_hashes new ∧
  perceptual_hashes cleared = perceptual_hashes new ∧
  (∀ h ph thr,
     fst (check_and_add cleared h ph thr) = fst (check_and_add new h ph thr)) ∧
  duplicate_count (clear d) = duplicate_count d ∧
  total_checked (clear d) = total_checked d ∧
  duplicate_rate (get_statistics (clear d)) = duplicate_rate (get_statistics d).
Proof.
  cbv zeta.
  assert (same_collections (run_ops (clear d) ops)
            (run_ops (init (enable_perceptual_hashing d)) ops)) as Hs
    by (by apply run_ops_same).
  split; [apply Hs|]. split; [apply Hs|]. split; [|done].
  intros h ph thr. by apply check_and_add_same.
Qed.

End DetectorMaintenance.

Section DetectorBatchAndDistance.

Import DuplicateDetector.

Implicit Types (d : t) (h p key k : string) (ph : option string) (thr : Z).

Lemma occurrences_snoc k (l : list string) x :
  occurrences k (l ++ [x]) = (occurrences k l + if decide (x = k) then 1 else 0)%nat.
Proof.
  unfold occurrences. rewrite filter_app, length_app. f_equal.
  rewrite filter_cons. by destruct (decide (x = k)).
Qed.

Lemma occurrences_pos k (l : list string) : k ∈ l ↔ (1 ≤ occurrences k l)%nat.
Proof.
  unfold occurrences. induction l as [|y l IH]; simpl.
  - split; [by intros ?%elem_of_nil|lia].
  - rewrite filter_cons, elem_of_cons. destruct (decide (y = k)) as [->|Hne]; simpl.
    + split; [lia|by left].
    + rewrite <- IH. split; [by intros [?|?]|by right].
Qed.

(** The state of the loop of [find_duplicates_in_batch] once it has gone
    through [seen_so_far]. *)
Lemma batch_loop_invariant (seen_so_far : list string) :
  let '(duplicates, seen) := fold_left batch_step seen_so_far (∅, ∅) in
  (∀ k, seen !! k = if decide (k ∈ seen_so_far) then Some k else None) ∧
  (∀ k, duplicates !! k =
        if decide (2 ≤ occurrences k seen_so_far)%nat
        then Some (replicate (occurrences k seen_so_far - 1) k) else None).
Proof.
  induction seen_so_far as [|x l IH] using rev_ind.
  - simpl. split; intros k; by rewrite lookup_empty.
  - rewrite fold_left_app. destruct (fold_left batch_step l (∅, ∅)) as [dup seen].
    destruct IH as [Hseen Hdup]. cbn [fold_left batch_step].
    rewrite Hseen. destruct (decide (x ∈ l)) as [Hin|Hout].
    + pose proof (proj1 (occurrences_pos x l) Hin) as Hpos. split.
      * intros k. rewrite Hseen.
        destruct (decide (k ∈ l)) as [Hk|Hk].
        -- by rewrite decide_True by (apply elem_of_app; by left).
        -- rewrite decide_False; [done|].
           intros [?| ->%list_elem_of_singleton]%elem_of_app; done.
      * intros k. rewrite occurrences_snoc.
        destruct (decide (x = k)) as [->|Hne].
        -- rewrite lookup_insert_eq, Hdup.
           rewrite (decide_True (P := (2 ≤ occurrences k l + 1)%nat)) by lia.
           f_equal. replace (occurrences k l + 1 - 1)%nat with (Datatypes.S (occurrences k l - 1)) by lia.
           rewrite replicate_S_end.
           by destruct (decide (2 ≤ occurrences k l)%nat) as [?|Hlt];
             [|replace (occurrences k l - 1)%nat with 0%nat by lia].
        -- rewrite lookup_insert_ne by done. rewrite Hdup, Nat.add_0_r. done.
    + assert (occurrences x l = 0%nat) as Hzero.
      { destruct (occurrences x l) eqn:E; [done|]. exfalso. apply Hout.
        apply occurrences_pos. lia. }
      split.
      * intros k. destruct (decide (x = k)) as [->|Hne].
        -- rewrite lookup_insert_eq.
           by rewrite decide_True by (apply elem_of_app; right; by left).
        -- rewrite lookup_insert_ne by done. rewrite Hseen.
           destruct (decide (k ∈ l)) as [Hk|Hk].
           ++ by rewrite decide_True by (apply elem_of_app; by left).
           ++ rewrite decide_False; [done|].
              intros [?| ->%list_elem_of_singleton]%elem_of_app; done.
      * intros k. rewrite occurrences_snoc, Hdup.
        destruct (decide (x = k)) as [->|Hne]; [|by rewrite Nat.add_0_r].
        rewrite Hzero. simpl. done.
Qed.

(** X6.  [find_duplicates_in_batch] maps exactly the hashes that occur more
    than once in the batch, and maps each of them to as many copies of
    itself as it has repeats: a hash that occurs [n >= 2] times has [n - 1]
    entries, a hash that occurs once or not at all has no key. *)
Theorem find_duplicates_in_batch_counts (hashes : list string) k :
  find_duplicates_in_batch hashes !! k =
  if decide (2 ≤ occurrences k hashes)%nat
  then Some (replicate (occurrences k hashes - 1) k)
  else None.
Proof.
  unfold find_duplicates_in_batch.
  pose proof (batch_loop_invariant hashes) as H.
  destruct (fold_left batch_step hashes (∅, ∅)) as [dup seen].
  by destruct H as [_ H].
Qed.

Lemma ones_positive (q : positive) : 0 < Py.ones q.
Proof. induction q; simpl; lia. Qed.

Lemma bin_count_ones_nonneg (n : Z) : 0 ≤ Py.bin_count_ones n.
Proof. destruct n as [|q|q]; simpl; [lia| |]; pose proof (ones_positive q); lia. Qed.

Lemma bin_count_ones_zero (n : Z) : Py.bin_count_ones n = 0 → n = 0.
Proof.
  destruct n as [|q|q]; simpl; [done| |]; pose proof (ones_positive q); lia.
Qed.

Lemma differing_bits_triangle a b c w :
  differing_bits a c w ≤ differing_bits a b w + differing_bits b c w.
Proof.
  induction w as [|w IH]; simpl; [lia|].
  destruct (Z.testbit a (Z.of_nat w)), (Z.testbit b (Z.of_nat w)),
    (Z.testbit c (Z.of_nat w)); simpl; lia.
Qed.

(** Three naturals fit in a common number of bits. *)
Lemma common_width a b c :
  0 ≤ a → 0 ≤ b → 0 ≤ c →
  ∃ w : nat, a < 2 ^ Z.of_nat w ∧ b < 2 ^ Z.of_nat w ∧ c < 2 ^ Z.of_nat w.
Proof.
  intros Ha Hb Hc. exists (Z.to_nat (a + b + c)).
  rewrite Z2Nat.id by lia.
  assert (a + b + c < 2 ^ (a + b + c)) by (apply Z.pow_gt_lin_r; lia). lia.
Qed.

(** X7.  The distance of [_hamming_distance] behaves as a distance on
    perceptual hashes that decode: it is symmetric; it is 0 from a hash to
    itself, and 0 only between hashes that decode to the same integer; it is
    infinite as soon as one side does not decode; and between hashes without
    a sign it obeys the triangle inequality. *)
Theorem hamming_distance_is_a_distance p q r :
  _hamming_distance p q = _hamming_distance q p ∧
  (∀ a, Py.int16 p = Some a → _hamming_distance p p = Finite 0) ∧
  (_hamming_distance p q = Finite 0 → Py.int16 p = Py.int16 q) ∧
  (Py.int16 p = None →
   _hamming_distance p q = Infinite ∧ _hamming_distance q p = Infinite) ∧
  (∀ a b c n1 n2,
     Py.int16 p = Some a → Py.int16 q = Some b → Py.int16 r = Some c →
     0 ≤ a → 0 ≤ b → 0 ≤ c →
     _hamming_distance p q = Finite n1 → _hamming_distance q r = Finite n2 →
     ∃ n3, _hamming_distance p r = Finite n3 ∧ 0 ≤ n3 ≤ n1 + n2).
Proof.
  assert (_hamming_distance p q = _hamming_distance q p) as Hsym.
  { unfold _hamming_distance. rewrite (Nat.eqb_sym (String.length q)).
    destruct (negb _); [done|].
    destruct (Py.int16 p) as [a|], (Py.int16 q) as [b|]; try done.
    by rewrite Z.lxor_comm. }
  split; [done|]. split; [|split; [|split]].
  - intros a Ha. unfold _hamming_distance. rewrite Nat.eqb_refl, Ha. simpl.
    by rewrite Z.lxor_nilpotent.
  - intros Hd. apply hamming_distance_finite in Hd as (_ & a & b & -> & -> & Hz).
    symmetry in Hz. apply bin_count_ones_zero, Z.lxor_eq in Hz. by subst.
  - intros Hnone. rewrite <- Hsym.
    assert (_hamming_distance p q = Infinite) as ->; [|done].
    unfold _hamming_distance. rewrite Hnone. by destruct (negb _).
  - intros a b c n1 n2 Ha Hb Hc Ha0 Hb0 Hc0 H1 H2.
    apply hamming_distance_finite in H1 as (Hl1 & a' & b' & Ha' & Hb' & ->).
    apply hamming_distance_finite in H2 as (Hl2 & b'' & c' & Hb'' & Hc' & ->).
    assert (a' = a) as -> by congruence. assert (b' = b) as -> by congruence.
    assert (b'' = b) as -> by congruence. assert (c' = c) as -> by congruence.
    exists (Py.bin_count_ones (Z.lxor a c)). split.
    + apply hamming_distance_finite. split; [congruence|]. by exists a, c.
    + split; [apply bin_count_ones_nonneg|].
      destruct (common_width a b c Ha0 Hb0 Hc0) as (w & Haw & Hbw & Hcw).
      rewrite !(bin_count_ones_lxor _ _ w) by lia.
      apply differing_bits_triangle.
Qed.

(** X8.  The two ends of the threshold.  Below 0 the perceptual path never
    fires: the verdict is membership of the exact hash, whatever is stored.
    From 0 on, with perceptual hashing enabled, a candidate whose perceptual
    hash decodes and is itself a stored bucket key is always a duplicate,
    whatever its exact hash. *)
Theorem threshold_extremes d h ph thr :
  (thr < 0 →
   fst (is_duplicate d h ph thr) = bool_decide (h ∈ exact_hashes d)) ∧
  (∀ p a,
     0 ≤ thr → enable_perceptual_hashing d = true →
     ph = Some p → Py.int16 p = Some a → is_Some (perceptual_hashes d !! p) →
     fst (is_duplicate d h ph thr) = true).
Proof.
  split.
  - intros Hneg. case_bool_decide as Hin.
    + apply is_duplicate_verdict. by left.
    + destruct (fst (is_duplicate d h ph thr)) eqn:E; [|done].
      apply is_duplicate_verdict in E as [?|[_ (p & key & _ & _ & _ & Hd)]]; [done|].
      apply distance_le_true in Hd as (_ & a & b & _ & _ & Hle).
      pose proof (bin_count_ones_nonneg (Z.lxor a b)). lia.
  - intros p a Hthr Hen -> Ha Hstored. apply is_duplicate_verdict. right.
    split; [done|]. exists p, p. split; [done|]. split.
    { intros ->. vm_compute in Ha. done. }
    split; [done|]. apply distance_le_true. split; [done|].
    exists a, a. rewrite Z.lxor_nilpotent. simpl. done.
Qed.

(** X9.  [import_hashes] takes what the structure has and nothing else.  A
    structure without the two keys empties the detector as [clear] does; the
    counters and the perceptual switch are never touched; and exporting
    again what was imported from a list without repetition gives that list
    back up to order, next to the same buckets. *)
Theorem import_hashes_takes_the_structure d (data : exported) :
  duplicate_count (import_hashes d data) = duplicate_count d ∧
  total_checked (import_hashes d data) = total_checked d ∧
  enable_perceptual_hashing (import_hashes d data) = enable_perceptual_hashing d ∧
  (data_exact_hashes data = None → data_perceptual_hashes data = None →
   import_hashes d data = clear d) ∧
  (∀ l buckets,
     data_exact_hashes data = Some l → data_perceptual_hashes data = Some buckets →
     (∀ h, h ∈ exact_hashes (import_hashes d data) ↔ h ∈ l) ∧
     data_perceptual_hashes (export_hashes (import_hashes d data)) = Some buckets ∧
     (NoDup l →
      ∃ l', data_exact_hashes (export_hashes (import_hashes d data)) = Some l' ∧
            l' ≡ₚ l)).
Proof.
  split; [done|]. split; [done|]. split; [done|]. split.
  - intros He Hp. unfold import_hashes, clear. by rewrite He, Hp.
  - intros l buckets He Hp. unfold import_hashes, export_hashes. simpl.
    rewrite He, Hp. simpl. split; [|split; [done|]].
    + intros h. apply elem_of_list_to_set.
    + intros Hnd. eexists. split; [done|]. by apply elements_list_to_set.
Qed.

End DetectorBatchAndDistance.

Section RetryAccounting.

Import RetryHandler.

Context {S A : Type}.

Implicit Types (self : t) (func : Py.operation S A) (w : Py.world S A) (e : Py.exn).

Lemma same_policy_refl self : same_policy self self.
Proof. by repeat split. Qed.

Lemma is_retryable_policy self self' e :
  same_policy self self' → _is_retryable self' e = _is_retryable self e.
Proof. intros (_ & _ & _ & _ & _ & Hr). unfold _is_retryable. by rewrite Hr. Qed.





Lemma float_pow_cases (x : Q) (n : Z) :
  0 ≤ n →
  Py.float_pow x n = Py.Return (x ^ n)%Q ∨
  Py.float_pow x n = Py.Raise out_of_range ∧
    2 ≤ n ∧ (Py.float_overflow <= Qabs (x ^ n))%Q.
Proof.
  intros Hn. unfold Py.float_pow.
  destruct (Z.eqb_spec n 0) as [->|H0]; [by left|].
  destruct (Z.eqb_spec n 1) as [->|H1]; [by left|]. cbn [orb].
  destruct (Z.ltb_spec n 0) as [Hneg|_]; [lia|]. cbn [andb].
  destruct (Py.Qleb Py.float_overflow (Qabs (x ^ n))) eqn:E; [|by left].
  right. split; [done|]. split; [lia|]. by apply Qleb_true_iff.
Qed.





(** X11.  With [max_retries <= 0] the operation is never invoked: the loop has
    no iteration and the final [raise last_exception] raises [None], which
    is a [TypeError]; handler and world are as before. *)
Theorem no_attempts_raises_type_error self func w :
  max_retries self ≤ 0 →
  execute_with_retry self func w =
  (Py.Raise (Py.TypeError "exceptions must derive from BaseException"), self, w).
Proof.
  intros Hmax. unfold execute_with_retry.
  by replace (Z.to_nat (max_retries self)) with 0%nat by lia.
Qed.

(** X12.  A failure whose class does not derive from [Exception] is not
    caught by [except Exception]: it leaves [execute_with_retry] at once,
    after that single invocation, whether or not a filter is configured and
    whatever it lists; only [total_attempts] has moved. *)
Theorem base_exception_is_never_retried self func w e :
  1 ≤ max_retries self →
  fst (Py.invoke func w) = Py.Raise e →
  Py.isinstance e "Exception" = false →
  execute_with_retry self func w =
  (Py.Raise e, set_total_attempts (total_attempts self + 1) self,
   snd (Py.invoke func w)).
Proof.
  intros Hmax Hinv Hexc. unfold execute_with_retry.
  destruct (Z.to_nat (max_retries self)) as [|n] eqn:En; [lia|].
  cbn [retry_loop]. destruct (Py.invoke func w) as [r w1]. simpl in Hinv. subst r.
  by rewrite Hexc.
Qed.





End RetryAccounting.

Section BackoffDelays.

Import RetryHandler.

Context {S A : Type}.

Implicit Types (self : t) (w : Py.world S A).

Lemma max_0_nonneg (x : Q) : (0 <= Py.max 0 x)%Q.
Proof.
  destruct (Qlt_le_dec 0 x) as [H|H]; [rewrite max_r by done; lra|].
  rewrite max_l by done. lra.
Qed.

Lemma max_0_id (x : Q) : (0 <= x)%Q → (Py.max 0 x == x)%Q.
Proof.
  intros H. destruct (Qlt_le_dec 0 x) as [H'|H'];
    [by rewrite max_r|rewrite max_l by done; lra].
Qed.

Lemma min_le_r (x y : Q) : (Py.min x y <= y)%Q.
Proof.
  destruct (Qlt_le_dec y x) as [H|H]; [rewrite min_r by done; lra|by rewrite min_l].
Qed.

Lemma min_mono_l (x x' y : Q) : (x <= x')%Q → (Py.min x y <= Py.min x' y)%Q.
Proof.
  intros Hx.
  destruct (Qlt_le_dec y x) as [H|H], (Qlt_le_dec y x') as [H'|H'];
    rewrite ?(min_r _ _ H), ?(min_l _ _ H), ?(min_r _ _ H'), ?(min_l _ _ H'); lra.
Qed.

Lemma min_nonneg (x y : Q) : (0 <= x)%Q → (0 <= y)%Q → (0 <= Py.min x y)%Q.
Proof.
  intros Hx Hy. destruct (Qlt_le_dec y x) as [H|H];
    [by rewrite min_r|by rewrite min_l].
Qed.

(** The delay before the jitter. *)
Lemma raw_delay_spec self attempt :
  (0 <= base_delay self)%Q → (1 <= exponential_base self)%Q → 0 ≤ attempt →
  (raw_delay self attempt <= raw_delay self (attempt + 1))%Q ∧
  (raw_delay self attempt <= max_delay self)%Q ∧
  ((0 <= max_delay self)%Q → (0 <= raw_delay self attempt)%Q).
Proof.
  intros Hb He Ha. unfold raw_delay.
  assert (0 <= exponential_base self ^ attempt)%Q as Hp by (apply Qpower_0_le; lra).
  split; [|split].
  - apply min_mono_l. rewrite Qpower_plus by lra. rewrite Qpower_1_r.
    assert (0 <= base_delay self * exponential_base self ^ attempt)%Q
      by (by apply Qmult_le_0_compat).
    nra.
  - apply min_le_r.
  - intros Hm. apply min_nonneg; [|done]. by apply Qmult_le_0_compat.
Qed.

(** The powers of the default base 2.0 are out of range from the 1024th. *)
Lemma float_pow_two_overflow (n : Z) :
  1024 ≤ n → Py.float_pow 2 n = Py.Raise out_of_range.
Proof.
  intros Hn. unfold Py.float_pow.
  destruct (Z.eqb_spec n 0) as [->|_]; [lia|].
  destruct (Z.eqb_spec n 1) as [->|_]; [lia|]. cbn [orb].
  destruct (Z.ltb_spec n 0) as [Hneg|_]; [lia|]. cbn [andb].
  assert (Py.Qleb Py.float_overflow (Qabs (2 ^ n)) = true) as ->; [|done].
  apply Qleb_true_iff.
  assert (0 <= 2 ^ n)%Q as Hpos by (apply Qpower_0_le; lra).
  rewrite Qabs_pos by done.
  apply Qle_trans with (2 ^ 1024)%Q.
  - unfold Py.float_overflow. vm_compute. discriminate.
  - apply Qpower_le_compat_l; [lia|lra].
Qed.

Lemma calculate_delay_in_range self attempt w :
  Py.float_pow (exponential_base self) attempt
    = Py.Return (exponential_base self ^ attempt)%Q →
  _calculate_delay self attempt w =
    if jitter self then
      let jitter_range := (raw_delay self attempt * (1 # 4))%Q in
      (Py.Return
         (Py.max 0 (raw_delay self attempt
                    + fst (Py.uniform (- jitter_range) jitter_range w))),
       snd (Py.uniform (- jitter_range) jitter_range w))
    else (Py.Return (Py.max 0 (raw_delay self attempt)), w).
Proof.
  intros Hpow. unfold _calculate_delay, raw_delay. rewrite Hpow.
  by destruct (jitter self).
Qed.

(** X14.  The back-off delay of an attempt.  [_calculate_delay] raises
    exactly when the power [exponential_base ** attempt] is out of range,
    which takes an attempt from 2 on; it then raises the [OverflowError] of
    the power whatever [max_delay] is, and has drawn no random number.
    Otherwise it returns a delay that is never negative, so that
    [time.sleep] never rejects it.  With [base_delay >= 0],
    [exponential_base >= 1] and [max_delay >= 0] the delay without jitter
    is [min(base_delay * exponential_base ** attempt, max_delay)], at most
    [max_delay] and at most the delay of the next attempt, if that can be
    computed; with jitter and a draw between 0 and 1 the delay stays within
    a quarter of that value, on either side.  With the default base 2.0 the
    delay can be computed up to attempt 1023 and not from attempt 1024
    on. *)
Theorem backoff_delay_bounds self (attempt : Z) w :
  0 ≤ attempt →
  let outcome := fst (_calculate_delay self attempt w) in
  (outcome = Py.Raise out_of_range ∧ snd (_calculate_delay self attempt w) = w ∧
   2 ≤ attempt ∧ (Py.float_overflow <= Qabs (exponential_base self ^ attempt))%Q
   ∨ ∃ delay,
       outcome = Py.Return delay ∧ (0 <= delay)%Q ∧
       Py.float_pow (exponential_base self) attempt
         = Py.Return (exponential_base self ^ attempt)%Q ∧
       ((0 <= base_delay self)%Q → (1 <= exponential_base self)%Q →
        (0 <= max_delay self)%Q →
        (jitter self = false →
         (delay == raw_delay self attempt)%Q ∧ (delay <= max_delay self)%Q ∧
         snd (_calculate_delay self attempt w) = w ∧
         (∀ next, fst (_calculate_delay self (attempt + 1) w) = Py.Return next →
                  (delay <= next)%Q)) ∧
        (jitter self = true →
         (0 <= Py.rng w (Py.draws w))%Q → (Py.rng w (Py.draws w) <= 1)%Q →
         (raw_delay self attempt * (3 # 4) <= delay)%Q ∧
         (delay <= raw_delay self attempt * (5 # 4))%Q ∧
         Py.draws (snd (_calculate_delay self attempt w)) = Datatypes.S (Py.draws w)))) ∧
  (exponential_base self = 2%Q →
   (attempt ≤ 1023 → ∃ delay, outcome = Py.Return delay) ∧
   (1024 ≤ attempt → outcome = Py.Raise out_of_range)).
Proof.
  intros Ha. cbv zeta. split.
  - destruct (float_pow_cases (exponential_base self) attempt Ha)
      as [Hpow|(Hpow & H2 & Hbig)].
    + right. rewrite (calculate_delay_in_range self attempt w Hpow).
      destruct (jitter self) eqn:Hj; cbn [fst snd]; eexists; (split; [reflexivity|]);
        (split; [apply max_0_nonneg|]); (split; [done|]); intros Hb He Hm;
        destruct (raw_delay_spec self attempt Hb He Ha) as (Hmono & Hcap & Hnn);
        specialize (Hnn Hm).
      * split; [done|]. intros _ Hlo Hhi. unfold Py.uniform. cbn [fst snd Py.draws].
        set (raw := raw_delay self attempt) in *. set (u := Py.rng w (Py.draws w)) in *.
        assert (0 <= raw + (- (raw * (1 # 4)) + (raw * (1 # 4) - - (raw * (1 # 4))) * u))%Q
          as Hjit by nra.
        rewrite max_0_id by done. split; [nra|]. split; [nra|done].
      * split; [|done]. intros _.
        split; [by apply max_0_id|]. split; [by rewrite max_0_id|].
        split; [done|]. intros next.
        destruct (float_pow_cases (exponential_base self) (attempt + 1))
          as [Hpow'|(Hpow' & _)]; [lia| |].
        -- rewrite (calculate_delay_in_range self (attempt + 1) w Hpow'), Hj.
           cbn [fst]. intros [= <-].
           destruct (raw_delay_spec self (attempt + 1) Hb He) as (_ & _ & Hnn'); [lia|].
           specialize (Hnn' Hm). rewrite !max_0_id by done. done.
        -- unfold _calculate_delay. by rewrite Hpow'.
    + left. unfold _calculate_delay. rewrite Hpow. done.
  - intros Hbase. unfold _calculate_delay. rewrite Hbase. split.
    + intros Hle. rewrite float_pow_two by lia.
      destruct (jitter self); simpl; eauto.
    + intros Hge. by rewrite float_pow_two_overflow.
Qed.

End BackoffDelays.


Section DecoratedCalls.

Import RetryHandler.

Context {S A : Type}.

Implicit Types (self : t) (func : Py.operation S A) (w : Py.world S A).

Lemma calculate_delay_policy self self' attempt w :
  same_policy self self' →
  _calculate_delay self' attempt w = _calculate_delay self attempt w.
Proof.
  intros (_ & Hb & Hm & He & Hj & _). unfold _calculate_delay.
  by rewrite Hb, Hm, He, Hj.
Qed.

(** The counters of the handler take no part in what the loop does. *)
Lemma retry_loop_policy func n : ∀ attempt self self' w last,
  same_policy self self' →
  fst (fst (retry_loop n attempt self' func w last))
    = fst (fst (retry_loop n attempt self func w last)) ∧
  snd (retry_loop n attempt self' func w last)
    = snd (retry_loop n attempt self func w last).
Proof.
  induction n as [|n IH]; intros attempt self self' w last Hp; [done|].
  cbn [retry_loop].
  destruct (Py.invoke func w) as [[v|e] w1]; [done|].
  destruct (negb (Py.isinstance e "Exception")); [done|].
  assert (same_policy (set_total_attempts (total_attempts self + 1) self)
                      (set_total_attempts (total_attempts self' + 1) self')) as Hp1
    by exact Hp.
  rewrite (is_retryable_policy _ _ e Hp1).
  destruct (negb (_is_retryable _ e)); [done|].
  cbn [max_retries set_total_attempts].
  destruct Hp as (Hmax & Hrest). rewrite Hmax.
  destruct (attempt >=? max_retries self - 1); [done|].
  set (s1 := set_total_retries _ (set_total_attempts (total_attempts self + 1) self)).
  set (s1' := set_total_retries _ (set_total_attempts (total_attempts self' + 1) self')).
  assert (same_policy s1 s1') as Hp2 by (split; [exact Hmax|exact Hrest]).
  rewrite (calculate_delay_policy s1 s1' attempt w1 Hp2).
  destruct (_calculate_delay s1 attempt w1) as [[delay|err] w2]; [|done].
  destruct (Py.sleep delay w2) as [[[]|err] w3]; [|done].
  by apply IH.
Qed.

(** X15.  A function decorated with [retry_with_backoff] behaves, on every
    call, as [execute_with_retry] of any handler with the same policy,
    whatever that handler has counted before: the same outcome after the
    same invocations, sleeps and random draws.  The statistics of a handler
    steer nothing, and the handler that the decorator builds for each call
    and then drops loses nothing but them. *)
Theorem decorated_call_is_a_handler_run self func w :
  retry_with_backoff (max_retries self) (base_delay self) (max_delay self)
    (exponential_base self) (jitter self) (retryable_exceptions self) func w
  = (fst (fst (execute_with_retry self func w)), snd (execute_with_retry self func w)).
Proof.
  unfold retry_with_backoff, execute_with_retry.
  set (handler := init _ _ _ _ _ _).
  assert (same_policy self handler) as Hp by by repeat split.
  destruct (retry_loop_policy func (Z.to_nat (max_retries self)) 0 self handler w None Hp)
    as [Ho Hw].
  change (max_retries handler) with (max_retries self).
  destruct (retry_loop _ 0 handler func w None) as [[outcome h] w'].
  simpl in Ho, Hw. by rewrite Ho, Hw.
Qed.

End DecoratedCalls.

Section CircuitBreakerRuns.

Import CircuitBreaker.

Context {S A : Type}.

Implicit Types (cb : t) (func : Py.operation S A) (w : Py.world S A) (e : Py.exn).

(** What a call never changes. *)
Lemma call_keeps_configuration cb func w :
  failure_threshold (snd (fst (call cb func w))) = failure_threshold cb ∧
  recovery_timeout (snd (fst (call cb func w))) = recovery_timeout cb ∧
  expected_exception (snd (fst (call cb func w))) = expected_exception cb.
Proof.
  unfold call, admission, _record_failure, _reset.
  destruct (state cb) eqn:Est; simpl;
    try destruct (_should_attempt_reset cb w); simpl; try done;
    destruct (Py.invoke func w) as [[v|e] w1]; simpl; rewrite ?Est; simpl; try done;
    destruct (Py.isinstance e (expected_exception cb)); simpl; try done;
    destruct (_ >=? _); done.
Qed.

(** A call on a breaker that is not open, or that is open and due for a
    probe, invokes the operation; the breaker it works on is [passed]. *)
Lemma call_let_through cb passed func w :
  admission cb w = inr passed →
  call cb func w =
  match fst (Py.invoke func w) with
  | Py.Return v =>
      (Py.Return v,
       match state passed with HALF_OPEN => _reset passed | _ => passed end,
       snd (Py.invoke func w))
  | Py.Raise e =>
      (Py.Raise e,
       if Py.isinstance e (expected_exception passed)
       then _record_failure passed (snd (Py.invoke func w)) else passed,
       snd (Py.invoke func w))
  end.
Proof.
  intros Hadm. unfold call. rewrite Hadm.
  destruct (Py.invoke func w) as [[v|e] w1]; simpl; [done|].
  by destruct (Py.isinstance e (expected_exception passed)).
Qed.

Lemma admission_cases cb w :
  (state cb = OPEN ∧ _should_attempt_reset cb w = false ∧
   admission cb w = inl (circuit_open cb)) ∨
  (state cb = OPEN ∧ _should_attempt_reset cb w = true ∧
   admission cb w = inr (set_state HALF_OPEN cb)) ∨
  (state cb ≠ OPEN ∧ admission cb w = inr cb).
Proof.
  unfold admission. destruct (state cb) eqn:Est.
  - right. right. done.
  - destruct (_should_attempt_reset cb w); [right; left|left]; done.
  - right. right. done.
Qed.

Lemma record_failure_consistent cb w :
  breaker_consistent cb → breaker_consistent (_record_failure cb w).
Proof.
  intros [Hnn Hst]. unfold _record_failure, breaker_consistent. simpl.
  destruct (Z.geb_spec (failure_count cb + 1) (failure_threshold cb)) as [Hge|Hlt]; simpl.
  - split; [lia|]. split; [lia|eauto].
  - split; [lia|]. destruct (state cb); [lia|lia|lia].
Qed.

Lemma call_consistent cb func w :
  1 ≤ failure_threshold cb →
  breaker_consistent cb → breaker_consistent (snd (fst (call cb func w))).
Proof.
  intros Hthr Hc.
  destruct (admission_cases cb w) as [(Hst & _ & Hadm)|[(Hst & _ & Hadm)|(Hst & Hadm)]].
  - unfold call. by rewrite Hadm.
  - assert (breaker_consistent (set_state HALF_OPEN cb)) as Hc'.
    { destruct Hc as [Hnn Hopen]. rewrite Hst in Hopen. by split. }
    rewrite (call_let_through cb _ func w Hadm).
    destruct (fst (Py.invoke func w)) as [v|e]; simpl.
    + split; simpl; lia.
    + destruct (Py.isinstance e (expected_exception cb)); simpl; [|done].
      by apply record_failure_consistent.
  - rewrite (call_let_through cb _ func w Hadm).
    destruct (fst (Py.invoke func w)) as [v|e]; simpl.
    + destruct (state cb) eqn:Est; [done|done|]. split; simpl; lia.
    + destruct (Py.isinstance e (expected_exception cb)); simpl; [|done].
      by apply record_failure_consistent.
Qed.

Lemma calls_snoc cb (steps : list (Py.operation S A * Py.world S A)) func w :
  calls cb (steps ++ [(func, w)]) = snd (fst (call (calls cb steps) func w)).
Proof. unfold calls. by rewrite fold_left_app. Qed.

(** X16.  However a breaker built with [failure_threshold >= 1] is used, its
    fields fit its state after every call: while it is [CLOSED] it has
    counted fewer failures than the threshold, and while it is [OPEN] or
    [HALF_OPEN] it has counted at least the threshold and holds the time of
    its last failure; its configuration never changes. *)
Theorem breaker_stays_consistent (threshold : Z) (recovery : Q) (expected : string)
    (steps : list (Py.operation S A * Py.world S A)) :
  1 ≤ threshold →
  let cb := calls (init threshold recovery expected) steps in
  breaker_consistent cb ∧
  failure_threshold cb = threshold ∧ recovery_timeout cb = recovery ∧
  expected_exception cb = expected.
Proof.
  intros Hthr. cbv zeta. induction steps as [|[func w] steps IH] using rev_ind.
  - simpl. split; [|done]. split; simpl; lia.
  - rewrite calls_snoc. destruct IH as (Hc & Ht & Hr & He).
    destruct (call_keeps_configuration (calls (init threshold recovery expected) steps)
                func w) as (-> & -> & ->).
    split; [|done]. apply call_consistent; [lia|done].
Qed.

Lemma expected_failures_snoc expected (steps : list (Py.operation S A * Py.world S A)) step :
  expected_failures expected (steps ++ [step]) =
  (expected_failures expected steps + if fails_as expected step then 1 else 0)%nat.
Proof.
  unfold expected_failures. rewrite filter_app, length_app. f_equal.
  rewrite filter_cons.
  destruct (decide (fails_as expected step = true)) as [->|Hf]; [done|].
  by destruct (fails_as expected step).
Qed.

(** A call on a closed breaker. *)
Lemma call_closed cb func w :
  state cb = CLOSED →
  snd (call cb func w) = snd (Py.invoke func w) ∧
  snd (fst (call cb func w)) =
    if fails_as (expected_exception cb) (func, w)
    then _record_failure cb (snd (Py.invoke func w)) else cb.
Proof.
  intros Hst. rewrite (call_let_through cb cb func w) by (unfold admission; by rewrite Hst).
  unfold fails_as. simpl.
  destruct (fst (Py.invoke func w)) as [v|e]; simpl; [by rewrite Hst|].
  by destruct (Py.isinstance e (expected_exception cb)).
Qed.

Lemma record_failure_fields cb w :
  failure_count (_record_failure cb w) = failure_count cb + 1 ∧
  last_failure_time (_record_failure cb w) = Some (Py.clock w) ∧
  state (_record_failure cb w) =
    (if failure_count cb + 1 >=? failure_threshold cb then OPEN else state cb) ∧
  failure_threshold (_record_failure cb w) = failure_threshold cb ∧
  recovery_timeout (_record_failure cb w) = recovery_timeout cb ∧
  expected_exception (_record_failure cb w) = expected_exception cb.
Proof.
  unfold _record_failure. simpl.
  by destruct (failure_count cb + 1 >=? failure_threshold cb).
Qed.

Lemma closed_counts (steps : list (Py.operation S A * Py.world S A)) :
  ∀ threshold recovery expected,
  Z.of_nat (expected_failures expected steps) < threshold →
  let cb := calls (init threshold recovery expected) steps in
  state cb = CLOSED ∧
  failure_count cb = Z.of_nat (expected_failures expected steps) ∧
  failure_threshold cb = threshold ∧ expected_exception cb = expected.
Proof.
  induction steps as [|[func w] steps IH] using rev_ind;
    intros threshold recovery expected Hlt; cbv zeta; [done|].
  rewrite expected_failures_snoc in *. rewrite calls_snoc.
  specialize (IH threshold recovery expected).
  set (cb := calls (init threshold recovery expected) steps) in *.
  destruct IH as (Hst & Hcount & Hthr & Hexp).
  { destruct (fails_as expected (func, w)); lia. }
  destruct (call_closed cb func w Hst) as [_ ->]. rewrite Hexp.
  destruct (fails_as expected (func, w)) eqn:Hf.
  - destruct (record_failure_fields cb (snd (Py.invoke func w)))
      as (-> & _ & -> & -> & _ & ->).
    rewrite Hcount, Hthr.
    destruct (Z.geb_spec (Z.of_nat (expected_failures expected steps) + 1) threshold);
      [lia|].
    repeat split; try done; lia.
  - rewrite Nat.add_0_r. done.
Qed.

(** X17.  A closed breaker counts every failure of the configured class and
    forgets none: returns and failures of other classes in between do not
    put the count back.  As long as fewer than [failure_threshold] of the
    calls have failed that way the breaker is [CLOSED], [failure_count] is
    the number of these failures and the next call invokes its operation;
    the call that brings the number to the threshold opens the breaker. *)
Theorem closed_breaker_counts_every_failure (threshold : Z) (recovery : Q)
    (expected : string) (steps : list (Py.operation S A * Py.world S A)) :
  Z.of_nat (expected_failures expected steps) < threshold →
  let cb := calls (init threshold recovery expected) steps in
  state cb = CLOSED ∧
  failure_count cb = Z.of_nat (expected_failures expected steps) ∧
  (∀ func w, snd (call cb func w) = snd (Py.invoke func w)) ∧
  (∀ func w,
     fails_as expected (func, w) = true →
     Z.of_nat (expected_failures expected steps) + 1 = threshold →
     state (calls (init threshold recovery expected) (steps ++ [(func, w)])) = OPEN).
Proof.
  intros Hlt. cbv zeta.
  destruct (closed_counts steps threshold recovery expected Hlt)
    as (Hst & Hcount & Hthr & Hexp).
  set (cb := calls (init threshold recovery expected) steps) in *.
  split; [done|]. split; [done|]. split.
  - intros func w. by apply call_closed.
  - intros func w Hf Hlast. rewrite calls_snoc. fold cb.
    destruct (call_closed cb func w Hst) as [_ ->]. rewrite Hexp, Hf.
    destruct (record_failure_fields cb (snd (Py.invoke func w)))
      as (_ & _ & -> & _).
    rewrite Hcount, Hthr.
    destruct (Z.geb_spec (Z.of_nat (expected_failures expected steps) + 1) threshold);
      [done|lia].
Qed.

(** X18.  A probe that fails re-opens the circuit and restarts the timeout.
    On an open breaker whose count has reached the threshold, a call made
    once [recovery_timeout] has passed invokes the operation; if that fails
    with the configured class, the breaker is [OPEN] again with one more
    failure counted and the time of this failure recorded, and a call made
    less than [recovery_timeout] after it is rejected without invoking
    anything. *)
Theorem failed_probe_reopens cb func w e (failed : Q) :
  breaker_consistent cb →
  state cb = OPEN → last_failure_time cb = Some failed →
  (recovery_timeout cb <= Py.clock w - failed)%Q →
  fst (Py.invoke func w) = Py.Raise e →
  Py.isinstance e (expected_exception cb) = true →
  let cb' := snd (fst (call cb func w)) in
  let refreshed := Py.clock (snd (Py.invoke func w)) in
  call cb func w = (Py.Raise e, cb', snd (Py.invoke func w)) ∧
  state cb' = OPEN ∧ failure_count cb' = failure_count cb + 1 ∧
  last_failure_time cb' = Some refreshed ∧
  (∀ func2 w2, (Py.clock w2 - refreshed < recovery_timeout cb)%Q →
     call cb' func2 w2 = (Py.Raise (circuit_open cb'), cb', w2)).
Proof.
  intros [Hnn Hc] Hst Hlast Hdue Hinv Hexp. cbv zeta. rewrite Hst in Hc.
  assert (admission cb w = inr (set_state HALF_OPEN cb)) as Hadm.
  { unfold admission, _should_attempt_reset. rewrite Hst, Hlast.
    by rewrite (proj2 (Qleb_true_iff _ _) Hdue). }
  rewrite (call_let_through cb _ func w Hadm), Hinv. cbn [expected_exception set_state].
  rewrite Hexp. cbn [fst snd].
  destruct (record_failure_fields (set_state HALF_OPEN cb) (snd (Py.invoke func w)))
    as (Hcount & Htime & Hstate & Hthr & Hrec & _).
  simpl in Hcount, Hstate, Hthr, Hrec.
  destruct (Z.geb_spec (failure_count cb + 1) (failure_threshold cb)) as [_|Hlt]; [|lia].
  split; [done|]. split; [done|]. split; [done|]. split; [done|].
  intros func2 w2 Hearly. unfold call, admission, _should_attempt_reset.
  rewrite Hstate, Htime, Hrec.
  by rewrite (proj2 (Qleb_false_iff _ _) Hearly).
Qed.

(** X19.  A failure outside the configured class passes through the breaker
    without a trace in its count or its failure time.  On a breaker that is
    not open the breaker is left exactly as it was; on an open breaker that
    is due for a probe it is left [HALF_OPEN], and from there every further
    call invokes its operation, whatever the time. *)
Theorem unexpected_failure_is_not_counted cb func w e :
  fst (Py.invoke func w) = Py.Raise e →
  Py.isinstance e (expected_exception cb) = false →
  let cb' := snd (fst (call cb func w)) in
  failure_count cb' = failure_count cb ∧
  last_failure_time cb' = last_failure_time cb ∧
  (state cb ≠ OPEN → call cb func w = (Py.Raise e, cb, snd (Py.invoke func w))) ∧
  (state cb = OPEN → _should_attempt_reset cb w = true →
   call cb func w = (Py.Raise e, set_state HALF_OPEN cb, snd (Py.invoke func w)) ∧
   ∀ func2 w2, snd (call cb' func2 w2) = snd (Py.invoke func2 w2)).
Proof.
  intros Hinv Hexp. cbv zeta.
  destruct (admission_cases cb w) as [(Hst & Hno & Hadm)|[(Hst & Hyes & Hadm)|(Hst & Hadm)]].
  - unfold call. rewrite Hadm. cbn [fst snd]. split; [done|]. split; [done|].
    split; [done|]. intros _ Hdue. congruence.
  - rewrite (call_let_through cb _ func w Hadm), Hinv. cbn [expected_exception set_state].
    rewrite Hexp. cbn [fst snd]. split; [done|]. split; [done|]. split; [done|].
    intros _ _. split; [done|]. intros func2 w2.
    by rewrite (call_let_through (set_state HALF_OPEN cb) (set_state HALF_OPEN cb) func2 w2);
      [destruct (fst (Py.invoke func2 w2))|].
  - rewrite (call_let_through cb _ func w Hadm), Hinv, Hexp. cbn [fst snd].
    split; [done|]. split; [done|]. split; [done|]. intros Hopen. done.
Qed.

End CircuitBreakerRuns.

Section FixedIntervalProperties.

Import RateLimiter.

Context {S A : Type}.

Implicit Types (self : t) (w : Py.world S A).














End FixedIntervalProperties.

Section TokenBucketOverTime.

Import RateLimiter.

Context {S A : Type}.

Implicit Types (self : t) (w : Py.world S A).





(** A call after an idle period that has let at least one token accrue. *)
Lemma take_token_after_idle self w tokens refilled (c : Q) :
  (base_delay self == 0)%Q →
  bucket self = Some (tokens, refilled) →
  (c <= tokens + (Py.clock w - refilled) * requests_per_second self)%Q →
  (c <= inject_Z (burst_size self))%Q → (1 <= c)%Q →
  ∃ self' c',
    wait_with_token_bucket self w = (Py.Return 0%Q, self', w) ∧
    holds_tokens self' w c' ∧ (c - 1 <= c')%Q ∧
    (c' <= inject_Z (burst_size self))%Q ∧ same_config self self'.
Proof.
  intros Hbase Hbk Hacc Hcap H1.
  unfold wait_with_token_bucket. rewrite Hbk.
  set (sum := (tokens + (Py.clock w - refilled) * requests_per_second self)%Q) in *.
  set (filled := Py.min (inject_Z (burst_size self)) sum).
  assert (c <= filled)%Q as Hc.
  { subst filled. destruct (Qlt_le_dec sum (inject_Z (burst_size self))) as [H|H].
    - by rewrite min_r.
    - by rewrite min_l. }
  assert (filled <= inject_Z (burst_size self))%Q as Hf.
  { subst filled. destruct (Qlt_le_dec sum (inject_Z (burst_size self))) as [H|H].
    - rewrite min_r by done. lra.
    - rewrite min_l by done. lra. }
  assert (Py.Qleb 1 filled = true) as -> by (apply Qleb_true_iff; lra).
  assert (Py.Qltb 0 (base_delay (set_bucket (filled - 1) (Py.clock w) self)) = false)
    as -> by (apply Qltb_false_iff; simpl; lra).
  exists (track 0 (set_bucket (filled - 1) (Py.clock w) self) w), (filled - 1)%Q.
  split; [done|]. unfold holds_tokens, same_config. simpl.
  repeat split; try done; lra.
Qed.

(** X24.  Tokens accrue while the limiter is idle.  After a pause that is
    worth at least [2 * n] tokens at the configured rate, [n] calls in a row
    go through without waiting, for every [n] up to [burst_size], on a
    limiter without base delay, whatever the bucket held before.  The factor
    2 leaves room for the rounding of the refill: a pause worth just [n]
    tokens can leave the bucket of the code a rounding error short of the
    [n]-th token. *)
Theorem idle_time_buys_calls self w tokens refilled (n : nat) :
  (base_delay self == 0)%Q →
  bucket self = Some (tokens, refilled) → (0 <= tokens)%Q →
  Z.of_nat n ≤ burst_size self →
  (2 * inject_Z (Z.of_nat n) <= (Py.clock w - refilled) * requests_per_second self)%Q →
  fst (fst (burst n self w)) = replicate n (Py.Return 0%Q) ∧
  snd (burst n self w) = w.
Proof.
  intros Hbase Hbk Htok Hcap Hacc. destruct n as [|n]; [done|].
  assert (0 <= inject_Z (Z.of_nat (Datatypes.S n)))%Q as Hn0.
  { change 0%Q with (inject_Z 0). rewrite <- Zle_Qle. lia. }
  destruct (take_token_after_idle self w tokens refilled (inject_Z (Z.of_nat (Datatypes.S n))))
    as (self1 & c' & Hcall & Hh & Hlo & Hhi & (Hr1 & Hb1 & Hs1)); [done|done|lra| | |].
  { by rewrite <- Zle_Qle. }
  { change 1%Q with (inject_Z 1). rewrite <- Zle_Qle. lia. }
  rewrite Nat2Z.inj_succ in Hlo. unfold Z.succ in Hlo. rewrite inject_Z_plus in Hlo.
  change (inject_Z 1) with 1%Q in Hlo.
  destruct (burst_takes_tokens n self1 w c') as (self' & Hrest & _);
    [by rewrite Hb1|done|lra|by rewrite Hs1|].
  cbn [burst replicate]. by rewrite Hcall, Hrest.
Qed.

End TokenBucketOverTime.

Section AdaptiveRuns.

Import AdaptiveRateLimiter.

Implicit Types (self : t) (f : feedback).

Lemma deque_append_length {X} (n : nat) (q : list X) (x : X) :
  (1 ≤ n)%nat → (length (Py.deque_append n q x) ≤ n)%nat.
Proof.
  intros Hn. unfold Py.deque_append. rewrite length_skipn, length_app. simpl. lia.
Qed.

Lemma store_rate_sound lo hi self rate :
  adaptive_sound lo hi self → (0 < rate)%Q → (lo <= rate)%Q → (rate <= hi)%Q →
  ∃ self', store_rate rate self = (Py.Return tt, self') ∧ adaptive_sound lo hi self' ∧
    success_count self' = success_count self ∧ error_count self' = error_count self.
Proof.
  intros (Hb & Hlo & Hhi & Hint & Hsc & Hec & Hlen) Hpos H1 H2.
  rewrite store_rate_positive by done. eexists. split; [done|].
  unfold adaptive_sound, rate_in_bounds, requests_per_second. simpl.
  rewrite Hlo, Hhi. done.
Qed.

Lemma report_sound lo hi self f :
  (Py.float_min_normal <= lo)%Q →
  adaptive_sound lo hi self →
  ∃ self', report self f = (Py.Return tt, self') ∧ adaptive_sound lo hi self'.
Proof.
  intros Hfloor Hs.
  pose proof Hs as ((Hpos & Hb1 & Hb2) & Hlo & Hhi & Hint & Hsc & Hec & Hlen).
  pose proof Hb1 as Hb1'. pose proof Hb2 as Hb2'.
  rewrite Hlo in Hb1'. rewrite Hhi in Hb2'.
  destruct f as [response_time|is_rate_limit]; simpl.
  - unfold on_success.
    set (self1 := set_error_count _ (set_success_count (success_count self + 1) self)).
    set (self2 := match response_time with Some _ => _ | None => _ end).
    assert (adaptive_sound lo hi self2 ∧
            requests_per_second self2 = requests_per_second self) as (Hs2 & Hr2).
    { subst self2 self1. destruct response_time as [x|]; [destruct (Qeq_bool x 0)|];
        (split; [|done]); unfold adaptive_sound, rate_in_bounds, requests_per_second;
        simpl; repeat split; try done; try lia.
      apply deque_append_length. lia. }
    clearbody self2. clear self1.
    destruct ((success_count self2 >=? 10) && _is_fast self2); [|by exists self2].
    unfold _increase_rate. rewrite Hr2.
    destruct Hs2 as (Hb' & Hlo2 & Hhi2 & Hrest). rewrite Hhi2.
    destruct (min_bounds hi (requests_per_second self * (6 # 5))%Q (requests_per_second self))
      as (Hm1 & Hm2 & Hm3); [lra|lra|].
    destruct (store_rate_sound lo hi self2
                (Py.min hi (requests_per_second self * (6 # 5))%Q))
      as (self' & -> & Hs' & _ & Hec'); [done|lra|lra|lra|].
    exists (set_success_count 0 self').
    split; [done|].
    destruct Hs' as (Hb'' & ? & ? & ? & ? & ? & ?).
    split; [exact Hb''|]. by repeat split.
  - unfold on_error.
    set (self1 := set_success_count 0 (set_error_count (error_count self + 1) self)).
    assert (adaptive_sound lo hi self1) as Hs1.
    { subst self1. unfold adaptive_sound, rate_in_bounds, requests_per_second.
      simpl. repeat split; try done; lia. }
    assert (requests_per_second self1 = requests_per_second self) as Hr1 by done.
    assert (min_rate self1 = lo) as Hlo1 by done.
    assert (∀ factor, (0 < factor)%Q → (factor <= 1)%Q →
            ∃ self', _decrease_rate self1 factor = (Py.Return tt, self') ∧
                     adaptive_sound lo hi self') as Hdec.
    { intros factor Hf0 Hf1. unfold _decrease_rate. rewrite Hr1, Hlo1.
      rewrite max_mul_underflow by exact Hfloor.
      set (r := requests_per_second self) in *.
      assert (0 < r * factor)%Q by nra. assert (r * factor <= r)%Q by nra.
      destruct (max_bounds lo (r * factor)%Q hi) as (Hm1 & Hm2 & Hm3); [lra|lra|].
      destruct (store_rate_sound lo hi self1 (Py.max lo (r * factor)%Q))
        as (self' & -> & Hs' & _); [done|lra|lra|lra|].
      by exists self'. }
    clearbody self1. destruct is_rate_limit.
    + apply Hdec; lra.
    + destruct (error_count self1 >=? 3); [|by exists self1].
      destruct (Hdec (4 # 5)) as (self' & -> & Hs'); [lra|lra|].
      exists (set_error_count 0 self'). split; [done|].
      destruct Hs' as (Hb'' & ? & ? & ? & ? & ? & ?).
      split; [exact Hb''|]. by repeat split.
Qed.

Lemma reports_sound lo hi fs : ∀ self,
  (Py.float_min_normal <= lo)%Q →
  adaptive_sound lo hi self →
  ∃ self', reports self fs = (replicate (length fs) (Py.Return tt), self') ∧
           adaptive_sound lo hi self'.
Proof.
  induction fs as [|f fs IH]; intros self Hfloor Hs; [by exists self|].
  destruct (report_sound lo hi self f Hfloor Hs) as (self1 & H1 & Hs1).
  destruct (IH self1 Hfloor Hs1) as (self' & H' & Hs').
  exists self'. simpl. by rewrite H1, H'.
Qed.

(** X25.  No feedback breaks an adaptive limiter that was built with an
    initial rate between [min_rate] and [max_rate] and with a [min_rate]
    that is a positive float at full precision: whatever successes and
    errors are reported, in whatever order, every report returns, the rate
    stays within the bounds, and so positive, the interval used by [wait]
    is the inverse of the current rate, the counters are not negative and at
    most ten response times are kept. *)
Theorem feedback_keeps_the_limiter_sound (rate lo hi base_delay : Q)
    (burst_size : option Z) (fs : list feedback) :
  (Py.float_min_normal <= lo)%Q → (lo <= rate)%Q → (rate <= hi)%Q →
  ∃ limiter self',
    init rate lo hi base_delay burst_size = Py.Return limiter ∧
    reports limiter fs = (replicate (length fs) (Py.Return tt), self') ∧
    adaptive_sound lo hi self'.
Proof.
  intros Hfloor Hlo Hhi.
  assert (0 < Py.float_min_normal)%Q as Hnormal by (vm_compute; reflexivity).
  assert (0 < rate)%Q as Hpos by lra.
  assert (∃ limiter, init rate lo hi base_delay burst_size = Py.Return limiter ∧
                     adaptive_sound lo hi limiter) as (limiter & Hinit & Hs).
  { unfold init, RateLimiter.init. rewrite Qeq_bool_false_pos by done.
    eexists. split; [done|].
    unfold adaptive_sound, rate_in_bounds, requests_per_second. simpl.
    repeat split; try done; lia. }
  destruct (reports_sound lo hi fs limiter Hfloor Hs) as (self' & Hrun & Hs').
  by exists limiter, self'.
Qed.

(** One success without a usable response time, on a limiter with fewer
    than five recorded response times. *)
Lemma on_success_unmeasured self response_time :
  (length (last_response_times self) < 5)%nat → unmeasured response_time →
  on_success self response_time =
    (Py.Return tt,
     set_error_count (Z.max 0 (error_count self - 1))
       (set_success_count (success_count self + 1) self)).
Proof.
  intros Hlen Hu. unfold on_success.
  set (self1 := set_error_count _ _).
  assert (match response_time with
          | Some x => if Qeq_bool x 0 then self1
                      else set_last_response_times
                             (Py.deque_append 10 (last_response_times self1) x) self1
          | None => self1
          end = self1) as ->.
  { destruct response_time as [x|]; [|done]. simpl in Hu.
    apply Qeq_bool_iff in Hu. by rewrite Hu. }
  assert (_is_fast self1 = false) as ->.
  { unfold _is_fast. change (last_response_times self1) with (last_response_times self).
    by destruct (Nat.ltb_spec (length (last_response_times self)) 5); [|lia]. }
  by rewrite andb_false_r.
Qed.

(** X26.  A caller that never reports a response time never gets a
    speed-up.  On a limiter with fewer than five recorded response times,
    successes reported with [None] or with [0.0] leave the rate limiter
    proper and the recorded times as they are, however many they are: only
    the success counter goes up by one each, and the error counter, which
    is not negative, down by one each, not below 0. *)
Theorem no_response_times_no_speed_up (response_times : list (option Q)) : ∀ self,
  (length (last_response_times self) < 5)%nat → 0 ≤ error_count self →
  Forall unmeasured response_times →
  ∃ self',
    reports self (map Succeeded response_times)
      = (replicate (length response_times) (Py.Return tt), self') ∧
    base self' = base self ∧
    last_response_times self' = last_response_times self ∧
    success_count self' = success_count self + Z.of_nat (length response_times) ∧
    error_count self' = Z.max 0 (error_count self - Z.of_nat (length response_times)).
Proof.
  induction response_times as [|rt rts IH]; intros self Hlen Hpos Hall.
  - exists self. simpl. repeat split; lia.
  - inversion Hall as [|? ? Hu Hall']; subst.
    destruct (IH (set_error_count (Z.max 0 (error_count self - 1))
                    (set_success_count (success_count self + 1) self)))
      as (self' & Hrun & Hb & Hl & Hsc & Hec); [done|simpl; lia|done|].
    exists self'. cbn [map reports report length replicate].
    rewrite on_success_unmeasured, Hrun by done.
    simpl in Hsc, Hec, Hb, Hl. repeat split; try done; lia.
Qed.


Lemma reports_app fs gs : ∀ self,
  reports self (fs ++ gs) =
    let '(rs, self1) := reports self fs in
    let '(rs', self2) := reports self1 gs in
    (rs ++ rs', self2).
Proof.
  induction fs as [|f fs IH]; intros self; simpl.
  - by destruct (reports self gs).
  - destruct (report self f) as [r self1]. rewrite IH.
    destruct (reports self1 fs) as [rs self2]. by destruct (reports self2 gs).
Qed.

(** After any number of appends the deque holds the latest [n] entries. *)
Lemma deque_appends {X} (n : nat) (xs : list X) : ∀ l,
  (length l ≤ n)%nat →
  fold_left (Py.deque_append n) xs l = skipn (length (l ++ xs) - n) (l ++ xs).
Proof.
  induction xs as [|x xs IH]; intros l Hl.
  - simpl. rewrite app_nil_r. by replace (length l - n)%nat with 0%nat by lia.
  - cbn [fold_left]. rewrite IH.
    2:{ unfold Py.deque_append. rewrite length_skipn, length_app. simpl. lia. }
    unfold Py.deque_append.
    set (b := (length (l ++ [x]) - n)%nat).
    assert (length (l ++ [x]) = Datatypes.S (length l)) as Hlx
      by (rewrite length_app; simpl; lia).
    assert (skipn b (l ++ [x]) ++ xs = skipn b (l ++ x :: xs)) as ->.
    { rewrite (skipn_app b l (x :: xs)), (skipn_app b l [x]), <- app_assoc.
      f_equal. destruct (b - length l)%nat as [|n0] eqn:E; [done|].
      assert (n0 = 0%nat) as -> by (subst b; lia). done. }
    rewrite skipn_skipn. f_equal.
    rewrite length_skipn, !length_app. simpl. subst b. rewrite Hlx. lia.
Qed.

Lemma sum_below (l : list Q) : ∀ a,
  Forall (λ x, (0 < x)%Q ∧ (x < 1)%Q) l → l ≠ [] →
  (fold_left Qplus l a < a + inject_Z (Z.of_nat (length l)))%Q.
Proof.
  induction l as [|x l IH]; intros a Hall Hne; [done|].
  inversion Hall as [|? ? [_ Hx] Hall']; subst.
  cbn [fold_left length]. rewrite Nat2Z.inj_succ. unfold Z.succ.
  rewrite inject_Z_plus. change (inject_Z 1) with 1%Q.
  destruct l as [|y l].
  - cbn [fold_left length]. change (inject_Z (Z.of_nat 0)) with 0%Q. lra.
  - specialize (IH (a + x)%Q Hall'). lapply IH; [|done]. lra.
Qed.

Lemma is_fast_all_fast self :
  (5 ≤ length (last_response_times self))%nat →
  Forall (λ x, (0 < x)%Q ∧ (x < 1)%Q) (last_response_times self) →
  _is_fast self = true.
Proof.
  intros Hlen Hall. unfold _is_fast.
  destruct (Nat.ltb_spec (length (last_response_times self)) 5); [lia|].
  apply Qltb_true_iff. unfold sum.
  assert (0 < inject_Z (Z.of_nat (length (last_response_times self))))%Q as Hn.
  { change 0%Q with (inject_Z 0). rewrite <- Zlt_Qlt. lia. }
  apply Qlt_shift_div_r; [done|].
  pose proof (sum_below (last_response_times self) 0 Hall) as Hs.
  lapply Hs; [lra|]. intros E. rewrite E in Hlen. simpl in Hlen. lia.
Qed.

(** A success with a response time, reported before the tenth in a row. *)
Lemma on_success_early self x :
  (0 < x)%Q → success_count self + 1 < 10 →
  on_success self (Some x) =
    (Py.Return tt,
     set_last_response_times (Py.deque_append 10 (last_response_times self) x)
       (set_error_count (Z.max 0 (error_count self - 1))
          (set_success_count (success_count self + 1) self))).
Proof.
  intros Hx Hsc. unfold on_success.
  rewrite (Qeq_bool_false_pos x Hx). cbn [success_count set_last_response_times
    set_error_count set_success_count].
  by destruct (Z.geb_spec (success_count self + 1) 10); [lia|].
Qed.

Lemma fast_successes_early (xs : list Q) : ∀ self,
  Forall (λ x, (0 < x)%Q ∧ (x < 1)%Q) xs →
  success_count self + Z.of_nat (length xs) < 10 →
  ∃ self',
    reports self (map (λ x, Succeeded (Some x)) xs)
      = (replicate (length xs) (Py.Return tt), self') ∧
    base self' = base self ∧ min_rate self' = min_rate self ∧
    max_rate self' = max_rate self ∧
    success_count self' = success_count self + Z.of_nat (length xs) ∧
    last_response_times self'
      = fold_left (Py.deque_append 10) xs (last_response_times self).
Proof.
  induction xs as [|x xs IH]; intros self Hall Hsc.
  - exists self. simpl. repeat split; lia.
  - inversion Hall as [|? ? [Hx _] Hall']; subst.
    cbn [length] in Hsc.
    destruct (IH (set_last_response_times
                    (Py.deque_append 10 (last_response_times self) x)
                    (set_error_count (Z.max 0 (error_count self - 1))
                       (set_success_count (success_count self + 1) self))))
      as (self' & Hrun & Hb & Hlo & Hhi & Hs & Hl); [done|simpl; lia|].
    exists self'. cbn [map reports report length replicate].
    rewrite on_success_early, Hrun by (done || lia).
    simpl in Hb, Hlo, Hhi, Hs, Hl. repeat split; try done; lia.
Qed.

Lemma increase_rate_explicit self :
  rate_in_bounds self →
  let rate := Py.min (max_rate self) (requests_per_second self * (6 # 5))%Q in
  _increase_rate self =
    (Py.Return tt,
     set_base (RateLimiter.set_min_interval (1 / rate)%Q
                 (RateLimiter.set_rate rate (base self))) self).
Proof.
  intros (Hpos & Hlo & Hhi). cbv zeta. unfold _increase_rate.
  destruct (min_bounds (max_rate self) (requests_per_second self * (6 # 5))%Q
              (requests_per_second self)) as (Hm & _); [lra|lra|].
  apply store_rate_positive. lra.
Qed.

(** X27.  Ten fast responses in a row earn a speed-up.  On a limiter whose
    rate is within its bounds, whose success counter is 0 and which holds
    at most ten response times, as its deque allows, the report of ten
    successes with response times all strictly between 0 and 1 second sets
    the rate to [min(max_rate, rate * 1.2)] at the tenth, not before,
    whatever response times were recorded earlier; the success counter is
    back to 0 and the ten response times are the ones kept. *)
Theorem ten_fast_responses_speed_up self (xs : list Q) :
  rate_in_bounds self → success_count self = 0 →
  (length (last_response_times self) ≤ 10)%nat →
  length xs = 10%nat → Forall (λ x, (0 < x)%Q ∧ (x < 1)%Q) xs →
  ∃ self',
    reports self (map (λ x, Succeeded (Some x)) xs)
      = (replicate 10 (Py.Return tt), self') ∧
    requests_per_second self' =
      Py.min (max_rate self) (requests_per_second self * (6 # 5))%Q ∧
    (∀ n, (n < 10)%nat →
       requests_per_second (snd (reports self (map (λ x, Succeeded (Some x)) (take n xs))))
         = requests_per_second self) ∧
    success_count self' = 0 ∧ last_response_times self' = xs.
Proof.
  intros Hb Hsc Hlen Hxs Hall.
  destruct (exists_last (l := xs)) as (xs9 & x10 & ->); [by intros ->|].
  rewrite length_app in Hxs. simpl in Hxs.
  apply Forall_app in Hall as [Hall9 Hall10].
  inversion Hall10 as [|? ? [Hx0 Hx1] _]; subst.
  destruct (fast_successes_early xs9 self Hall9) as
    (self9 & Hrun & Hbase & Hlo & Hhi & Hs9 & Hl9); [lia|].
  set (self10 := set_last_response_times
                   (Py.deque_append 10 (last_response_times self9) x10)
                   (set_error_count (Z.max 0 (error_count self9 - 1))
                      (set_success_count (success_count self9 + 1) self9))).
  assert (last_response_times self10 = xs9 ++ [x10]) as Hl10.
  { subst self10. cbn [last_response_times set_last_response_times].
    rewrite Hl9.
    change (Py.deque_append 10 (fold_left (Py.deque_append 10) xs9 (last_response_times self)) x10)
      with (fold_left (Py.deque_append 10) [x10]
              (fold_left (Py.deque_append 10) xs9 (last_response_times self))).
    rewrite <- fold_left_app, deque_appends by done.
    rewrite skipn_app, length_app, length_app. simpl.
    replace (length (last_response_times self) + (length xs9 + 1) - 10)%nat
      with (length (last_response_times self)) by lia.
    by rewrite skipn_all, Nat.sub_diag. }
  assert (rate_in_bounds self10) as Hb10.
  { unfold rate_in_bounds, requests_per_second in *. subst self10. simpl.
    by rewrite Hbase, Hlo, Hhi. }
  assert (on_success self9 (Some x10) =
          match _increase_rate self10 with
          | (Py.Raise e, self) => (Py.Raise e, self)
          | (Py.Return _, self) => (Py.Return tt, set_success_count 0 self)
          end) as Hstep.
  { unfold on_success. rewrite (Qeq_bool_false_pos x10 Hx0).
    change ((if (success_count self10 >=? 10) && _is_fast self10
             then match _increase_rate self10 with
                  | (Py.Raise e, self) => (Py.Raise e, self)
                  | (Py.Return _, self) => (Py.Return tt, set_success_count 0 self)
                  end
             else (Py.Return tt, self10)) =
            match _increase_rate self10 with
            | (Py.Raise e, self) => (Py.Raise e, self)
            | (Py.Return _, self) => (Py.Return tt, set_success_count 0 self)
            end).
    assert ((success_count self10 >=? 10) = true) as ->.
    { subst self10. simpl. apply Z.geb_le. lia. }
    rewrite is_fast_all_fast; [done| |].
    - rewrite Hl10, length_app. simpl. lia.
    - rewrite Hl10. apply Forall_app. by split. }
  rewrite (increase_rate_explicit self10 Hb10) in Hstep.
  eexists. split; [|split; [|split; [|split]]].
  - rewrite map_app, reports_app, Hrun. cbn [map reports report].
    rewrite Hstep. replace (length xs9) with 9%nat by lia. done.
  - subst self10. unfold requests_per_second. simpl.
    by rewrite Hbase, Hhi.
  - intros n Hn. rewrite take_app_le by lia.
    destruct (fast_successes_early (take n xs9) self) as
      (selfn & -> & Hbn & _); [by apply Forall_take|rewrite length_take; lia|].
    unfold requests_per_second. simpl. by rewrite Hbn.
  - done.
  - exact Hl10.
Qed.


Lemma max_proper (lo x y : Q) : (x == y)%Q → (Py.max lo x == Py.max lo y)%Q.
Proof.
  intros E. destruct (Qlt_le_dec lo x) as [H|H].
  - rewrite (max_r lo x H), (max_r lo y) by lra. done.
  - rewrite (max_l lo x H), (max_l lo y) by lra. reflexivity.
Qed.

(** Lowering a rate that may already sit on the floor. *)
Lemma max_floor (lo r f : Q) :
  (0 < r)%Q → (0 < f)%Q → (f <= 1)%Q →
  (Py.max lo (Py.max lo r * f) == Py.max lo (r * f))%Q.
Proof.
  intros Hr Hf0 Hf1. destruct (Qlt_le_dec lo r) as [H|H].
  - rewrite (max_r lo r H). reflexivity.
  - rewrite (max_l lo r H).
    assert (lo * f <= lo)%Q by nra. assert (r * f <= lo)%Q by nra.
    rewrite (max_l lo (lo * f)), (max_l lo (r * f)) by done. reflexivity.
Qed.

Lemma half_power (k : nat) :
  ((1 # 2) ^ Z.of_nat (Datatypes.S k) == (1 # 2) * (1 # 2) ^ Z.of_nat k)%Q ∧
  (0 < (1 # 2) ^ Z.of_nat k)%Q ∧ ((1 # 2) ^ Z.of_nat k <= 1)%Q.
Proof.
  assert (∀ k : nat,
    ((1 # 2) ^ Z.of_nat (Datatypes.S k) == (1 # 2) * (1 # 2) ^ Z.of_nat k)%Q) as Hstep.
  { intros j. rewrite Nat2Z.inj_succ. unfold Z.succ.
    rewrite Qpower_plus by done. rewrite Qpower_1_r. ring. }
  split; [done|]. split; [by apply Qpower_0_lt|].
  induction k as [|k IH]; [done|].
  rewrite Hstep. assert (0 < (1 # 2) ^ Z.of_nat k)%Q by by apply Qpower_0_lt. lra.
Qed.

Lemma throttling_run (k : nat) : ∀ self,
  rate_in_bounds self → positive_floor self →
  ∃ self',
    reports self (replicate k (Failed true)) = (replicate k (Py.Return tt), self') ∧
    (requests_per_second self' ==
       Py.max (min_rate self) (requests_per_second self * (1 # 2) ^ Z.of_nat k))%Q ∧
    min_rate self' = min_rate self ∧ max_rate self' = max_rate self ∧
    error_count self' = error_count self + Z.of_nat k ∧
    rate_in_bounds self'.
Proof.
  induction k as [|k IH]; intros self Hb Hfloor.
  - exists self. split; [done|]. split.
    + change ((1 # 2) ^ Z.of_nat 0)%Q with 1%Q. destruct Hb as (_ & Hlo & _).
      rewrite (max_proper _ _ (requests_per_second self)) by ring.
      destruct (Qlt_le_dec (min_rate self) (requests_per_second self)) as [H|H].
      * by rewrite max_r.
      * rewrite max_l by done. lra.
    + repeat split; try apply Hb; lia.
  - destruct (on_error_spec self true Hb Hfloor) as
      (self1 & Hcall & _ & Hlo1 & Hhi1 & Hb1 & Hr1 & Hec1).
    assert (positive_floor self1) as Hfloor1 by (unfold positive_floor; by rewrite Hlo1).
    destruct (IH self1 Hb1 Hfloor1) as (self' & Hrun & Hr & Hlo & Hhi & Hec & Hb').
    exists self'. cbn [replicate reports report]. rewrite Hcall, Hrun.
    split; [done|]. split; [|repeat split; try apply Hb'; try congruence; lia].
    destruct (half_power k) as (Hpow & Hp0 & Hp1). destruct Hb as (Hpos & _).
    rewrite Hr, Hlo1, Hr1.
    rewrite max_floor by (done || lra).
    apply max_proper. rewrite Hpow. ring.
Qed.

(** X28.  Throttling halves the rate down to the floor, if there is one.  On
    a limiter whose rate is within its bounds and whose [min_rate] is a
    positive float at full precision, [k] errors in a row reported with the
    rate-limit signal all return and leave the rate at
    [max(min_rate, rate / 2^k)]: the rate decays geometrically until it
    meets [min_rate] and then stays there; the error counter has gone up by
    [k] and is never put back by these reports.  Without a positive floor
    the decay ends in an exception: with [min_rate <= 0] and a rate that has
    come down to the smallest positive float, the next such error makes the
    rate [0.0] and raises [ZeroDivisionError] when the interval is
    computed. *)
Theorem throttling_halves_down_to_the_floor (k : nat) self :
  rate_in_bounds self →
  (positive_floor self →
   ∃ self',
     reports self (replicate k (Failed true)) = (replicate k (Py.Return tt), self') ∧
     (requests_per_second self' ==
        Py.max (min_rate self) (requests_per_second self * (1 # 2) ^ Z.of_nat k))%Q ∧
     min_rate self' = min_rate self ∧ max_rate self' = max_rate self ∧
     error_count self' = error_count self + Z.of_nat k ∧
     rate_in_bounds self') ∧
  ((min_rate self <= 0)%Q → (requests_per_second self <= Py.float_tiny)%Q →
   fst (on_error self true)
     = Py.Raise (Py.ZeroDivisionError "float division by zero") ∧
   (requests_per_second (snd (on_error self true)) == 0)%Q).
Proof.
  intros Hb. split; [by apply throttling_run|].
  intros Hlo Htiny. destruct Hb as (Hpos & _).
  unfold on_error, _decrease_rate.
  change (requests_per_second (set_success_count 0 _)) with (requests_per_second self).
  change (min_rate (set_success_count 0 _)) with (min_rate self).
  assert (Py.mul_underflow (requests_per_second self) (1 # 2) = 0%Q) as ->.
  { unfold Py.mul_underflow.
    assert (Py.Qleb (Qabs (requests_per_second self * (1 # 2))) (Py.float_tiny / 2) = true)
      as ->; [|done].
    apply Qleb_true_iff. rewrite Qabs_pos by nra.
    unfold Qdiv. change (/ 2)%Q with (1 # 2)%Q. nra. }
  destruct (Qlt_le_dec (min_rate self) 0) as [Hneg|Hzero].
  - rewrite (max_r _ _ Hneg). unfold store_rate. by vm_compute.
  - rewrite (max_l (min_rate self) 0 Hzero). unfold store_rate.
    assert (Qeq_bool (min_rate self) 0 = true) as -> by (apply Qeq_bool_iff; lra).
    cbn [fst snd]. split; [done|].
    unfold requests_per_second. simpl. lra.
Qed.

End AdaptiveRuns.

Section ScraperProperties.

Import BaseScraper.

Context {N A : Type}.

Implicit Types (self : t) (request : Py.operation N A) (w : Py.world N A).








(** X30.  What a caller of [fetch_page] or [download_image] can be handed.
    A failure is a [ScraperError], whatever class of [Exception] the
    request or the retry handler raised, or else an exception outside
    [Exception], such as [KeyboardInterrupt], passed on as it is.  And a
    scraper built with [max_retries <= 0] never sends a request: every
    call raises a [ScraperError] at once, without a wait on the limiter,
    because the retry handler then raises a [TypeError] of its own. *)
Theorem scraper_failures_are_scraper_errors self
    (step : scraper_call N A * Py.world N A) :
  let run := scraper_step self step in
  (∀ e, fst (fst run) = Py.Raise e →
        Py.isinstance e "ScraperError" = true ∨ Py.isinstance e "Exception" = false) ∧
  (RetryHandler.max_retries (retry_handler self) ≤ 0 →
   ∃ prefix,
     run = (Py.Raise (ScraperError [Py.Text prefix;
                        Py.Text "exceptions must derive from BaseException"]),
            self, snd step)).
Proof.
  cbv zeta. split.
  - intros e. unfold scraper_step.
    destruct step as [[request|request] w]; cbn [fst snd];
      unfold fetch_page, download_image, guarded_run;
      destruct (RetryHandler.execute_with_retry _ _ _) as [[[page|e0] handler] w1];
      try done;
      destruct (Py.isinstance e0 "Exception") eqn:Hexc; cbn [fst];
      intros [= <-]; first [left; reflexivity | right; exact Hexc].
  - intros Hmax. unfold scraper_step.
    destruct step as [[request|request] w]; cbn [fst snd];
      [exists "Failed to fetch page: "%string
      |exists "Failed to download image: "%string];
      unfold fetch_page, download_image, guarded_run, RetryHandler.execute_with_retry;
      replace (Z.to_nat (RetryHandler.max_retries (retry_handler self))) with 0%nat by lia;
      destruct self, w; reflexivity.
Qed.

End ScraperProperties.

(** * Concrete runs *)

Section Examples.

Example int16_accepts :
  map Py.int16 ["ff"; " ff "; "+ff"; "-ff"; "0xff"; "0x_f"; "f_f"; "0_f"; "-0x1"; "0b1"]%string
  = [Some 255; Some 255; Some 255; Some (-255); Some 255; Some 15; Some 255; Some 15;
     Some (-1); Some 177].
Proof. reflexivity. Qed.

Example int16_rejects :
  map Py.int16 [""; "- ff"; "0x"; "0x__f"; "_f"; "f_"; "f__f"; "0xg"; "g"; "f f"; "0x_";
                "+"; " "]%string
  = [None; None; None; None; None; None; None; None; None; None; None; None; None].
Proof. reflexivity. Qed.

Example hamming_distance_examples :
  map (λ '(p, k), DuplicateDetector._hamming_distance p k)
      [("ff00", "ff01"); ("ff00", "00ff"); ("ff", "ff00"); ("zz", "ff")]%string
  = [DuplicateDetector.Finite 1; DuplicateDetector.Finite 16;
     DuplicateDetector.Infinite; DuplicateDetector.Infinite].
Proof. reflexivity. Qed.

Lemma perceptual_duplicate_iff_witness :
  fst (DuplicateDetector.is_duplicate one_entry "eccbc87e" (Some "ff01") 5) = true.
Proof.
  destruct (perceptual_duplicate_iff one_entry "eccbc87e" (Some "ff01") 5)
    as [[_ Hdup] _].
  - reflexivity.
  - apply (proj1 (bool_decide_eq_false _)). vm_compute. reflexivity.
  - apply (proj1 (bool_decide_eq_false _)). vm_compute. reflexivity.
  - apply Hdup. exists "ff01"%string, "ff00"%string. split; [reflexivity|].
    split; [vm_compute; eauto|]. split; [reflexivity|].
    exists 65281, 65280. vm_compute. repeat split; discriminate.
Defined.

Lemma always_failing_exhausts_attempts_witness :
  ∃ e, fst (fst (RetryHandler.execute_with_retry
                   (RetryHandler.init 3 1 60 2 true None) broken (world_at 0 0)))
       = Py.Raise e.
Proof.
  destruct (always_failing_exhausts_attempts
              (RetryHandler.init 3 1 60 2 true None) broken (world_at 0 0) 3)
    as (e & failures & Hraise & _).
  - lia.
  - reflexivity.
  - apply backoff_in_range_short. simpl. lia.
  - intros s start. exists (Py.ValueError "boom"), (Datatypes.S s), 1%Q.
    split; [reflexivity|]. split; reflexivity.
  - exists e. exact Hraise.
Defined.

(** C3.  The claim fails on the code for [N = 1026] with the other
    arguments of the handler at their defaults.  On an operation that always
    fails, the 1025th failure is to be followed by the delay
    [_calculate_delay(1024)], whose power [2.0 ** 1024] is out of range:
    the run ends there with an [OverflowError] instead of the failure of the
    operation, after 1025 invocations instead of 1026, with
    [total_failures] as it was and [total_retries] as large as
    [total_attempts]. *)
Theorem overflow_cuts_the_retries_short :
  let run := RetryHandler.execute_with_retry
               (RetryHandler.init 1026 1 60 2 true None) broken (world_at 0 0) in
  let handler := snd (fst run) in
  fst (fst run) = Py.Raise (Py.OverflowError "(34, 'Numerical result out of range')") ∧
  Py.op_state (snd run) = 1025%nat ∧
  Py.op_log (snd run) = replicate 1025 (Py.Raise (Py.ValueError "boom")) ∧
  length (Py.sleeps (snd run)) = 1024%nat ∧
  RetryHandler.total_attempts handler = 1025 ∧
  RetryHandler.total_retries handler = 1025 ∧
  RetryHandler.total_failures handler = 0.
Proof. vm_compute. repeat split; reflexivity. Qed.


Lemma non_retryable_propagates_at_once_witness :
  Py.sleeps (snd (RetryHandler.execute_with_retry
                    (RetryHandler.init 3 1 60 2 true (Some ["ConnectionError"%string]))
                    broken (world_at 0 0)))
  = [].
Proof.
  apply (non_retryable_propagates_at_once
           (RetryHandler.init 3 1 60 2 true (Some ["ConnectionError"%string]))
           broken (world_at 0 0) ["ConnectionError"%string] (Py.ValueError "boom")).
  - reflexivity.
  - simpl. lia.
  - reflexivity.
  - reflexivity.
Defined.

Lemma three_failures_open_then_recover_witness :
  let cb1 := snd (fst (CircuitBreaker.call (CircuitBreaker.init 3 60 "Exception")
                         (flaky 3) (world_at 0 0))) in
  let cb2 := snd (fst (CircuitBreaker.call cb1 (flaky 3) (world_at 1 1))) in
  let cb3 := snd (fst (CircuitBreaker.call cb2 (flaky 3) (world_at 2 2))) in
  CircuitBreaker.state cb3 = CircuitBreaker.OPEN.
Proof.
  apply (three_failures_open_then_recover (flaky 3) 60 "Exception"
           (world_at 0 0) (world_at 1 1) (world_at 2 2)
           (Py.ValueError "boom") (Py.ValueError "boom") (Py.ValueError "boom"));
    reflexivity.
Defined.

Lemma adaptive_rate_transitions_witness :
  ∃ self',
    AdaptiveRateLimiter.on_error
      (AdaptiveRateLimiter.mk (RateLimiter.mk 1 1 0 1 0 [] 0 0 None) 1 (1 # 10) 5 0 0 [])
      true
    = (Py.Return tt, self') ∧
    AdaptiveRateLimiter.requests_per_second self' = (1 # 2)%Q.
Proof.
  destruct (adaptive_rate_transitions
              (AdaptiveRateLimiter.mk (RateLimiter.mk 1 1 0 1 0 [] 0 0 None)
                 1 (1 # 10) 5 0 0 []))
    as [Herrors _].
  - repeat split; vm_compute; (reflexivity || discriminate).
  - destruct Herrors as ((self' & Hrun & Hrate & _) & _).
    + vm_compute. discriminate.
    + exists self'. split; [exact Hrun|]. rewrite Hrate. reflexivity.
Defined.


End Examples.

Section FurtherExamples.

Lemma remove_hash_forgets_witness :
  fst (DuplicateDetector.remove_hash one_entry "c4ca4238") = true ∧
  DuplicateDetector.exact_hashes (snd (DuplicateDetector.remove_hash one_entry "c4ca4238"))
    = DuplicateDetector.exact_hashes one_entry ∖ {["c4ca4238"%string]}.
Proof.
  destruct (remove_hash_forgets one_entry "c4ca4238") as (Hiff & _ & Hex & _).
  - apply well_formed_add_hash; [apply well_formed_init|].
    apply (proj1 (bool_decide_eq_false _)). vm_compute. reflexivity.
  - split; [|exact Hex]. apply Hiff.
    apply (proj1 (bool_decide_eq_true _)). vm_compute. reflexivity.
Defined.

Lemma check_and_add_then_remove_witness :
  fst (DuplicateDetector.remove_hash
         (snd (DuplicateDetector.check_and_add (DuplicateDetector.init true)
                 "c4ca4238" (Some "ff00"%string) 5))
         "c4ca4238") = true.
Proof.
  destruct (check_and_add_then_remove (DuplicateDetector.init true)
              "c4ca4238" (Some "ff00"%string) 5) as (Hrem & _).
  - apply well_formed_init.
  - vm_compute. reflexivity.
  - exact Hrem.
Defined.


Lemma no_attempts_raises_type_error_witness :
  fst (fst (RetryHandler.execute_with_retry
              (RetryHandler.init 0 1 60 2 true None) broken (world_at 0 0)))
  = Py.Raise (Py.TypeError "exceptions must derive from BaseException").
Proof.
  rewrite (no_attempts_raises_type_error
             (RetryHandler.init 0 1 60 2 true None) broken (world_at 0 0)).
  - reflexivity.
  - simpl. lia.
Defined.

Lemma base_exception_is_never_retried_witness :
  Py.sleeps (snd (RetryHandler.execute_with_retry
                    (RetryHandler.init 3 1 60 2 true None) interrupted (world_at 0 0)))
  = [].
Proof.
  rewrite (base_exception_is_never_retried
             (RetryHandler.init 3 1 60 2 true None) interrupted (world_at 0 0)
             (Py.mk_exn ["KeyboardInterrupt"; "BaseException"; "object"]%string [])).
  - reflexivity.
  - simpl. lia.
  - reflexivity.
  - reflexivity.
Defined.


Lemma breaker_stays_consistent_witness :
  breaker_consistent
    (calls (CircuitBreaker.init 3 60 "Exception")
       [(broken, world_at 0 0); (broken, world_at 1 1); (broken, world_at 2 2);
        (broken, world_at 3 3)]).
Proof.
  destruct (breaker_stays_consistent 3 60 "Exception"
              [(broken, world_at 0 0); (broken, world_at 1 1); (broken, world_at 2 2);
               (broken, world_at 3 3)]) as (Hok & _).
  - lia.
  - exact Hok.
Defined.

Lemma closed_breaker_counts_every_failure_witness :
  let cb := calls (CircuitBreaker.init 3 60 "Exception")
              [(broken, world_at 0 0); (flaky 0, world_at 1 1)] in
  CircuitBreaker.state cb = CircuitBreaker.CLOSED ∧ CircuitBreaker.failure_count cb = 1.
Proof.
  destruct (closed_breaker_counts_every_failure 3 60 "Exception"
              [(broken, world_at 0 0); (flaky 0, world_at 1 1)])
    as (Hstate & Hcount & _).
  - vm_compute. reflexivity.
  - split; [exact Hstate|exact Hcount].
Defined.

Lemma failed_probe_reopens_witness :
  CircuitBreaker.state (snd (fst (CircuitBreaker.call tripped broken (world_at 100 3))))
  = CircuitBreaker.OPEN.
Proof.
  destruct (failed_probe_reopens tripped broken (world_at 100 3)
              (Py.ValueError "boom") 2) as (_ & Hstate & _).
  - vm_compute. repeat split; (discriminate || eauto).
  - reflexivity.
  - reflexivity.
  - vm_compute. discriminate.
  - reflexivity.
  - reflexivity.
  - exact Hstate.
Defined.

Lemma unexpected_failure_is_not_counted_witness :
  CircuitBreaker.failure_count
    (snd (fst (CircuitBreaker.call (CircuitBreaker.init 3 60 "ConnectionError")
                 broken (world_at 0 0))))
  = 0.
Proof.
  destruct (unexpected_failure_is_not_counted
              (CircuitBreaker.init 3 60 "ConnectionError") broken (world_at 0 0)
              (Py.ValueError "boom")) as (Hcount & _).
  - reflexivity.
  - reflexivity.
  - exact Hcount.
Defined.




Lemma idle_time_buys_calls_witness :
  fst (fst (RateLimiter.burst 2 drained (world_at 2 0)))
  = [Py.Return 0%Q; Py.Return 0%Q].
Proof.
  destruct (idle_time_buys_calls drained (world_at 2 0) 0 0 2) as (Hrun & _).
  - reflexivity.
  - reflexivity.
  - discriminate.
  - simpl. lia.
  - vm_compute. discriminate.
  - exact Hrun.
Defined.

Lemma feedback_keeps_the_limiter_sound_witness :
  ∃ limiter self',
    AdaptiveRateLimiter.init 1 (1 # 10) 5 0 None = Py.Return limiter ∧
    reports limiter [Failed true; Succeeded (Some (1 # 2)%Q); Failed false]
      = ([Py.Return tt; Py.Return tt; Py.Return tt], self') ∧
    adaptive_sound (1 # 10) 5 self'.
Proof.
  destruct (feedback_keeps_the_limiter_sound 1 (1 # 10) 5 0 None
              [Failed true; Succeeded (Some (1 # 2)%Q); Failed false])
    as (limiter & self' & Hinit & Hrun & Hsound).
  - vm_compute. discriminate.
  - discriminate.
  - discriminate.
  - exists limiter, self'. split; [exact Hinit|]. split; [exact Hrun|exact Hsound].
Defined.

Lemma no_response_times_no_speed_up_witness :
  ∃ self',
    reports adaptive [Succeeded None; Succeeded (Some 0%Q); Succeeded None]
      = ([Py.Return tt; Py.Return tt; Py.Return tt], self') ∧
    AdaptiveRateLimiter.base self' = AdaptiveRateLimiter.base adaptive.
Proof.
  destruct (no_response_times_no_speed_up [None; Some 0%Q; None] adaptive)
    as (self' & Hrun & Hbase & _).
  - simpl. lia.
  - simpl. lia.
  - repeat constructor.
  - exists self'. split; [exact Hrun|exact Hbase].
Defined.

Lemma ten_fast_responses_speed_up_witness :
  ∃ self',
    reports adaptive (map (λ x, Succeeded (Some x)) (replicate 10 (1 # 2)%Q))
      = (replicate 10 (Py.Return tt), self') ∧
    AdaptiveRateLimiter.requests_per_second self' = (6 # 5)%Q.
Proof.
  destruct (ten_fast_responses_speed_up adaptive (replicate 10 (1 # 2)%Q))
    as (self' & Hrun & Hrate & _).
  - vm_compute. repeat split; (reflexivity || discriminate).
  - reflexivity.
  - simpl. lia.
  - reflexivity.
  - repeat constructor.
  - exists self'. split; [exact Hrun|]. rewrite Hrate. reflexivity.
Defined.

Lemma throttling_halves_down_to_the_floor_witness :
  ∃ self',
    reports adaptive [Failed true; Failed true; Failed true]
      = ([Py.Return tt; Py.Return tt; Py.Return tt], self') ∧
    (AdaptiveRateLimiter.requests_per_second self' == 1 # 8)%Q.
Proof.
  destruct (throttling_halves_down_to_the_floor 3 adaptive) as [Hfloor _].
  - vm_compute. repeat split; (reflexivity || discriminate).
  - destruct Hfloor as (self' & Hrun & Hrate & _).
    + vm_compute. discriminate.
    + exists self'. split; [exact Hrun|]. rewrite Hrate. reflexivity.
Defined.

Lemma threshold_extremes_witness :
  fst (DuplicateDetector.is_duplicate one_entry "eccbc87e" (Some "ff00"%string) 0) = true.
Proof.
  destruct (threshold_extremes one_entry "eccbc87e" (Some "ff00"%string) 0) as [_ Hsame].
  apply (Hsame "ff00"%string 65280).
  - lia.
  - reflexivity.
  - reflexivity.
  - reflexivity.
  - vm_compute. eauto.
Defined.

Lemma hamming_distance_is_a_distance_witness :
  ∃ n, DuplicateDetector._hamming_distance "ff00" "0f01" = DuplicateDetector.Finite n ∧
       0 ≤ n ≤ 1 + 4.
Proof.
  destruct (hamming_distance_is_a_distance "ff00" "ff01" "0f01")
    as (_ & _ & _ & _ & Htriangle).
  apply (Htriangle 65280 65281 3841); (reflexivity || lia).
Defined.

Lemma import_hashes_takes_the_structure_witness :
  "a"%string ∈ DuplicateDetector.exact_hashes
                 (DuplicateDetector.import_hashes one_entry
                    (DuplicateDetector.mk_exported (Some ["a"; "b"]%string) (Some ∅) None)).
Proof.
  destruct (import_hashes_takes_the_structure one_entry
              (DuplicateDetector.mk_exported (Some ["a"; "b"]%string) (Some ∅) None))
    as (_ & _ & _ & _ & Hboth).
  destruct (Hboth ["a"; "b"]%string ∅) as (Hexact & _).
  - reflexivity.
  - reflexivity.
  - apply Hexact. constructor.
Defined.

Lemma backoff_delay_bounds_witness :
  ∃ delay,
    fst (RetryHandler._calculate_delay (RetryHandler.init 3 1 60 2 false None) 7
           (world_at 0 0)) = Py.Return delay ∧
    (delay <= 60)%Q.
Proof.
  destruct (backoff_delay_bounds (RetryHandler.init 3 1 60 2 false None) 7 (world_at 0 0))
    as [[(Hraise & _)|(delay & Hdelay & _ & _ & Hbounds)] _].
  - lia.
  - vm_compute in Hraise. discriminate.
  - exists delay. split; [exact Hdelay|].
    destruct Hbounds as [Hplain _].
    + discriminate.
    + discriminate.
    + discriminate.
    + destruct Hplain as (_ & Hcap & _); [reflexivity|exact Hcap].
Defined.



Lemma scraper_failures_are_scraper_errors_witness :
  ∃ prefix,
    BaseScraper.fetch_page
      (BaseScraper.mk (RateLimiter.mk 2 (1 # 2) 0 1 0 [] 0 0 None)
                      (RetryHandler.init 0 1 60 2 true None))
      broken (world_at 0 0)
    = (Py.Raise (BaseScraper.ScraperError
                   [Py.Text prefix; Py.Text "exceptions must derive from BaseException"]),
       BaseScraper.mk (RateLimiter.mk 2 (1 # 2) 0 1 0 [] 0 0 None)
                      (RetryHandler.init 0 1 60 2 true None),
       world_at 0 0).
Proof.
  destruct (scraper_failures_are_scraper_errors
              (BaseScraper.mk (RateLimiter.mk 2 (1 # 2) 0 1 0 [] 0 0 None)
                              (RetryHandler.init 0 1 60 2 true None))
              (FetchPage broken, world_at 0 0)) as [_ Hnone].
  apply Hnone. simpl. lia.
Defined.

End FurtherExamples.
